(** * Overcooked demo server: session engine (game.py, app.py, utils.py)

    A shallow embedding of the session life cycle of the Overcooked demo
    server: the [Game] / [OvercookedGame] / [OvercookedTutorial] classes of
    [game.py] and the global registries and helpers of [app.py].

    Python objects are records, method calls are computations in a small
    state-and-exception monad whose third outcome, [Blocks], stands for a
    thread that waits forever-or-until-another-thread-acts in a blocking
    [queue.get] / [queue.put].  The state survives an exception, as the
    mutations made before a Python [raise] do. *)

From stdpp Require Import gmap strings list fin_maps.
From Stdlib Require Import ZArith.

Open Scope string_scope.
Open Scope Z_scope.

(** ** Outcomes of a Python call *)

Inductive exn : Type :=
  | Empty
  | Full
  | ValueError (msg : string)
  | KeyError
  | IndexError
  | AttributeError
  | ZeroDivisionError
  | IOError (msg : string)
  | AssertionError (msg : string)
  | RuntimeError (msg : string).

Inductive res (A : Type) : Type :=
  | Val (a : A)
  | Exc (e : exn)
  | Blocks.

Arguments Val {A} a.
Arguments Exc {A} e.
Arguments Blocks {A}.

Definition Py (S A : Type) : Type := S -> S * res A.

Definition ret {S A : Type} (a : A) : Py S A := fun s => (s, Val a).

Definition bind {S A B : Type} (m : Py S A) (f : A -> Py S B) : Py S B :=
  fun s =>
    match m s with
    | (s', Val a) => f a s'
    | (s', Exc e) => (s', Exc e)
    | (s', Blocks) => (s', Blocks)
    end.

Definition raise {S A : Type} (e : exn) : Py S A := fun s => (s, Exc e).

Definition block {S A : Type} : Py S A := fun s => (s, Blocks).

Definition gets {S A : Type} (f : S -> A) : Py S A := fun s => (s, Val (f s)).

Definition modify {S : Type} (f : S -> S) : Py S unit := fun s => (f s, Val tt).

(** [try: m except ...]: the handler picks the exceptions it catches. *)
Definition try_except {S A : Type} (m : Py S A) (h : exn -> option (Py S A))
  : Py S A :=
  fun s =>
    match m s with
    | (s', Exc e) => match h e with Some k => k s' | None => (s', Exc e) end
    | r => r
    end.

(** A value that may be missing: [d[k]] on a dict, [l[i]] on a list, an
    attribute not yet assigned. *)
Definition lookup_or {S A : Type} (e : exn) (o : option A) : Py S A :=
  match o with Some a => ret a | None => raise e end.

Declare Scope py_scope.
Delimit Scope py_scope with py.
Notation "x <- m ;; k" := (bind m (fun x => k))
  (at level 100, m at next level, right associativity) : py_scope.
Notation "m ;;; k" := (bind m (fun _ => k))
  (at level 100, right associativity) : py_scope.
Open Scope py_scope.

(** [for x in l: body x] *)
Fixpoint for_each {S A : Type} (l : list A) (body : A -> Py S unit) : Py S unit :=
  match l with
  | [] => ret tt
  | x :: l' => body x ;;; for_each l' body
  end.

(** [preserves R m]: whatever the outcome of [m], the state it leaves is
    related by [R] to the one it started from. *)
Definition preserves {S A : Type} (R : relation S) (m : Py S A) : Prop :=
  forall s, R s (fst (m s)).

(** [keeps f]: attribute [f] has not changed. *)
Definition keeps {S B : Type} (f : S -> B) : relation S :=
  fun s s' => f s' = f s.

(** [respects P f]: property [P] of attribute [f], once it holds, still
    holds afterwards. *)
Definition respects {S B : Type} (P : B -> Prop) (f : S -> B) : relation S :=
  fun s s' => P (f s) -> P (f s').

(** ** queue.Queue and queue.LifoQueue *)

(** [queue.Queue(maxsize)]: FIFO; [maxsize <= 0] means unbounded. *)
Record Queue (A : Type) : Type := mkQueue { maxsize : Z; items : list A }.
Arguments mkQueue {A} maxsize items.
Arguments maxsize {A} q.
Arguments items {A} q.

Definition qfull {A : Type} (q : Queue A) : bool :=
  (0 <? maxsize q) && (maxsize q <=? Z.of_nat (length (items q))).

(** [q.put(x)], i.e. [block=True]: waits while the queue is full. *)
Definition put {A : Type} (x : A) (q : Queue A) : Queue A * res unit :=
  if qfull q then (q, Blocks)
  else (mkQueue (maxsize q) (items q ++ [x]), Val tt).

(** [q.put(x, block=False)]: raises [Full] on a full queue. *)
Definition put_nowait {A : Type} (x : A) (q : Queue A) : Queue A * res unit :=
  if qfull q then (q, Exc Full)
  else (mkQueue (maxsize q) (items q ++ [x]), Val tt).

(** [q.get(block=True)]: waits while the queue is empty. *)
Definition get {A : Type} (q : Queue A) : Queue A * res A :=
  match items q with
  | [] => (q, Blocks)
  | x :: r => (mkQueue (maxsize q) r, Val x)
  end.

(** [q.get(block=False)]: raises [Empty] on an empty queue. *)
Definition get_nowait {A : Type} (q : Queue A) : Queue A * res A :=
  match items q with
  | [] => (q, Exc Empty)
  | x :: r => (mkQueue (maxsize q) r, Val x)
  end.

(** [queue.LifoQueue()] with the default [maxsize=0]: an unbounded stack,
    newest entry first. *)
Abbreviation LifoQueue := list (only parsing).

Definition lifo_put {A : Type} (x : A) (q : LifoQueue A) : LifoQueue A * res unit :=
  (x :: q, Val tt).

Definition lifo_get {A : Type} (q : LifoQueue A) : LifoQueue A * res A :=
  match q with
  | [] => (q, Blocks)
  | x :: r => (r, Val x)
  end.

(** ** Actions and status tags *)

(** [Action.STAY], the four [Direction]s and [Action.INTERACT]. *)
Inductive Action : Type := STAY | NORTH | SOUTH | WEST | EAST | INTERACT.

(** [Game.Status] *)
Inductive Status : Type := DONE | ACTIVE | RESET | INACTIVE | ERROR.

(** [self.action_to_overcooked_action] *)
Definition action_to_overcooked_action (a : string) : option Action :=
  if decide (a = "STAY") then Some STAY
  else if decide (a = "UP") then Some NORTH
  else if decide (a = "DOWN") then Some SOUTH
  else if decide (a = "LEFT") then Some WEST
  else if decide (a = "RIGHT") then Some EAST
  else if decide (a = "SPACE") then Some INTERACT
  else None.

(** [Game.EMPTY] *)
Definition EMPTY : string := "EMPTY".

(** ** External collaborators *)

(** What the session engine takes from outside: the Overcooked gridworld
    (Environment Engine), the pickled agents under [AGENT_DIR] (Policy
    Provider), the wall clock and the configured [MAX_GAME_TIME].  A
    gridworld is identified by the layout name it is built from.  Times
    are in milliseconds (the source computes in float seconds). *)
Class Externals : Type := {
  State : Type;
  Agent : Type;
  get_standard_start_state : string -> State;
  get_state_transition : string -> State -> list Action -> State * list Z;
  agent_action : Agent -> State -> Action * Agent;
  agent_reset : Agent -> Agent;
  pickle_load : string -> option Agent;
  wall_clock : nat -> Z;
  MAX_GAME_TIME : Z
}.

(** The score is a Python number: an integer sum of rewards, which the
    tutorial compares with [float("inf")]. *)
Inductive num : Type := Fin (z : Z) | PInf.

Definition num_add (s : num) (r : Z) : num :=
  match s with Fin z => Fin (z + r) | PInf => PInf end.

Definition num_sub (s : num) (r : Z) : num :=
  match s with Fin z => Fin (z - r) | PInf => PInf end.

(** [s > 0] *)
Definition num_pos (s : num) : bool :=
  match s with Fin z => 0 <? z | PInf => true end.

(** [s >= float("inf")] *)
Definition num_ge_inf (s : num) : bool :=
  match s with Fin _ => false | PInf => true end.

Inductive GameKind : Type := OvercookedGame | OvercookedTutorial.

(** [list.index(x)] *)
Fixpoint index (x : string) (l : list string) : option nat :=
  match l with
  | [] => None
  | y :: l' => if decide (y = x) then Some 0%nat else S <$> index x l'
  end.

(** [l[i] = v], which raises [IndexError] out of range. *)
Definition list_assign {A : Type} (i : nat) (v : A) (l : list A) : option (list A) :=
  if decide (i < length l)%nat then Some (<[i := v]> l) else None.

(** Dictionaries whose iteration order is used are association lists. *)
Fixpoint alist_get {V : Type} (k : string) (d : list (string * V)) : option V :=
  match d with
  | [] => None
  | (k', v) :: d' => if decide (k' = k) then Some v else alist_get k d'
  end.

Fixpoint alist_set {V : Type} (k : string) (v : V) (d : list (string * V))
  : list (string * V) :=
  match d with
  | [] => [(k, v)]
  | (k', v') :: d' =>
      if decide (k' = k) then (k, v) :: d' else (k', v') :: alist_set k v d'
  end.

Definition sum_list (l : list Z) : Z := foldr Z.add 0 l.

(** [TutorialAI.COOK_SOUP_LOOP] *)
Definition COOK_SOUP_LOOP : list Action :=
  [ WEST; WEST; WEST; INTERACT;
    EAST; NORTH; INTERACT;
    WEST; INTERACT;
    EAST; NORTH; INTERACT;
    WEST; INTERACT;
    EAST; NORTH; INTERACT;
    INTERACT;
    EAST; SOUTH; INTERACT; WEST; NORTH;
    INTERACT; EAST; EAST; EAST; INTERACT; WEST ].

(** [TutorialAI.COOK_SOUP_COOP_LOOP] *)
Definition COOK_SOUP_COOP_LOOP : list Action :=
  [ WEST; WEST; WEST; INTERACT;
    EAST; SOUTH; INTERACT;
    EAST; EAST;
    STAY; STAY; STAY; STAY; STAY; STAY; STAY; STAY; STAY ].

Section Model.
Context {E : Externals}.

(** An agent object held in [npc_policies]: unpickled from [AGENT_DIR], or
    the hard-coded [TutorialAI] with its [curr_phase] and [curr_tick]. *)
Inductive Policy : Type :=
  | Pickled (a : Agent)
  | TutorialAI (phase tick : Z).

(** [policy.action(state)], with the agent object after the call *)
Definition policy_action (p : Policy) (s : State) : Action * Policy :=
  match p with
  | Pickled a => let (act, a') := agent_action a s in (act, Pickled a')
  | TutorialAI ph t =>
      let t' := t + 1 in
      if ph =? 0 then
        (nth (Z.to_nat (t' mod Z.of_nat (length COOK_SOUP_LOOP)))
             COOK_SOUP_LOOP STAY, TutorialAI ph t')
      else if ph =? 2 then
        (nth (Z.to_nat (t' mod Z.of_nat (length COOK_SOUP_COOP_LOOP)))
             COOK_SOUP_COOP_LOOP STAY, TutorialAI ph t')
      else (STAY, TutorialAI ph t')
  end.

(** [policy.reset()] *)
Definition policy_reset (p : Policy) : Policy :=
  match p with
  | Pickled a => Pickled (agent_reset a)
  | TutorialAI ph _ => TutorialAI (ph + 1) (-1)
  end.

(** One entry of [self.trajectory] (the serialised layout is left out). *)
Record Transition : Type := mkTransition {
  t_state : State;
  t_joint_action : list Action;
  t_reward : Z;
  t_time_left : Z;
  t_score : num;
  t_time_elapsed : Z;
  t_cur_gameloop : Z;
  t_layout_name : string;
  t_trial_id : Z;
  t_player_0_id : string;
  t_player_1_id : string;
  t_player_0_is_human : bool;
  t_player_1_is_human : bool
}.

(** ** The session object

    One record for the three classes; [kind] tells [OvercookedGame] from
    [OvercookedTutorial], whose extra attributes are the last three before
    [clock].  The display-only potential ([show_potential], [phi], [mp]),
    [mdp_params] and the lock are left out. *)
Record Game : Type := mkGame {
  id : nat;  (* [self.id] *)
  players : list string;  (* player ids, or [EMPTY] for a vacant slot *)
  spectators : gset string;
  pending_actions : list (option (Queue Action));  (* one queue per slot; [None] is the [EMPTY] marker *)
  _is_active : bool;
  kind : GameKind;  (* the class of the object *)
  max_players : Z;
  layouts : list string;
  curr_layout : option string;  (* [self.curr_layout]; [self.mdp] is the gridworld built from it *)
  state : option State;  (* [self.state], unset before the first [activate] *)
  score : num;
  max_time : Z;
  start_time : option Z;  (* [self.start_time], in milliseconds *)
  npc_policies : list (string * Policy);  (* dict, in insertion order *)
  npc_state_queues : gmap string (LifoQueue State);
  ticks_per_ai_action : Z;
  curr_tick : Z;
  human_players : gset string;
  npc_players : gset string;
  write_data : bool;
  trajectory : list Transition;
  threads : list string;  (* the worker threads started by [activate], by npc id *)
  curr_phase : Z;
  phase_two_score : Z;
  phase_two_finished : bool;
  clock : nat  (* model only: how many times [time()] was read so far *)
}.

(** Attribute assignment [self.f = v], one setter per mutated attribute. *)
Definition set_players (v : list string) (g : Game) : Game :=
  mkGame (g.(id)) v (g.(spectators)) (g.(pending_actions)) (g.(_is_active))
    (g.(kind)) (g.(max_players)) (g.(layouts)) (g.(curr_layout)) (g.(state))
    (g.(score)) (g.(max_time)) (g.(start_time)) (g.(npc_policies))
    (g.(npc_state_queues)) (g.(ticks_per_ai_action)) (g.(curr_tick))
    (g.(human_players)) (g.(npc_players)) (g.(write_data)) (g.(trajectory))
    (g.(threads)) (g.(curr_phase)) (g.(phase_two_score))
    (g.(phase_two_finished)) (g.(clock)).
Definition set_spectators (v : gset string) (g : Game) : Game :=
  mkGame (g.(id)) (g.(players)) v (g.(pending_actions)) (g.(_is_active))
    (g.(kind)) (g.(max_players)) (g.(layouts)) (g.(curr_layout)) (g.(state))
    (g.(score)) (g.(max_time)) (g.(start_time)) (g.(npc_policies))
    (g.(npc_state_queues)) (g.(ticks_per_ai_action)) (g.(curr_tick))
    (g.(human_players)) (g.(npc_players)) (g.(write_data)) (g.(trajectory))
    (g.(threads)) (g.(curr_phase)) (g.(phase_two_score))
    (g.(phase_two_finished)) (g.(clock)).
Definition set_pending_actions (v : list (option (Queue Action))) (g : Game) : Game :=
  mkGame (g.(id)) (g.(players)) (g.(spectators)) v (g.(_is_active)) (g.(kind))
    (g.(max_players)) (g.(layouts)) (g.(curr_layout)) (g.(state)) (g.(score))
    (g.(max_time)) (g.(start_time)) (g.(npc_policies)) (g.(npc_state_queues))
    (g.(ticks_per_ai_action)) (g.(curr_tick)) (g.(human_players))
    (g.(npc_players)) (g.(write_data)) (g.(trajectory)) (g.(threads))
    (g.(curr_phase)) (g.(phase_two_score)) (g.(phase_two_finished))
    (g.(clock)).
Definition set_is_active (v : bool) (g : Game) : Game :=
  mkGame (g.(id)) (g.(players)) (g.(spectators)) (g.(pending_actions)) v
    (g.(kind)) (g.(max_players)) (g.(layouts)) (g.(curr_layout)) (g.(state))
    (g.(score)) (g.(max_time)) (g.(start_time)) (g.(npc_policies))
    (g.(npc_state_queues)) (g.(ticks_per_ai_action)) (g.(curr_tick))
    (g.(human_players)) (g.(npc_players)) (g.(write_data)) (g.(trajectory))
    (g.(threads)) (g.(curr_phase)) (g.(phase_two_score))
    (g.(phase_two_finished)) (g.(clock)).
Definition set_max_players (v : Z) (g : Game) : Game :=
  mkGame (g.(id)) (g.(players)) (g.(spectators)) (g.(pending_actions))
    (g.(_is_active)) (g.(kind)) v (g.(layouts)) (g.(curr_layout)) (g.(state))
    (g.(score)) (g.(max_time)) (g.(start_time)) (g.(npc_policies))
    (g.(npc_state_queues)) (g.(ticks_per_ai_action)) (g.(curr_tick))
    (g.(human_players)) (g.(npc_players)) (g.(write_data)) (g.(trajectory))
    (g.(threads)) (g.(curr_phase)) (g.(phase_two_score))
    (g.(phase_two_finished)) (g.(clock)).
Definition set_layouts (v : list string) (g : Game) : Game :=
  mkGame (g.(id)) (g.(players)) (g.(spectators)) (g.(pending_actions))
    (g.(_is_active)) (g.(kind)) (g.(max_players)) v (g.(curr_layout))
    (g.(state)) (g.(score)) (g.(max_time)) (g.(start_time)) (g.(npc_policies))
    (g.(npc_state_queues)) (g.(ticks_per_ai_action)) (g.(curr_tick))
    (g.(human_players)) (g.(npc_players)) (g.(write_data)) (g.(trajectory))
    (g.(threads)) (g.(curr_phase)) (g.(phase_two_score))
    (g.(phase_two_finished)) (g.(clock)).
Definition set_curr_layout (v : option string) (g : Game) : Game :=
  mkGame (g.(id)) (g.(players)) (g.(spectators)) (g.(pending_actions))
    (g.(_is_active)) (g.(kind)) (g.(max_players)) (g.(layouts)) v (g.(state))
    (g.(score)) (g.(max_time)) (g.(start_time)) (g.(npc_policies))
    (g.(npc_state_queues)) (g.(ticks_per_ai_action)) (g.(curr_tick))
    (g.(human_players)) (g.(npc_players)) (g.(write_data)) (g.(trajectory))
    (g.(threads)) (g.(curr_phase)) (g.(phase_two_score))
    (g.(phase_two_finished)) (g.(clock)).
Definition set_state (v : option State) (g : Game) : Game :=
  mkGame (g.(id)) (g.(players)) (g.(spectators)) (g.(pending_actions))
    (g.(_is_active)) (g.(kind)) (g.(max_players)) (g.(layouts))
    (g.(curr_layout)) v (g.(score)) (g.(max_time)) (g.(start_time))
    (g.(npc_policies)) (g.(npc_state_queues)) (g.(ticks_per_ai_action))
    (g.(curr_tick)) (g.(human_players)) (g.(npc_players)) (g.(write_data))
    (g.(trajectory)) (g.(threads)) (g.(curr_phase)) (g.(phase_two_score))
    (g.(phase_two_finished)) (g.(clock)).
Definition set_score (v : num) (g : Game) : Game :=
  mkGame (g.(id)) (g.(players)) (g.(spectators)) (g.(pending_actions))
    (g.(_is_active)) (g.(kind)) (g.(max_players)) (g.(layouts))
    (g.(curr_layout)) (g.(state)) v (g.(max_time)) (g.(start_time))
    (g.(npc_policies)) (g.(npc_state_queues)) (g.(ticks_per_ai_action))
    (g.(curr_tick)) (g.(human_players)) (g.(npc_players)) (g.(write_data))
    (g.(trajectory)) (g.(threads)) (g.(curr_phase)) (g.(phase_two_score))
    (g.(phase_two_finished)) (g.(clock)).
Definition set_max_time (v : Z) (g : Game) : Game :=
  mkGame (g.(id)) (g.(players)) (g.(spectators)) (g.(pending_actions))
    (g.(_is_active)) (g.(kind)) (g.(max_players)) (g.(layouts))
    (g.(curr_layout)) (g.(state)) (g.(score)) v (g.(start_time))
    (g.(npc_policies)) (g.(npc_state_queues)) (g.(ticks_per_ai_action))
    (g.(curr_tick)) (g.(human_players)) (g.(npc_players)) (g.(write_data))
    (g.(trajectory)) (g.(threads)) (g.(curr_phase)) (g.(phase_two_score))
    (g.(phase_two_finished)) (g.(clock)).
Definition set_start_time (v : option Z) (g : Game) : Game :=
  mkGame (g.(id)) (g.(players)) (g.(spectators)) (g.(pending_actions))
    (g.(_is_active)) (g.(kind)) (g.(max_players)) (g.(layouts))
    (g.(curr_layout)) (g.(state)) (g.(score)) (g.(max_time)) v
    (g.(npc_policies)) (g.(npc_state_queues)) (g.(ticks_per_ai_action))
    (g.(curr_tick)) (g.(human_players)) (g.(npc_players)) (g.(write_data))
    (g.(trajectory)) (g.(threads)) (g.(curr_phase)) (g.(phase_two_score))
    (g.(phase_two_finished)) (g.(clock)).
Definition set_npc_policies (v : list (string * Policy)) (g : Game) : Game :=
  mkGame (g.(id)) (g.(players)) (g.(spectators)) (g.(pending_actions))
    (g.(_is_active)) (g.(kind)) (g.(max_players)) (g.(layouts))
    (g.(curr_layout)) (g.(state)) (g.(score)) (g.(max_time)) (g.(start_time))
    v (g.(npc_state_queues)) (g.(ticks_per_ai_action)) (g.(curr_tick))
    (g.(human_players)) (g.(npc_players)) (g.(write_data)) (g.(trajectory))
    (g.(threads)) (g.(curr_phase)) (g.(phase_two_score))
    (g.(phase_two_finished)) (g.(clock)).
Definition set_npc_state_queues (v : gmap string (LifoQueue State)) (g : Game) : Game :=
  mkGame (g.(id)) (g.(players)) (g.(spectators)) (g.(pending_actions))
    (g.(_is_active)) (g.(kind)) (g.(max_players)) (g.(layouts))
    (g.(curr_layout)) (g.(state)) (g.(score)) (g.(max_time)) (g.(start_time))
    (g.(npc_policies)) v (g.(ticks_per_ai_action)) (g.(curr_tick))
    (g.(human_players)) (g.(npc_players)) (g.(write_data)) (g.(trajectory))
    (g.(threads)) (g.(curr_phase)) (g.(phase_two_score))
    (g.(phase_two_finished)) (g.(clock)).
Definition set_ticks_per_ai_action (v : Z) (g : Game) : Game :=
  mkGame (g.(id)) (g.(players)) (g.(spectators)) (g.(pending_actions))
    (g.(_is_active)) (g.(kind)) (g.(max_players)) (g.(layouts))
    (g.(curr_layout)) (g.(state)) (g.(score)) (g.(max_time)) (g.(start_time))
    (g.(npc_policies)) (g.(npc_state_queues)) v (g.(curr_tick))
    (g.(human_players)) (g.(npc_players)) (g.(write_data)) (g.(trajectory))
    (g.(threads)) (g.(curr_phase)) (g.(phase_two_score))
    (g.(phase_two_finished)) (g.(clock)).
Definition set_curr_tick (v : Z) (g : Game) : Game :=
  mkGame (g.(id)) (g.(players)) (g.(spectators)) (g.(pending_actions))
    (g.(_is_active)) (g.(kind)) (g.(max_players)) (g.(layouts))
    (g.(curr_layout)) (g.(state)) (g.(score)) (g.(max_time)) (g.(start_time))
    (g.(npc_policies)) (g.(npc_state_queues)) (g.(ticks_per_ai_action)) v
    (g.(human_players)) (g.(npc_players)) (g.(write_data)) (g.(trajectory))
    (g.(threads)) (g.(curr_phase)) (g.(phase_two_score))
    (g.(phase_two_finished)) (g.(clock)).
Definition set_human_players (v : gset string) (g : Game) : Game :=
  mkGame (g.(id)) (g.(players)) (g.(spectators)) (g.(pending_actions))
    (g.(_is_active)) (g.(kind)) (g.(max_players)) (g.(layouts))
    (g.(curr_layout)) (g.(state)) (g.(score)) (g.(max_time)) (g.(start_time))
    (g.(npc_policies)) (g.(npc_state_queues)) (g.(ticks_per_ai_action))
    (g.(curr_tick)) v (g.(npc_players)) (g.(write_data)) (g.(trajectory))
    (g.(threads)) (g.(curr_phase)) (g.(phase_two_score))
    (g.(phase_two_finished)) (g.(clock)).
Definition set_npc_players (v : gset string) (g : Game) : Game :=
  mkGame (g.(id)) (g.(players)) (g.(spectators)) (g.(pending_actions))
    (g.(_is_active)) (g.(kind)) (g.(max_players)) (g.(layouts))
    (g.(curr_layout)) (g.(state)) (g.(score)) (g.(max_time)) (g.(start_time))
    (g.(npc_policies)) (g.(npc_state_queues)) (g.(ticks_per_ai_action))
    (g.(curr_tick)) (g.(human_players)) v (g.(write_data)) (g.(trajectory))
    (g.(threads)) (g.(curr_phase)) (g.(phase_two_score))
    (g.(phase_two_finished)) (g.(clock)).
Definition set_write_data (v : bool) (g : Game) : Game :=
  mkGame (g.(id)) (g.(players)) (g.(spectators)) (g.(pending_actions))
    (g.(_is_active)) (g.(kind)) (g.(max_players)) (g.(layouts))
    (g.(curr_layout)) (g.(state)) (g.(score)) (g.(max_time)) (g.(start_time))
    (g.(npc_policies)) (g.(npc_state_queues)) (g.(ticks_per_ai_action))
    (g.(curr_tick)) (g.(human_players)) (g.(npc_players)) v (g.(trajectory))
    (g.(threads)) (g.(curr_phase)) (g.(phase_two_score))
    (g.(phase_two_finished)) (g.(clock)).
Definition set_trajectory (v : list Transition) (g : Game) : Game :=
  mkGame (g.(id)) (g.(players)) (g.(spectators)) (g.(pending_actions))
    (g.(_is_active)) (g.(kind)) (g.(max_players)) (g.(layouts))
    (g.(curr_layout)) (g.(state)) (g.(score)) (g.(max_time)) (g.(start_time))
    (g.(npc_policies)) (g.(npc_state_queues)) (g.(ticks_per_ai_action))
    (g.(curr_tick)) (g.(human_players)) (g.(npc_players)) (g.(write_data)) v
    (g.(threads)) (g.(curr_phase)) (g.(phase_two_score))
    (g.(phase_two_finished)) (g.(clock)).
Definition set_threads (v : list string) (g : Game) : Game :=
  mkGame (g.(id)) (g.(players)) (g.(spectators)) (g.(pending_actions))
    (g.(_is_active)) (g.(kind)) (g.(max_players)) (g.(layouts))
    (g.(curr_layout)) (g.(state)) (g.(score)) (g.(max_time)) (g.(start_time))
    (g.(npc_policies)) (g.(npc_state_queues)) (g.(ticks_per_ai_action))
    (g.(curr_tick)) (g.(human_players)) (g.(npc_players)) (g.(write_data))
    (g.(trajectory)) v (g.(curr_phase)) (g.(phase_two_score))
    (g.(phase_two_finished)) (g.(clock)).
Definition set_curr_phase (v : Z) (g : Game) : Game :=
  mkGame (g.(id)) (g.(players)) (g.(spectators)) (g.(pending_actions))
    (g.(_is_active)) (g.(kind)) (g.(max_players)) (g.(layouts))
    (g.(curr_layout)) (g.(state)) (g.(score)) (g.(max_time)) (g.(start_time))
    (g.(npc_policies)) (g.(npc_state_queues)) (g.(ticks_per_ai_action))
    (g.(curr_tick)) (g.(human_players)) (g.(npc_players)) (g.(write_data))
    (g.(trajectory)) (g.(threads)) v (g.(phase_two_score))
    (g.(phase_two_finished)) (g.(clock)).
Definition set_phase_two_score (v : Z) (g : Game) : Game :=
  mkGame (g.(id)) (g.(players)) (g.(spectators)) (g.(pending_actions))
    (g.(_is_active)) (g.(kind)) (g.(max_players)) (g.(layouts))
    (g.(curr_layout)) (g.(state)) (g.(score)) (g.(max_time)) (g.(start_time))
    (g.(npc_policies)) (g.(npc_state_queues)) (g.(ticks_per_ai_action))
    (g.(curr_tick)) (g.(human_players)) (g.(npc_players)) (g.(write_data))
    (g.(trajectory)) (g.(threads)) (g.(curr_phase)) v (g.(phase_two_finished))
    (g.(clock)).
Definition set_phase_two_finished (v : bool) (g : Game) : Game :=
  mkGame (g.(id)) (g.(players)) (g.(spectators)) (g.(pending_actions))
    (g.(_is_active)) (g.(kind)) (g.(max_players)) (g.(layouts))
    (g.(curr_layout)) (g.(state)) (g.(score)) (g.(max_time)) (g.(start_time))
    (g.(npc_policies)) (g.(npc_state_queues)) (g.(ticks_per_ai_action))
    (g.(curr_tick)) (g.(human_players)) (g.(npc_players)) (g.(write_data))
    (g.(trajectory)) (g.(threads)) (g.(curr_phase)) (g.(phase_two_score)) v
    (g.(clock)).
Definition set_clock (v : nat) (g : Game) : Game :=
  mkGame (g.(id)) (g.(players)) (g.(spectators)) (g.(pending_actions))
    (g.(_is_active)) (g.(kind)) (g.(max_players)) (g.(layouts))
    (g.(curr_layout)) (g.(state)) (g.(score)) (g.(max_time)) (g.(start_time))
    (g.(npc_policies)) (g.(npc_state_queues)) (g.(ticks_per_ai_action))
    (g.(curr_tick)) (g.(human_players)) (g.(npc_players)) (g.(write_data))
    (g.(trajectory)) (g.(threads)) (g.(curr_phase)) (g.(phase_two_score))
    (g.(phase_two_finished)) v.

(** ** game.py: class Game *)

(** [time()]: the next reading of the wall clock. *)
Definition time : Py Game Z :=
  fun g => (set_clock (S (clock g)) g, Val (wall_clock (clock g))).

(** Reading an attribute that may not have been assigned yet. *)
Definition attr {A : Type} (f : Game -> option A) : Py Game A :=
  fun g => lookup_or AttributeError (f g) g.

(** [Game.num_players]: how many slots are not [EMPTY]. *)
Definition num_players (g : Game) : nat :=
  length (filter (fun p => p ≠ EMPTY) (players g)).

(** [OvercookedGame.is_full] (abstract in [Game]) *)
Definition is_full (g : Game) : bool :=
  max_players g <=? Z.of_nat (num_players g).

(** [Game.is_ready] *)
Definition Game_is_ready (g : Game) : bool := is_full g.

(** [Game.is_empty]: [not self.num_players] *)
Definition Game_is_empty (g : Game) : bool := Nat.eqb (num_players g) 0.

(** [Game.reset_timeout] and its override in [OvercookedTutorial] *)
Definition reset_timeout (g : Game) : Z :=
  match kind g with OvercookedGame => 3000 | OvercookedTutorial => 1 end.

(** [self.pending_actions[i].<op>]: a queue operation on slot [i]. *)
Definition on_queue {A : Type} (i : nat)
    (op : Queue Action -> Queue Action * res A) : Py Game A :=
  fun g =>
    match pending_actions g !! i with
    | None => (g, Exc IndexError)
    | Some None => (g, Exc AttributeError)
    | Some (Some q) =>
        let (q', r) := op q in
        (set_pending_actions (<[i := Some q']> (pending_actions g)) g, r)
    end.

(** [Game.enqueue_action] *)
Definition Game_enqueue_action (player_id : string) (action : Action)
  : Py Game unit :=
  active <- gets _is_active ;;
  if negb active then ret tt
  else
    ps <- gets players ;;
    if negb (bool_decide (player_id ∈ ps)) then ret tt
    else
      try_except
        (player_idx <- lookup_or (ValueError "not in list") (index player_id ps) ;;
         on_queue player_idx (put action))
        (fun e => match e with Full => Some (ret tt) | _ => None end).

(** [Game.add_player]; [idx] is [None] or an index, and [not idx] holds
    for [None] and for [0]. *)
Definition Game_add_player (player_id : string) (idx : option nat)
    (buff_size : Z) : Py Game unit :=
  full <- gets is_full ;;
  if full then raise (ValueError "Cannot add players to full game")
  else
    active <- gets _is_active ;;
    if active then raise (ValueError "Cannot add players to active games")
    else
      ps <- gets players ;;
      let not_idx := match idx with None | Some O => true | _ => false end in
      let idx' :=
        if not_idx then
          match index EMPTY ps with
          | Some i => i
          | None => length ps
          end
        else default 0%nat idx in
      let padding := (idx' + 1 - length ps)%nat in
      modify (fun g => set_players (players g ++ replicate padding EMPTY) g) ;;;
      modify (fun g =>
        set_pending_actions (pending_actions g ++ replicate padding None) g) ;;;
      ps' <- gets players ;;
      ps'' <- lookup_or IndexError (list_assign idx' player_id ps') ;;
      modify (set_players ps'') ;;;
      pa <- gets pending_actions ;;
      pa' <- lookup_or IndexError
               (list_assign idx' (Some (mkQueue buff_size [])) pa) ;;
      modify (set_pending_actions pa').

(** [Game.add_spectator] *)
Definition add_spectator (spectator_id : string) : Py Game unit :=
  ps <- gets players ;;
  if bool_decide (spectator_id ∈ ps)
  then raise (ValueError "Cannot spectate and play at same time")
  else modify (fun g => set_spectators (spectators g ∪ {[spectator_id]}) g).

(** [Game.remove_player] *)
Definition Game_remove_player (player_id : string) : Py Game bool :=
  ps <- gets players ;;
  match index player_id ps with
  | None => ret false
  | Some idx =>
      modify (set_players (<[idx := EMPTY]> ps)) ;;;
      pa <- gets pending_actions ;;
      pa' <- lookup_or IndexError (list_assign idx None pa) ;;
      modify (set_pending_actions pa') ;;;
      ret true
  end.

(** [Game.remove_spectator]: [set.remove] raises [KeyError], which the
    [except ValueError] of the source does not catch. *)
Definition remove_spectator (spectator_id : string) : Py Game bool :=
  sp <- gets spectators ;;
  if bool_decide (spectator_id ∈ sp)
  then modify (set_spectators (sp ∖ {[spectator_id]})) ;;; ret true
  else raise KeyError.

(** The body of the loop of [Game.clear_pending_actions]. *)
Definition clear_slot (i : nat) : Py Game unit :=
  ps <- gets players ;;
  player <- lookup_or IndexError (ps !! i) ;;
  if bool_decide (player ≠ EMPTY)
  then on_queue i (fun q => (mkQueue (maxsize q) [], Val tt))
  else ret tt.

(** [Game.clear_pending_actions] *)
Definition clear_pending_actions : Py Game unit :=
  n <- gets (fun g => length (players g)) ;;
  for_each (seq 0 n) clear_slot.

(** ** game.py: class OvercookedGame and class OvercookedTutorial *)

(** [OvercookedGame._curr_game_over], on whole milliseconds where the
    source compares float seconds. *)
Definition _curr_game_over : Py Game bool :=
  now <- time ;;
  start <- attr start_time ;;
  limit <- gets max_time ;;
  ret (1000 * limit <=? now - start).

(** [OvercookedGame.is_finished] *)
Definition OvercookedGame_is_finished : Py Game bool :=
  ls <- gets layouts ;;
  match ls with
  | [] => _curr_game_over
  | _ :: _ => ret false
  end.

(** [OvercookedTutorial.is_finished] *)
Definition OvercookedTutorial_is_finished : Py Game bool :=
  ls <- gets layouts ;;
  match ls with
  | [] => s <- gets score ;; ret (num_ge_inf s)
  | _ :: _ => ret false
  end.

(** [self.is_finished()] *)
Definition is_finished : Py Game bool :=
  fun g =>
    match kind g with
    | OvercookedGame => OvercookedGame_is_finished g
    | OvercookedTutorial => OvercookedTutorial_is_finished g
    end.

(** [OvercookedGame.needs_reset] *)
Definition OvercookedGame_needs_reset : Py Game bool :=
  over <- _curr_game_over ;;
  if over then fin <- is_finished ;; ret (negb fin) else ret false.

(** [OvercookedTutorial.needs_reset] *)
Definition OvercookedTutorial_needs_reset : Py Game bool :=
  ph <- gets curr_phase ;;
  if ph =? 0 then s <- gets score ;; ret (num_pos s)
  else if ph =? 1 then s <- gets score ;; ret (num_pos s)
  else if ph =? 2 then gets phase_two_finished
  else ret false.

(** [self.needs_reset()] *)
Definition needs_reset : Py Game bool :=
  fun g =>
    match kind g with
    | OvercookedGame => OvercookedGame_needs_reset g
    | OvercookedTutorial => OvercookedTutorial_needs_reset g
    end.

(** [OvercookedGame.add_player] *)
Definition add_player (player_id : string) (idx : option nat) (buff_size : Z)
    (is_human : bool) : Py Game unit :=
  Game_add_player player_id idx buff_size ;;;
  if is_human
  then modify (fun g => set_human_players (human_players g ∪ {[player_id]}) g)
  else modify (fun g => set_npc_players (npc_players g ∪ {[player_id]}) g).

(** [OvercookedGame.remove_player] *)
Definition remove_player (player_id : string) : Py Game unit :=
  removed <- Game_remove_player player_id ;;
  if removed then
    hs <- gets human_players ;;
    if bool_decide (player_id ∈ hs)
    then modify (set_human_players (hs ∖ {[player_id]}))
    else
      ns <- gets npc_players ;;
      if bool_decide (player_id ∈ ns)
      then modify (set_npc_players (ns ∖ {[player_id]}))
      else raise (ValueError "Inconsistent state")
  else ret tt.

(** [OvercookedGame.is_empty]: in Python, [a or b and c] is
    [a or (b and c)]. *)
Definition is_empty (g : Game) : bool :=
  Game_is_empty g
  || (bool_decide (spectators g = ∅) && bool_decide (human_players g = ∅)).

(** [OvercookedGame.is_ready] *)
Definition is_ready (g : Game) : bool := Game_is_ready g && negb (is_empty g).

(** [OvercookedGame.enqueue_action]: the client's key name is translated
    first, whatever the state of the session. *)
Definition enqueue_action (player_id : string) (action : string)
  : Py Game unit :=
  overcooked_action <- lookup_or KeyError (action_to_overcooked_action action) ;;
  Game_enqueue_action player_id overcooked_action.

(** [self.npc_state_queues[npc_id].put(state)] *)
Definition push_state (npc_id : string) (s : State) : Py Game unit :=
  fun g =>
    match npc_state_queues g !! npc_id with
    | None => (g, Exc KeyError)
    | Some q =>
        let (q', r) := lifo_put s q in
        (set_npc_state_queues (<[npc_id := q']> (npc_state_queues g)) g, r)
    end.

(** The keys of [self.npc_policies], in iteration order. *)
Definition npc_ids (g : Game) : list string := (npc_policies g).*1.

(** [OvercookedGame.activate].  Starting a worker thread is recorded in
    [threads]; what a worker does is [npc_policy_consumer] below. *)
Definition activate : Py Game unit :=
  modify (set_is_active true) ;;;
  consistent <- gets (fun g =>
    bool_decide (npc_players g ∪ human_players g = list_to_set (players g))) ;;
  if negb consistent then raise (ValueError "Inconsistent State")
  else
    ls <- gets layouts ;;
    layout <- lookup_or IndexError (last ls) ;;
    modify (set_layouts (removelast ls)) ;;;
    modify (set_curr_layout (Some layout)) ;;;
    modify (set_state (Some (get_standard_start_state layout))) ;;;
    now <- time ;;
    modify (set_start_time (Some now)) ;;;
    modify (set_curr_tick 0) ;;;
    modify (set_score (Fin 0)) ;;;
    modify (set_threads []) ;;;
    ids <- gets npc_ids ;;
    for_each ids (fun npc_policy =>
      pols <- gets npc_policies ;;
      pol <- lookup_or KeyError (alist_get npc_policy pols) ;;
      modify (set_npc_policies (alist_set npc_policy (policy_reset pol) pols)) ;;;
      qs <- gets npc_state_queues ;;
      _ <- lookup_or KeyError (qs !! npc_policy) ;;
      s <- attr state ;;
      push_state npc_policy s ;;;
      modify (fun g => set_threads (threads g ++ [npc_policy]) g)).

(** [OvercookedGame.deactivate].  [t.join()] waits for the workers and
    changes nothing by itself; the steps the workers take before they exit
    are steps of [npc_policy_consumer].  A worker that is blocked in [put]
    on a full action queue never exits, and the source then does not
    return from [join]: this is the [deactivate] of a session whose
    workers exit. *)
Definition deactivate : Py Game unit :=
  modify (set_is_active false) ;;;
  ids <- gets npc_ids ;;
  for_each ids (fun npc_policy =>
    qs <- gets npc_state_queues ;;
    _ <- lookup_or KeyError (qs !! npc_policy) ;;
    s <- attr state ;;
    push_state npc_policy s) ;;;
  clear_pending_actions.

(** [Game.reset] *)
Definition Game_reset : Py Game Status :=
  active <- gets _is_active ;;
  if negb active then raise (ValueError "Inactive Games cannot be reset")
  else
    fin <- is_finished ;;
    if fin then ret DONE
    else deactivate ;;; activate ;;; ret RESET.

(** [OvercookedGame.reset]: [reset_timeout / 1000] seconds are
    [reset_timeout] milliseconds. *)
Definition OvercookedGame_reset : Py Game unit :=
  status <- Game_reset ;;
  match status with
  | RESET =>
      start <- attr start_time ;;
      timeout <- gets reset_timeout ;;
      modify (set_start_time (Some (start + timeout)))
  | _ => ret tt
  end.

(** [OvercookedTutorial.reset] *)
Definition OvercookedTutorial_reset : Py Game unit :=
  OvercookedGame_reset ;;;
  modify (fun g => set_curr_phase (curr_phase g + 1) g).

(** [self.reset()] *)
Definition reset : Py Game unit :=
  fun g =>
    match kind g with
    | OvercookedGame => OvercookedGame_reset g
    | OvercookedTutorial => OvercookedTutorial_reset g
    end.

(** The body of the first loop of [OvercookedGame.apply_actions], for
    slot [i]: a human's queue is read without blocking, any other slot's
    queue is read with [block=True]. *)
Definition take_action (i : nat) (joint_action : list Action)
  : Py Game (list Action) :=
  ps <- gets players ;;
  player <- lookup_or IndexError (ps !! i) ;;
  hs <- gets human_players ;;
  if bool_decide (player ∈ hs) then
    try_except
      (a <- on_queue i get_nowait ;; ret (<[i := a]> joint_action))
      (fun e => match e with Empty => Some (ret joint_action) | _ => None end)
  else
    a <- on_queue i get ;; ret (<[i := a]> joint_action).

Fixpoint take_actions (idxs : list nat) (joint_action : list Action)
  : Py Game (list Action) :=
  match idxs with
  | [] => ret joint_action
  | i :: idxs' => ja <- take_action i joint_action ;; take_actions idxs' ja
  end.

(** [joint_action = [Action.STAY] * len(self.players)] and the loop that
    fills it. *)
Definition assemble_joint_action : Py Game (list Action) :=
  n <- gets (fun g => length (players g)) ;;
  take_actions (seq 0 n) (replicate n STAY).

(** The block of [apply_actions] that sends the new state to the
    background consumers, every [ticks_per_ai_action] ticks. *)
Definition send_state (new_state : State) : Py Game unit :=
  tick_no <- gets curr_tick ;;
  per <- gets ticks_per_ai_action ;;
  if per =? 0 then raise ZeroDivisionError
  else if tick_no mod per =? 0 then
    ids <- gets npc_ids ;;
    for_each ids (fun npc_id => push_state npc_id new_state)
  else ret tt.

(** The block of [apply_actions] that appends to [self.trajectory]; the
    entries of the dictionary are evaluated in the order of the source. *)
Definition record_transition (prev_state : State) (joint_action : list Action)
    (curr_reward : Z) : Py Game unit :=
  limit <- gets max_time ;;
  now1 <- time ;;
  start1 <- attr start_time ;;
  sc <- gets score ;;
  now2 <- time ;;
  start2 <- attr start_time ;;
  tick_no <- gets curr_tick ;;
  layout_name <- attr curr_layout ;;
  trial <- attr start_time ;;
  ps <- gets players ;;
  hs <- gets human_players ;;
  p0 <- lookup_or IndexError (ps !! 0%nat) ;;
  p1 <- lookup_or IndexError (ps !! 1%nat) ;;
  modify (fun g => set_trajectory (trajectory g ++
    [mkTransition prev_state joint_action curr_reward
       (Z.max (1000 * limit - (now1 - start1)) 0) sc (now2 - start2)
       tick_no layout_name trial p0 p1
       (bool_decide (p0 ∈ hs)) (bool_decide (p1 ∈ hs))]) g).

(** [OvercookedGame.apply_actions]; the result is
    [(prev_state, joint_action, info["sparse_reward_by_agent"])]. *)
Definition OvercookedGame_apply_actions
  : Py Game (State * list Action * list Z) :=
  joint_action <- assemble_joint_action ;;
  prev_state <- attr state ;;
  layout <- attr curr_layout ;;
  let transition := get_state_transition layout prev_state joint_action in
  modify (set_state (Some (fst transition))) ;;;
  send_state (fst transition) ;;;
  let curr_reward := sum_list (snd transition) in
  modify (fun g => set_score (num_add (score g) curr_reward) g) ;;;
  record_transition prev_state joint_action curr_reward ;;;
  ret (prev_state, joint_action, snd transition).

(** [OvercookedTutorial.apply_actions] *)
Definition OvercookedTutorial_apply_actions : Py Game unit :=
  r <- OvercookedGame_apply_actions ;;
  match snd r with
  | [human_reward; ai_reward] =>
      modify (fun g => set_score (num_sub (score g) ai_reward) g) ;;;
      ph <- gets curr_phase ;;
      if ph =? 2 then
        modify (set_score (Fin 0)) ;;;
        goal <- gets phase_two_score ;;
        if human_reward =? goal then modify (set_phase_two_finished true)
        else ret tt
      else ret tt
  | _ => raise (ValueError "not enough values to unpack")
  end.

(** [self.apply_actions()], as [Game.tick] calls it (result dropped) *)
Definition apply_actions : Py Game unit :=
  fun g =>
    match kind g with
    | OvercookedGame => (OvercookedGame_apply_actions ;;; ret tt) g
    | OvercookedTutorial => OvercookedTutorial_apply_actions g
    end.

(** [Game.tick] *)
Definition Game_tick : Py Game Status :=
  active <- gets _is_active ;;
  if negb active then ret INACTIVE
  else
    nr <- needs_reset ;;
    if nr then reset ;;; ret RESET
    else
      apply_actions ;;;
      fin <- is_finished ;;
      ret (if fin then DONE else ACTIVE).

(** [OvercookedGame.tick] *)
Definition tick : Py Game Status :=
  modify (fun g => set_curr_tick (curr_tick g + 1) g) ;;;
  Game_tick.

(** [state = queue.get()] on the state channel of [policy_id] *)
Definition pop_state (policy_id : string) : Py Game State :=
  fun g =>
    match npc_state_queues g !! policy_id with
    | None => (g, Exc KeyError)
    | Some q =>
        let (q', r) := lifo_get q in
        (set_npc_state_queues (<[policy_id := q']> (npc_state_queues g)) g, r)
    end.

(** The body of the [while] loop of [OvercookedGame.npc_policy_consumer]:
    one state is taken from the channel, the policy is asked, its action
    goes through [Game.enqueue_action]. *)
Definition npc_policy_consumer_body (policy_id : string) : Py Game unit :=
  s <- pop_state policy_id ;;
  pols <- gets npc_policies ;;
  pol <- lookup_or KeyError (alist_get policy_id pols) ;;
  let (npc_action, pol') := policy_action pol s in
  modify (set_npc_policies (alist_set policy_id pol' pols)) ;;;
  Game_enqueue_action policy_id npc_action.

(** [while self._is_active: ...], run alone for at most [fuel] rounds;
    [None] when the rounds are used up. *)
Fixpoint consumer_loop (fuel : nat) (policy_id : string) (g : Game)
  : option (Game * res unit) :=
  match fuel with
  | O => None
  | S fuel' =>
      if _is_active g then
        match npc_policy_consumer_body policy_id g with
        | (g', Val _) => consumer_loop fuel' policy_id g'
        | r => Some r
        end
      else Some (g, Val tt)
  end.

(** [OvercookedGame.npc_policy_consumer] *)
Definition npc_policy_consumer (fuel : nat) (policy_id : string) (g : Game)
  : option (Game * res unit) :=
  match npc_state_queues g !! policy_id, alist_get policy_id (npc_policies g) with
  | Some _, Some _ => consumer_loop fuel policy_id g
  | _, _ => Some (g, Exc KeyError)
  end.

(** [OvercookedGame.get_data]: the trajectory is handed over and cleared;
    writing [result.pkl] needs [self.curr_layout]. *)
Definition get_data : Py Game (list Transition) :=
  _ <- time ;;
  data <- gets trajectory ;;
  modify (set_trajectory []) ;;;
  wd <- gets write_data ;;
  (if wd && negb (bool_decide (data = [])) then _ <- attr curr_layout ;; ret tt
   else ret tt) ;;;
  ret data.


(** ** Construction *)

(** The keyword arguments of a create request, defaults filled in. *)
Record Params : Type := mkParams {
  p_layouts : list string;
  p_num_players : Z;
  p_gameTime : Z;
  p_playerZero : string;
  p_playerOne : string;
  p_ticks_per_ai_action : Z;
  p_dataCollection : bool;
  p_phaseTwoScore : Z
}.

(** [Game.__init__], with the attributes of the subclasses at the values
    their constructors start from. *)
Definition Game_init (k : GameKind) (game_id : nat) : Game :=
  mkGame game_id [] ∅ [] false k 0 [] None None (Fin 0) 0 None [] ∅ 1 0 ∅ ∅
    false [] [] 0 0 false 0%nat.

(** [OvercookedGame.get_policy] and its override in [OvercookedTutorial]
    ([TutorialAI()] starts at phase and tick [-1]).  The message of the
    [IOError] is given up to the repr of the underlying exception, which
    the source appends on a second line. *)
Definition get_policy (npc_id : string) : Py Game Policy :=
  fun g =>
    match kind g with
    | OvercookedGame =>
        match pickle_load npc_id with
        | Some a => (g, Val (Pickled a))
        | None => (g, Exc (IOError "Error loading agent"))
        end
    | OvercookedTutorial => (g, Val (TutorialAI (-1) (-1)))
    end.

(** The two [if player... != "human"] blocks of [OvercookedGame.__init__] *)
Definition init_npc (player : string) (suffix : string) (idx : nat)
  : Py Game unit :=
  if bool_decide (player ≠ "human") then
    let player_id := player +:+ suffix in
    add_player player_id (Some idx) 1 false ;;;
    pol <- get_policy player ;;
    modify (fun g => set_npc_policies (alist_set player_id pol (npc_policies g)) g) ;;;
    modify (fun g =>
      set_npc_state_queues (<[player_id := []]> (npc_state_queues g)) g)
  else ret tt.

(** [OvercookedGame.__init__] ([randomized] off) *)
Definition OvercookedGame_init (p : Params) : Py Game unit :=
  modify (set_layouts (p_layouts p)) ;;;
  modify (set_max_players (p_num_players p)) ;;;
  modify (set_score (Fin 0)) ;;;
  modify (set_max_time (Z.min (p_gameTime p) MAX_GAME_TIME)) ;;;
  modify (set_ticks_per_ai_action (p_ticks_per_ai_action p)) ;;;
  modify (set_curr_tick 0) ;;;
  init_npc (p_playerZero p) "_0" 0 ;;;
  init_npc (p_playerOne p) "_1" 1 ;;;
  modify (set_write_data (p_dataCollection p)) ;;;
  modify (set_trajectory []).

(** [OvercookedTutorial.__init__] *)
Definition OvercookedTutorial_init (p : Params) : Py Game unit :=
  OvercookedGame_init p ;;;
  modify (set_phase_two_score (p_phaseTwoScore p)) ;;;
  modify (set_phase_two_finished false) ;;;
  modify (set_max_time 0) ;;;
  modify (set_max_players 2) ;;;
  modify (set_ticks_per_ai_action 1) ;;;
  modify (set_curr_phase 0) ;;;
  modify (set_write_data false).

(** [game_cls(id=curr_id, **kwargs)]: the new object, or the exception
    that ends the construction. *)
Definition new_game (game_cls : GameKind) (game_id : nat) (p : Params)
  : res Game :=
  let init := match game_cls with
              | OvercookedGame => OvercookedGame_init p
              | OvercookedTutorial => OvercookedTutorial_init p
              end in
  match init (Game_init game_cls game_id) with
  | (g, Val _) => Val g
  | (_, Exc e) => Exc e
  | (_, Blocks) => Blocks
  end.

(** ** app.py: the registries *)

(** What the server sends or asks of socket.io, in order. *)
Inductive SocketCall : Type :=
  | emit_creation_failed (error : exn)
  | emit_waiting (in_game : bool) (room : option nat)
  | emit_start_game (spectating : bool) (room : nat)
  | emit_end_game (status : Status) (room : nat)
  | join_room (user_id : string) (room : nat)
  | leave_room (user_id : string) (room : nat)
  | close_room (room : nat)
  | start_background_task (game_id : nat).

(** The module-level state: [FREE_IDS], [FREE_MAP], [GAMES],
    [ACTIVE_GAMES], [WAITING_GAMES], [USER_ROOMS].  Session objects live
    in [GAMES], under their id.  The per-user locks of [USERS] are left
    out. *)
Record World : Type := mkWorld {
  FREE_IDS : Queue nat;
  FREE_MAP : gmap nat bool;
  GAMES : gmap nat Game;
  ACTIVE_GAMES : gset nat;
  WAITING_GAMES : Queue nat;
  USER_ROOMS : gmap string nat;
  socketio : list SocketCall
}.

Definition set_FREE_IDS (v : Queue nat) (w : World) : World :=
  mkWorld v (w.(FREE_MAP)) (w.(GAMES)) (w.(ACTIVE_GAMES)) (w.(WAITING_GAMES))
    (w.(USER_ROOMS)) (w.(socketio)).
Definition set_FREE_MAP (v : gmap nat bool) (w : World) : World :=
  mkWorld (w.(FREE_IDS)) v (w.(GAMES)) (w.(ACTIVE_GAMES)) (w.(WAITING_GAMES))
    (w.(USER_ROOMS)) (w.(socketio)).
Definition set_GAMES (v : gmap nat Game) (w : World) : World :=
  mkWorld (w.(FREE_IDS)) (w.(FREE_MAP)) v (w.(ACTIVE_GAMES))
    (w.(WAITING_GAMES)) (w.(USER_ROOMS)) (w.(socketio)).
Definition set_ACTIVE_GAMES (v : gset nat) (w : World) : World :=
  mkWorld (w.(FREE_IDS)) (w.(FREE_MAP)) (w.(GAMES)) v (w.(WAITING_GAMES))
    (w.(USER_ROOMS)) (w.(socketio)).
Definition set_WAITING_GAMES (v : Queue nat) (w : World) : World :=
  mkWorld (w.(FREE_IDS)) (w.(FREE_MAP)) (w.(GAMES)) (w.(ACTIVE_GAMES)) v
    (w.(USER_ROOMS)) (w.(socketio)).
Definition set_USER_ROOMS (v : gmap string nat) (w : World) : World :=
  mkWorld (w.(FREE_IDS)) (w.(FREE_MAP)) (w.(GAMES)) (w.(ACTIVE_GAMES))
    (w.(WAITING_GAMES)) v (w.(socketio)).
Definition set_socketio (v : list SocketCall) (w : World) : World :=
  mkWorld (w.(FREE_IDS)) (w.(FREE_MAP)) (w.(GAMES)) (w.(ACTIVE_GAMES))
    (w.(WAITING_GAMES)) (w.(USER_ROOMS)) v.


(** [socketio.emit], [join_room], ... *)
Definition io (c : SocketCall) : Py World unit :=
  modify (fun w => set_socketio (socketio w ++ [c]) w).

(** A method call [game.m(...)] from [app.py]: the object changes in
    place, so the copy registered in [GAMES] changes with it; the caller
    keeps the handle. *)
Definition call {A : Type} (m : Py Game A) (game : Game) : Py World (Game * A) :=
  fun w =>
    let (game', r) := m game in
    let w' := match GAMES w !! id game with
              | Some _ => set_GAMES (<[id game := game']> (GAMES w)) w
              | None => w
              end in
    (w', match r with
         | Val a => Val (game', a)
         | Exc e => Exc e
         | Blocks => Blocks
         end).

(** A queue operation on [FREE_IDS] or on [WAITING_GAMES]. *)
Definition on_FREE_IDS {A : Type} (op : Queue nat -> Queue nat * res A)
  : Py World A :=
  fun w => let (q, r) := op (FREE_IDS w) in (set_FREE_IDS q w, r).

Definition on_WAITING_GAMES {A : Type} (op : Queue nat -> Queue nat * res A)
  : Py World A :=
  fun w => let (q, r) := op (WAITING_GAMES w) in (set_WAITING_GAMES q w, r).

(** [assert b, msg] *)
Definition py_assert {S : Type} (b : bool) (msg : string) : Py S unit :=
  if b then ret tt else raise (AssertionError msg).

(** [GAME_NAME_TO_CLS.get(game_name, OvercookedGame)] *)
Definition game_cls_of (game_name : string) : GameKind :=
  if decide (game_name = "tutorial") then OvercookedTutorial else OvercookedGame.

(** The [try] block of [try_create_game]. *)
Definition try_create_game_body (game_name : string) (p : Params)
  : Py World Game :=
  curr_id <- on_FREE_IDS get_nowait ;;
  fm <- gets FREE_MAP ;;
  free <- lookup_or KeyError (fm !! curr_id) ;;
  py_assert free "Current id is already in use" ;;;
  match new_game (game_cls_of game_name) curr_id p with
  | Val game => ret game
  | Exc e => raise e
  | Blocks => block
  end.

(** [try_create_game]: [(game, None)] is [inl game], [(None, err)] is
    [inr err]. *)
Definition try_create_game (game_name : string) (p : Params)
  : Py World (Game + exn) :=
  fun w =>
    match try_create_game_body game_name p w with
    | (w', Exc Empty) => (w', Val (inr (RuntimeError "Server at max capacity")))
    | (w', Exc e) => (w', Val (inr e))
    | (w', Blocks) => (w', Blocks)
    | (w', Val game) =>
        (set_FREE_MAP (<[id game := false]> (FREE_MAP w'))
           (set_GAMES (<[id game := game]> (GAMES w')) w'),
         Val (inl game))
    end.

(** [leave_curr_room]: [ThreadSafeDict.__delitem__] ignores a missing key. *)
Definition leave_curr_room (user_id : string) : Py World unit :=
  modify (fun w => set_USER_ROOMS (delete user_id (USER_ROOMS w)) w).

(** [set_curr_room] *)
Definition set_curr_room (user_id : string) (room_id : nat) : Py World unit :=
  modify (fun w => set_USER_ROOMS (<[user_id := room_id]> (USER_ROOMS w)) w).

(** [get_curr_room] *)
Definition get_curr_room (w : World) (user_id : string) : option nat :=
  USER_ROOMS w !! user_id.

(** [get_game] *)
Definition get_game (w : World) (game_id : nat) : option Game :=
  GAMES w !! game_id.

(** [get_curr_game] *)
Definition get_curr_game (w : World) (user_id : string) : option Game :=
  get_curr_room w user_id ≫= get_game w.

(** [cleanup_game] *)
Definition cleanup_game (game : Game) : Py World unit :=
  fm <- gets FREE_MAP ;;
  free <- lookup_or KeyError (fm !! id game : option bool) ;;
  if free then raise (ValueError "Double free on a game")
  else
    for_each (players game) leave_curr_room ;;;
    io (close_room (id game)) ;;;
    modify (fun w => set_FREE_MAP (<[id game := true]> (FREE_MAP w)) w) ;;;
    on_FREE_IDS (put (id game)) ;;;
    modify (fun w => set_GAMES (delete (id game) (GAMES w)) w) ;;;
    active <- gets ACTIVE_GAMES ;;
    if bool_decide (id game ∈ active)
    then modify (set_ACTIVE_GAMES (active ∖ {[id game]}))
    else ret tt.

(** [get_waiting_game]: entries whose id is free again are skipped. *)
Fixpoint next_waiting (ids : list nat) (fm : gmap nat bool)
  : list nat * res (option nat) :=
  match ids with
  | [] => ([], Val None)
  | waiting_id :: ids' =>
      match fm !! waiting_id with
      | None => (ids', Exc KeyError)
      | Some true => next_waiting ids' fm
      | Some false => (ids', Val (Some waiting_id))
      end
  end.

Definition get_waiting_game : Py World (option Game) :=
  fun w =>
    let (ids, r) := next_waiting (items (WAITING_GAMES w)) (FREE_MAP w) in
    let w' := set_WAITING_GAMES (mkQueue (maxsize (WAITING_GAMES w)) ids) w in
    match r with
    | Val (Some waiting_id) => (w', Val (get_game w' waiting_id))
    | Val None => (w', Val None)
    | Exc e => (w', Exc e)
    | Blocks => (w', Blocks)
    end.

(** [OvercookedGame.get_state], as far as it touches the session: the
    clock is read for [time_left]. *)
Definition get_state : Py Game unit :=
  _ <- attr state ;;
  now <- time ;;
  _ <- attr start_time ;;
  ret tt.

(** [OvercookedGame.to_json] *)
Definition to_json : Py Game unit :=
  active <- gets _is_active ;;
  if active then _ <- attr curr_layout ;; get_state else ret tt.

(** The common end of [_create_game] and [on_join]: start the session if
    it is ready, else queue it as waiting. *)
Definition start_or_wait (spectating : bool) (game : Game) : Py World unit :=
  if is_ready game then
    r <- call activate game ;;
    modify (fun w => set_ACTIVE_GAMES (ACTIVE_GAMES w ∪ {[id game]}) w) ;;;
    r' <- call to_json (fst r) ;;
    io (emit_start_game spectating (id game)) ;;;
    io (start_background_task (id game))
  else
    on_WAITING_GAMES (put (id game)) ;;;
    io (emit_waiting true (Some (id game))).

(** [_create_game] *)
Definition _create_game (user_id : string) (game_name : string) (p : Params)
  : Py World unit :=
  r <- try_create_game game_name p ;;
  match r with
  | inr err => io (emit_creation_failed err)
  | inl game =>
      let spectating := is_full game in
      r <- call (if spectating then add_spectator user_id
                 else add_player user_id None (-1) true) game ;;
      let game := fst r in
      io (join_room user_id (id game)) ;;;
      set_curr_room user_id (id game) ;;;
      start_or_wait spectating game
  end.

(** [_leave_game] *)
Definition _leave_game (user_id : string) : Py World bool :=
  curr <- gets (fun w => get_curr_game w user_id) ;;
  match curr with
  | None => ret false
  | Some game =>
      io (leave_room user_id (id game)) ;;;
      leave_curr_room user_id ;;;
      r <- call (if bool_decide (user_id ∈ players game)
                 then remove_player user_id
                 else remove_spectator user_id ;;; ret tt) game ;;
      let game := fst r in
      was_active <- gets (fun w => bool_decide (id game ∈ ACTIVE_GAMES w)) ;;
      (if was_active && is_empty game then call deactivate game ;;; ret tt
       else if is_empty game then cleanup_game game
       else if negb was_active then io (emit_waiting true (Some (id game)))
       else if was_active && is_ready game then ret tt
       else if was_active && negb (is_empty game)
            then call deactivate game ;;; ret tt
       else ret tt) ;;;
      ret was_active
  end.

(** The part of [play_game] after its loop, reached with the last
    [status] returned by [tick]. *)
Definition play_game_exit (status : Status) (game : Game) : Py World unit :=
  r <- call get_data game ;;
  let game := fst r in
  io (emit_end_game status (id game)) ;;;
  game <- match status with
          | INACTIVE => ret game
          | _ => r <- call deactivate game ;; ret (fst r)
          end ;;
  cleanup_game game.

(** What a successful [cleanup_game] leaves behind. *)
Definition cleaned (game : Game) (w : World) : World :=
  mkWorld
    (mkQueue (maxsize (FREE_IDS w)) (items (FREE_IDS w) ++ [id game]))
    (<[id game := true]> (FREE_MAP w))
    (delete (id game) (GAMES w))
    (ACTIVE_GAMES w ∖ {[id game]})
    (WAITING_GAMES w)
    (foldl (fun m u => delete u m) (USER_ROOMS w) (players game))
    (socketio w ++ [close_room (id game)]).

(** The slots are well formed: a queue in every occupied slot and the
    [EMPTY] marker in every vacant one, in [players] and in
    [pending_actions] alike. *)
Definition slots_ok (g : Game) : Prop :=
  Forall2 (fun p q => p = EMPTY <-> q = None) (players g) (pending_actions g).

(** The id allocator is consistent: no id is twice in [FREE_IDS], and
    every id in [FREE_IDS] is marked free in [FREE_MAP]. *)
Definition alloc_ok (w : World) : Prop :=
  NoDup (items (FREE_IDS w)) /\
  forall i, i ∈ items (FREE_IDS w) -> FREE_MAP w !! i = Some true.

End Model.

(** ** Test doubles and sample sessions *)

(** A small stand-in for the collaborators: states are numbered, the start
    state of a layout is the length of its name, a transition adds one and
    pays no reward, and an agent is a recorder that answers [STAY] and
    keeps the states it was asked about, latest first.  Only ["StayAI"]
    can be unpickled.  The clock advances one millisecond per reading. *)
#[export] Instance demo : Externals := {|
  State := nat;
  Agent := list nat;
  get_standard_start_state := fun layout => String.length layout;
  get_state_transition := fun _ s _ => (S s, [0; 0]);
  agent_action := fun a s => (STAY, s :: a);
  agent_reset := fun a => a;
  pickle_load := fun name => if decide (name = "StayAI") then Some [] else None;
  wall_clock := fun k => Z.of_nat k;
  MAX_GAME_TIME := 60
|}.

(** A server with [MAX_GAMES = 1], as left by the module initialisation. *)
Definition world1 : World :=
  mkWorld (mkQueue 1 [0%nat]) {[0%nat := true]} ∅ ∅ (mkQueue 0 []) ∅ [].

(** Create requests: two humans; an agent that cannot be loaded; two
    agents watched by the requester, on two layouts with no time left;
    no player slot at all. *)
Definition params_humans : Params :=
  mkParams ["cramped_room"] 2 30 "human" "human" 1 false 15.

Definition params_missing_agent : Params :=
  mkParams ["cramped_room"] 2 30 "NoSuchAgent" "human" 1 false 15.

Definition params_agents : Params :=
  mkParams ["a"; "bb"] 2 0 "StayAI" "StayAI" 1 false 15.

Definition params_no_slots : Params :=
  mkParams ["cramped_room"] 0 30 "human" "human" 1 false 15.

(** An agent in slot 0 and the requester in slot 1. *)
Definition params_mixed : Params :=
  mkParams ["a"] 2 30 "StayAI" "human" 1 false 15.

(** The session registered under [game_id], if any, else a blank one. *)
Definition game_at (w : World) (game_id : nat) : Game :=
  default (Game_init OvercookedGame game_id) (GAMES w !! game_id).





(** An agent asked for in slot 1 only; the session as its constructor
    leaves it, with slot 0 vacant. *)
Definition params_agent_one : Params :=
  mkParams ["a"] 2 30 "human" "StayAI" 1 false 15.

Definition fresh_session : Game :=
  match new_game OvercookedGame 0 params_agent_one with
  | Val g => g
  | _ => Game_init OvercookedGame 0
  end.

(** A server with [MAX_GAMES = 2], as left by the module initialisation. *)
Definition world2 : World :=
  mkWorld (mkQueue 2 [0%nat; 1%nat]) {[0%nat := true; 1%nat := true]} ∅ ∅
    (mkQueue 0 []) ∅ [].

(** ** Properties *)

Section Properties.
Context {E : Externals}.

(** *** Emptiness and readiness *)

Lemma Game_is_empty_true (g : Game) :
  Game_is_empty g = true <-> num_players g = 0%nat.
Proof. unfold Game_is_empty. apply Nat.eqb_eq. Qed.

Lemma is_empty_true (g : Game) :
  is_empty g = true <->
  num_players g = 0%nat \/ (spectators g = ∅ /\ human_players g = ∅).
Proof.
  unfold is_empty.
  rewrite orb_true_iff, andb_true_iff, Game_is_empty_true.
  by rewrite !bool_decide_eq_true.
Qed.

(** C3 (as amended): [Game.is_empty] holds exactly when no player slot is
    occupied, spectators or not; [OvercookedGame.is_empty] holds exactly
    when no player slot is occupied or neither a spectator nor a human
    player remains; so a session with a spectator is not empty as long as
    one of its player slots is occupied. *)
Theorem is_empty_spec (g : Game) :
  (Game_is_empty g = true <-> num_players g = 0%nat) /\
  (is_empty g = true <->
     num_players g = 0%nat \/ (spectators g = ∅ /\ human_players g = ∅)) /\
  (spectators g ≠ ∅ -> num_players g ≠ 0%nat -> is_empty g = false).
Proof.
  split; [apply Game_is_empty_true|].
  split; [apply is_empty_true|].
  intros Hs Hn. apply not_true_is_false. rewrite is_empty_true. tauto.
Qed.

(** C9: [OvercookedGame.is_ready] holds only for a session whose occupied
    slots reach [max_players] and that still has a human player or a
    spectator; with neither, the session is not ready, and the code that
    starts sessions then leaves it as it is, outside [ACTIVE_GAMES]. *)
Theorem is_ready_spec (g : Game) :
  (is_ready g = true ->
     (max_players g <= Z.of_nat (num_players g))%Z /\
     (human_players g ≠ ∅ \/ spectators g ≠ ∅)) /\
  (human_players g = ∅ -> spectators g = ∅ ->
     is_ready g = false /\
     forall spectating w,
       GAMES (fst (start_or_wait spectating g w)) = GAMES w /\
       ACTIVE_GAMES (fst (start_or_wait spectating g w)) = ACTIVE_GAMES w).
Proof.
  split.
  - unfold is_ready, Game_is_ready, is_full.
    intros [Hfull Hne]%andb_true_iff.
    apply Z.leb_le in Hfull. apply negb_true_iff in Hne.
    split; [done|].
    destruct (decide (human_players g = ∅)) as [Hh|Hh]; [|by left].
    right. intros Hs.
    assert (is_empty g = true) by (apply is_empty_true; by right).
    congruence.
  - intros Hh Hs.
    assert (Hr : is_ready g = false).
    { unfold is_ready.
      assert (is_empty g = true) as -> by (apply is_empty_true; by right).
      apply andb_false_r. }
    split; [done|].
    intros spectating w. unfold start_or_wait. rewrite Hr.
    unfold bind, on_WAITING_GAMES, put, io, modify.
    by destruct (qfull (WAITING_GAMES w)).
Qed.

(** *** Releasing a session id *)

Lemma set_USER_ROOMS_id (w : World) : set_USER_ROOMS (USER_ROOMS w) w = w.
Proof. by destruct w. Qed.

Lemma set_FREE_IDS_id (w : World) : set_FREE_IDS (FREE_IDS w) w = w.
Proof. by destruct w. Qed.

(** The loop of [cleanup_game] over [game.players] only edits
    [USER_ROOMS]. *)
Lemma for_each_leave_curr_room (us : list string) (w : World) :
  for_each us leave_curr_room w =
  (set_USER_ROOMS (foldl (fun m u => delete u m) (USER_ROOMS w) us) w, Val tt).
Proof.
  revert w. induction us as [|u us IH]; intros w; simpl.
  - by rewrite set_USER_ROOMS_id.
  - unfold bind, leave_curr_room at 1, modify. by rewrite IH.
Qed.

Lemma lookup_foldl_delete (us : list string) (m : gmap string nat) (u : string) :
  foldl (fun m u => delete u m) m us !! u =
  if bool_decide (u ∈ us) then None else m !! u.
Proof.
  revert m. induction us as [|u' us IH]; intros m; simpl; [done|].
  rewrite IH. destruct (decide (u = u')) as [->|Hne].
  - rewrite lookup_delete_eq.
    rewrite (bool_decide_eq_true_2 (u' ∈ u' :: us)) by set_solver.
    by case_bool_decide.
  - rewrite lookup_delete_ne by done.
    rewrite (bool_decide_ext (u ∈ us) (u ∈ u' :: us)); [done|].
    rewrite elem_of_cons. split; [by right|]. by intros [?|?].
Qed.

Lemma cleanup_game_not_free (game : Game) (w : World) :
  FREE_MAP w !! id game = Some false ->
  qfull (FREE_IDS w) = false ->
  cleanup_game game w = (cleaned game w, Val tt).
Proof.
  intros Hfree Hroom. unfold cleanup_game, bind, gets, lookup_or.
  rewrite Hfree. simpl. rewrite for_each_leave_curr_room.
  unfold io, modify, on_FREE_IDS, put. simpl. rewrite Hroom. simpl.
  unfold cleaned.
  case_bool_decide as Hin; [reflexivity|].
  unfold ret. f_equal.
  unfold set_GAMES, set_FREE_IDS, set_FREE_MAP, set_socketio, set_USER_ROOMS.
  simpl. f_equal.
  apply set_eq. intros x. rewrite elem_of_difference, elem_of_singleton.
  split; [|tauto]. intros Hx. split; [done|]. by intros ->.
Qed.

Lemma cleanup_game_free (game : Game) (w : World) :
  FREE_MAP w !! id game = Some true ->
  cleanup_game game w = (w, Exc (ValueError "Double free on a game")).
Proof.
  intros Hfree. unfold cleanup_game, bind, gets, lookup_or. by rewrite Hfree.
Qed.

Lemma cleanup_game_returns (game : Game) (w w' : World) :
  cleanup_game game w = (w', Val tt) -> FREE_MAP w !! id game = Some false.
Proof.
  unfold cleanup_game, bind, gets, lookup_or.
  destruct (FREE_MAP w !! id game) as [[|]|]; simpl;
    [discriminate|done|discriminate].
Qed.

(** C4: [cleanup_game] on a session whose id is marked free in [FREE_MAP]
    raises [ValueError] and touches nothing; it returns normally only if
    the id was marked not free, and then (with room in [FREE_IDS]) it
    does return. *)
Theorem cleanup_game_double_free (game : Game) (w : World) :
  (FREE_MAP w !! id game = Some true ->
     cleanup_game game w = (w, Exc (ValueError "Double free on a game"))) /\
  (forall w', cleanup_game game w = (w', Val tt) ->
     FREE_MAP w !! id game = Some false) /\
  (FREE_MAP w !! id game = Some false -> qfull (FREE_IDS w) = false ->
     exists w', cleanup_game game w = (w', Val tt)).
Proof.
  split; [apply cleanup_game_free|].
  split; [intros w'; apply cleanup_game_returns|].
  intros Hfree Hroom. eexists. by apply cleanup_game_not_free.
Qed.

(** X13: After a successful [cleanup_game] the id is free again and the
    session is out of [GAMES] and [ACTIVE_GAMES]; of [USER_ROOMS], exactly
    the entries of the session's players are gone. *)
Lemma cleanup_game_registries (game : Game) (w w' : World) :
  cleanup_game game w = (w', Val tt) ->
  qfull (FREE_IDS w) = false ->
  FREE_MAP w' !! id game = Some true /\
  id game ∈ items (FREE_IDS w') /\
  GAMES w' !! id game = None /\
  (id game ∉ ACTIVE_GAMES w') /\
  forall u, USER_ROOMS w' !! u =
            (if bool_decide (u ∈ players game) then None else USER_ROOMS w !! u).
Proof.
  intros Hrun Hroom.
  assert (Hfree : FREE_MAP w !! id game = Some false)
    by (eapply cleanup_game_returns; eauto).
  rewrite cleanup_game_not_free in Hrun by done.
  injection Hrun as <-. unfold cleaned; simpl.
  split; [apply lookup_insert_eq|].
  split; [apply elem_of_app; right; by apply list_elem_of_singleton|].
  split; [apply lookup_delete_eq|].
  split; [|intros u; apply lookup_foldl_delete].
  intros [_ Hout]%elem_of_difference. apply Hout. by apply elem_of_singleton.
Qed.

(** *** Creating a session *)

(** X14: With no free id, [_create_game] reports the failure and changes
    nothing else. *)
Lemma create_at_capacity (user_id game_name : string) (p : Params) (w : World) :
  items (FREE_IDS w) = [] ->
  _create_game user_id game_name p w =
  (set_socketio
     (socketio w ++ [emit_creation_failed (RuntimeError "Server at max capacity")])
     w, Val tt).
Proof.
  intros Hnone.
  unfold _create_game, bind, try_create_game, try_create_game_body, bind,
    on_FREE_IDS, get_nowait.
  rewrite Hnone. simpl. by rewrite set_FREE_IDS_id.
Qed.

(** When the constructor raises, the failure is reported the same way,
    but the id taken from [FREE_IDS] is not put back. *)
Lemma create_constructor_raises (user_id game_name : string) (p : Params)
    (w : World) (i : nat) (rest : list nat) (e : exn) :
  items (FREE_IDS w) = i :: rest ->
  FREE_MAP w !! i = Some true ->
  new_game (game_cls_of game_name) i p = Exc e ->
  e ≠ Empty ->
  _create_game user_id game_name p w =
  (set_socketio (socketio w ++ [emit_creation_failed e])
     (set_FREE_IDS (mkQueue (maxsize (FREE_IDS w)) rest) w), Val tt).
Proof.
  intros Hids Hfree Hnew Hne.
  unfold _create_game, bind, try_create_game, try_create_game_body, bind,
    on_FREE_IDS, get_nowait.
  rewrite Hids. simpl. unfold gets, lookup_or, bind. simpl.
  rewrite Hfree. simpl. rewrite Hnew. simpl.
  by destruct e.
Qed.

(** *** What a computation leaves alone *)

#[local] Instance keeps_preorder {S B : Type} (f : S -> B) : PreOrder (keeps f).
Proof. split; unfold keeps; [done|]. intros x y z Hxy Hyz. congruence. Qed.

Section Preserves.
Context {S : Type} (R : relation S) `{!PreOrder R}.

Lemma preserves_ret {A : Type} (a : A) : preserves R (ret a).
Proof. intros s. simpl. reflexivity. Qed.

Lemma preserves_raise {A : Type} (e : exn) : preserves R (raise (A:=A) e).
Proof. intros s. simpl. reflexivity. Qed.

Lemma preserves_block {A : Type} : preserves R (block (A:=A)).
Proof. intros s. simpl. reflexivity. Qed.

Lemma preserves_gets {A : Type} (f : S -> A) : preserves R (gets f).
Proof. intros s. simpl. reflexivity. Qed.

Lemma preserves_lookup_or {A : Type} (e : exn) (o : option A) :
  preserves R (lookup_or e o).
Proof. intros s. destruct o; simpl; reflexivity. Qed.

Lemma preserves_py_assert (b : bool) (msg : string) :
  preserves R (py_assert b msg).
Proof. intros s. destruct b; simpl; reflexivity. Qed.

Lemma preserves_modify (f : S -> S) :
  (forall s, R s (f s)) -> preserves R (modify f).
Proof. intros Hf s. apply Hf. Qed.

Lemma preserves_bind {A B : Type} (m : Py S A) (f : A -> Py S B) :
  preserves R m -> (forall a, preserves R (f a)) -> preserves R (bind m f).
Proof.
  intros Hm Hf s. unfold bind. specialize (Hm s).
  destruct (m s) as [s' [a| |]]; simpl in *; [|done|done].
  etransitivity; [exact Hm|apply Hf].
Qed.

Lemma preserves_try_except {A : Type} (m : Py S A) (h : exn -> option (Py S A)) :
  preserves R m ->
  (forall e k, h e = Some k -> preserves R k) ->
  preserves R (try_except m h).
Proof.
  intros Hm Hh s. unfold try_except. specialize (Hm s).
  destruct (m s) as [s' [a|e|]]; simpl in *; [done| |done].
  destruct (h e) as [k|] eqn:Hk; [|done].
  etransitivity; [exact Hm|by eapply Hh].
Qed.

Lemma preserves_for_each {A : Type} (l : list A) (body : A -> Py S unit) :
  (forall x, preserves R (body x)) -> preserves R (for_each l body).
Proof.
  intros Hbody. induction l as [|x l IH]; simpl.
  - apply preserves_ret.
  - apply preserves_bind; [apply Hbody|done].
Qed.

End Preserves.

(** Running the step lemmas over a definition, [unfold]ed beforehand. *)
Ltac preserve_by lem := apply lem; try (solve [apply _]).

Ltac preserve_step :=
  match goal with
  | |- forall _, _ => intros ?
  | |- preserves _ (bind _ _) => preserve_by @preserves_bind
  | |- preserves _ (ret _) => preserve_by @preserves_ret
  | |- preserves _ (raise _) => preserve_by @preserves_raise
  | |- preserves _ block => preserve_by @preserves_block
  | |- preserves _ (gets _) => preserve_by @preserves_gets
  | |- preserves _ (lookup_or _ _) => preserve_by @preserves_lookup_or
  | |- preserves _ (py_assert _ _) => preserve_by @preserves_py_assert
  | |- preserves _ (modify _) =>
      preserve_by @preserves_modify; intros ?; try reflexivity
  | |- preserves _ (for_each _ _) => preserve_by @preserves_for_each
  | |- preserves _ (try_except _ _) => preserve_by @preserves_try_except
  | H : match ?e with _ => _ end = Some _ |- _ =>
      destruct e; try discriminate H;
      apply (inj Some) in H; subst
  | |- preserves _ (if ?b then _ else _) => destruct b
  | |- preserves _ (match ?x with _ => _ end) => destruct x
  | |- preserves _ (let (_, _) := ?x in _) => destruct x
  end.

Ltac preserve := repeat preserve_step.

(** The primitive steps on a session. *)
Lemma preserves_on_queue {A B : Type} (f : Game -> B) (i : nat)
    (op : Queue Action -> Queue Action * res A) :
  (forall v g, f (set_pending_actions v g) = f g) ->
  preserves (keeps f) (on_queue i op).
Proof.
  intros Hf g. unfold on_queue, keeps.
  destruct (pending_actions g !! i) as [[q|]|]; simpl; [|done|done].
  destruct (op q). simpl. apply Hf.
Qed.

Lemma preserves_time {B : Type} (f : Game -> B) :
  (forall v g, f (set_clock v g) = f g) -> preserves (keeps f) time.
Proof. intros Hf g. apply Hf. Qed.

Lemma preserves_attr {A : Type} (R : relation Game) `{!PreOrder R}
    (f : Game -> option A) :
  preserves R (attr f).
Proof. intros g. unfold attr. by apply preserves_lookup_or. Qed.

Lemma preserves_push_state {B : Type} (f : Game -> B) (npc_id : string)
    (s : State) :
  (forall v g, f (set_npc_state_queues v g) = f g) ->
  preserves (keeps f) (push_state npc_id s).
Proof.
  intros Hf g. unfold push_state, keeps.
  destruct (npc_state_queues g !! npc_id); simpl; [apply Hf|done].
Qed.

Lemma preserves_pop_state {B : Type} (f : Game -> B) (npc_id : string) :
  (forall v g, f (set_npc_state_queues v g) = f g) ->
  preserves (keeps f) (pop_state npc_id).
Proof.
  intros Hf g. unfold pop_state, keeps.
  destruct (npc_state_queues g !! npc_id) as [q|]; simpl; [|done].
  destruct (lifo_get q). apply Hf.
Qed.

(** [Game.enqueue_action] only ever touches [pending_actions]. *)
Lemma Game_enqueue_action_keeps {B : Type} (f : Game -> B)
    (player_id : string) (action : Action) :
  (forall v g, f (set_pending_actions v g) = f g) ->
  preserves (keeps f) (Game_enqueue_action player_id action).
Proof.
  intros Hf. unfold Game_enqueue_action. preserve.
  by apply preserves_on_queue.
Qed.

(** *** Enqueueing an action *)

Lemma index_Some (x : string) (l : list string) (i : nat) :
  index x l = Some i -> l !! i = Some x /\ x ∈ l.
Proof.
  revert i. induction l as [|y l IH]; intros i; simpl; [done|].
  case_decide as Hy.
  - intros [= <-]. subst. split; [done|]. apply list_elem_of_here.
  - destruct (index x l) as [j|]; simpl; [|done].
    intros [= <-]. destruct (IH j eq_refl) as [Hl Hin].
    split; [done|]. by apply list_elem_of_further.
Qed.

Lemma set_pending_actions_id (g : Game) (i : nat) (v : option (Queue Action)) :
  pending_actions g !! i = Some v ->
  set_pending_actions (<[i := v]> (pending_actions g)) g = g.
Proof. intros Hv. rewrite list_insert_id by done. by destruct g. Qed.

(** The two silent rejections of [Game.enqueue_action]. *)
Lemma Game_enqueue_action_rejects (g : Game) (player_id : string)
    (action : Action) :
  _is_active g = false \/ player_id ∉ players g ->
  Game_enqueue_action player_id action g = (g, Val tt).
Proof.
  intros Hrej. unfold Game_enqueue_action, bind, gets.
  destruct (_is_active g); simpl; [|done].
  destruct Hrej as [|Hout]; [done|].
  by rewrite bool_decide_eq_false_2.
Qed.

(** With room in the slot's queue the action is appended. *)
Lemma Game_enqueue_action_appends (g : Game) (player_id : string)
    (action : Action) (idx : nat) (q : Queue Action) :
  _is_active g = true ->
  index player_id (players g) = Some idx ->
  pending_actions g !! idx = Some (Some q) ->
  qfull q = false ->
  Game_enqueue_action player_id action g =
  (set_pending_actions
     (<[idx := Some (mkQueue (maxsize q) (items q ++ [action]))]>
        (pending_actions g)) g, Val tt).
Proof.
  intros Hact Hidx Hq Hroom.
  destruct (index_Some _ _ _ Hidx) as [_ Hin].
  unfold Game_enqueue_action, bind, gets. rewrite Hact. simpl.
  rewrite bool_decide_eq_true_2 by done. simpl.
  unfold try_except, bind. rewrite Hidx. simpl.
  unfold on_queue. rewrite Hq. unfold put. by rewrite Hroom.
Qed.

(** C6 on the code: when the slot's bounded queue is full,
    [Game.enqueue_action] neither drops the action nor returns: the
    caller waits in [put], and so does [OvercookedGame.enqueue_action]
    for every key name it knows. *)
Theorem enqueue_action_full_queue_blocks (g : Game) (player_id : string)
    (action : Action) (idx : nat) (q : Queue Action) :
  _is_active g = true ->
  index player_id (players g) = Some idx ->
  pending_actions g !! idx = Some (Some q) ->
  qfull q = true ->
  Game_enqueue_action player_id action g = (g, Blocks) /\
  forall key, action_to_overcooked_action key = Some action ->
    enqueue_action player_id key g = (g, Blocks).
Proof.
  intros Hact Hidx Hq Hfull.
  destruct (index_Some _ _ _ Hidx) as [_ Hin].
  assert (Hblocks : Game_enqueue_action player_id action g = (g, Blocks)).
  { unfold Game_enqueue_action, bind, gets. rewrite Hact. simpl.
    rewrite bool_decide_eq_true_2 by done. simpl.
    unfold try_except, bind. rewrite Hidx. simpl.
    unfold on_queue. rewrite Hq. unfold put. rewrite Hfull.
    by rewrite set_pending_actions_id. }
  split; [done|].
  intros key Hkey. unfold enqueue_action, bind. rewrite Hkey. simpl.
  exact Hblocks.
Qed.

(** *** The state channel of an automated player *)

Lemma alist_get_set {V : Type} (k : string) (v : V) (d : list (string * V)) :
  alist_get k (alist_set k v d) = Some v.
Proof.
  induction d as [|[k' v'] d IH]; simpl.
  - by rewrite decide_True.
  - case_decide as Hk; simpl.
    + by rewrite decide_True.
    + by rewrite decide_False.
Qed.

Lemma push_state_some (g : Game) (p : string) (q : LifoQueue State) (s : State) :
  npc_state_queues g !! p = Some q ->
  push_state p s g =
  (set_npc_state_queues (<[p := s :: q]> (npc_state_queues g)) g, Val tt).
Proof. intros Hq. unfold push_state. by rewrite Hq. Qed.

Lemma pop_state_some (g : Game) (p : string) (q : LifoQueue State) (s : State) :
  npc_state_queues g !! p = Some (s :: q) ->
  pop_state p g =
  (set_npc_state_queues (<[p := q]> (npc_state_queues g)) g, Val s).
Proof. intros Hq. unfold pop_state. by rewrite Hq. Qed.

(** One round of the worker on a channel with [s] on top: [s] is taken
    off, the policy is asked about [s], and whatever becomes of the
    action, the rest of the channel and the activity of the session are
    as before. *)
Lemma consumer_round (g : Game) (p : string) (q : LifoQueue State)
    (pol : Policy) (s : State) :
  npc_state_queues g !! p = Some (s :: q) ->
  alist_get p (npc_policies g) = Some pol ->
  let g' := fst (npc_policy_consumer_body p g) in
  alist_get p (npc_policies g') = Some (snd (policy_action pol s)) /\
  npc_state_queues g' !! p = Some q /\
  _is_active g' = _is_active g.
Proof.
  intros Htop Hpol g'.
  set (g1 := set_npc_state_queues (<[p := q]> (npc_state_queues g)) g).
  destruct (policy_action pol s) as [act pol'] eqn:Hact.
  set (g2 := set_npc_policies (alist_set p pol' (npc_policies g1)) g1).
  assert (Hg' : g' = fst (Game_enqueue_action p act g2)).
  { unfold g', npc_policy_consumer_body, bind.
    rewrite (pop_state_some g p q s Htop). simpl.
    unfold gets, lookup_or. fold g1. simpl.
    replace (npc_policies g1) with (npc_policies g) by done.
    rewrite Hpol. simpl. rewrite Hact. simpl. unfold modify. simpl.
    by destruct (Game_enqueue_action p act _) as [? [[]| |]]. }
  rewrite Hg'.
  rewrite (Game_enqueue_action_keeps npc_policies p act (fun _ _ => eq_refl) g2).
  rewrite (Game_enqueue_action_keeps npc_state_queues p act (fun _ _ => eq_refl) g2).
  rewrite (Game_enqueue_action_keeps _is_active p act (fun _ _ => eq_refl) g2).
  simpl. split; [apply alist_get_set|]. split; [apply lookup_insert_eq|done].
Qed.

(** C1 (as amended): the state channel is an unbounded LIFO stack.  After
    two pushes the newer state is on top of the older one; the worker's
    next round asks the policy about the newer state and removes only
    that one, and the superseded state is what the following read of the
    channel returns.  A worker that takes another round asks the policy
    about the superseded state in that round, and it does take that round
    when the session is active and its previous action was accepted by
    the action queue; the worker of a session that is not active leaves
    its loop, and what is in the channel stays there unread. *)
Theorem state_channel_is_lifo (g : Game) (p : string) (q : LifoQueue State)
    (pol : Policy) (s1 s2 : State) :
  npc_state_queues g !! p = Some q ->
  alist_get p (npc_policies g) = Some pol ->
  let g2 := fst ((push_state p s1 ;;; push_state p s2) g) in
  let g3 := fst (npc_policy_consumer_body p g2) in
  let g5 := fst (npc_policy_consumer_body p g3) in
  npc_state_queues g2 !! p = Some (s2 :: s1 :: q) /\
  alist_get p (npc_policies g3) = Some (snd (policy_action pol s2)) /\
  npc_state_queues g3 !! p = Some (s1 :: q) /\
  (exists g4, pop_state p g3 = (g4, Val s1) /\
              npc_state_queues g4 !! p = Some q) /\
  alist_get p (npc_policies g5) =
    Some (snd (policy_action (snd (policy_action pol s2)) s1)) /\
  npc_state_queues g5 !! p = Some q /\
  (_is_active g = true ->
   snd (npc_policy_consumer_body p g2) = Val tt ->
   forall fuel,
     consumer_loop (S (S fuel)) p g2 =
     match npc_policy_consumer_body p g3 with
     | (g', Val _) => consumer_loop fuel p g'
     | r => Some r
     end) /\
  (forall g' : Game, _is_active g' = false ->
   forall fuel, consumer_loop (S fuel) p g' = Some (g', Val tt)).
Proof.
  intros Hq Hpol g2 g3 g5.
  assert (Hg2 : g2 = set_npc_state_queues
            (<[p := s2 :: s1 :: q]> (<[p := s1 :: q]> (npc_state_queues g))) g).
  { unfold g2, bind, push_state, lifo_put. cbv beta. rewrite Hq. simpl.
    by rewrite lookup_insert_eq. }
  assert (Htop : npc_state_queues g2 !! p = Some (s2 :: s1 :: q)).
  { rewrite Hg2. apply lookup_insert_eq. }
  assert (Hpol2 : alist_get p (npc_policies g2) = Some pol) by by rewrite Hg2.
  assert (Hact2 : _is_active g2 = _is_active g) by by rewrite Hg2.
  destruct (consumer_round g2 p (s1 :: q) pol s2 Htop Hpol2)
    as (Hpol3 & Hrest & Hact3).
  fold g3 in Hpol3, Hrest, Hact3.
  destruct (consumer_round g3 p q _ s1 Hrest Hpol3) as (Hpol5 & Hq5 & _).
  fold g5 in Hpol5, Hq5.
  split; [done|]. split; [done|]. split; [done|].
  split.
  { eexists. split; [by apply pop_state_some|]. simpl. apply lookup_insert_eq. }
  split; [done|]. split; [done|]. split.
  - intros Hact Hval fuel.
    change (consumer_loop (S (S fuel)) p g2) with
      (if _is_active g2 then
         match npc_policy_consumer_body p g2 with
         | (g', Val _) => consumer_loop (S fuel) p g'
         | r => Some r
         end
       else Some (g2, Val tt)).
    rewrite Hact2, Hact. unfold g3 in *.
    destruct (npc_policy_consumer_body p g2) as [g3' r]. simpl in *. subst r.
    change (consumer_loop (S fuel) p g3') with
      (if _is_active g3' then
         match npc_policy_consumer_body p g3' with
         | (g', Val _) => consumer_loop fuel p g'
         | r => Some r
         end
       else Some (g3', Val tt)).
    by rewrite Hact3, Hact2, Hact.
  - intros g' Hact fuel. simpl. by rewrite Hact.
Qed.

(** *** Assembling the joint action *)

Lemma bind_val {S A B : Type} (m : Py S A) (f : A -> Py S B) (s s' : S) (b : B) :
  bind m f s = (s', Val b) ->
  exists a s1, m s = (s1, Val a) /\ f a s1 = (s', Val b).
Proof.
  unfold bind. destruct (m s) as [s1 [a|e|]]; [eauto|discriminate..].
Qed.

(** One slot: what a normal return of [take_action] says about the slot's
    queue and the entry written to the joint action. *)
Lemma take_action_val (i : nat) (ja ja' : list Action) (g g' : Game) :
  take_action i ja g = (g', Val ja') ->
  exists p q,
    players g !! i = Some p /\
    pending_actions g !! i = Some (Some q) /\
    g' = set_pending_actions
           (<[i := Some (mkQueue (maxsize q) (tail (items q)))]>
              (pending_actions g)) g /\
    if bool_decide (p ∈ human_players g)
    then ja' = match items q with [] => ja | a :: _ => <[i := a]> ja end
    else exists a r, items q = a :: r /\ ja' = <[i := a]> ja.
Proof.
  unfold take_action, bind, gets, lookup_or.
  destruct (players g !! i) as [p|] eqn:Hp; simpl; [|discriminate].
  destruct (bool_decide (p ∈ human_players g)) eqn:Hh;
    unfold try_except, bind, on_queue, get_nowait, get; cbv beta;
    destruct (pending_actions g !! i) as [[[ms its]|]|] eqn:Hq; simpl;
    try discriminate;
    destruct its as [|a r]; simpl; try discriminate;
    intros [= <- <-]; eexists p, (mkQueue ms _);
    (split; [done|]); (split; [done|]); (split; [done|]);
    rewrite Hh; simpl; eauto.
Qed.

(** The loop over the slots [idxs], each visited once. *)
Lemma take_actions_val (idxs : list nat) :
  NoDup idxs ->
  forall (ja ja' : list Action) (g g' : Game),
  take_actions idxs ja g = (g', Val ja') ->
  players g' = players g /\
  human_players g' = human_players g /\
  length ja' = length ja /\
  (forall i, i ∉ idxs ->
     ja' !! i = ja !! i /\ pending_actions g' !! i = pending_actions g !! i) /\
  (forall i, i ∈ idxs -> (i < length ja)%nat ->
     exists p q,
       players g !! i = Some p /\
       pending_actions g !! i = Some (Some q) /\
       pending_actions g' !! i =
         Some (Some (mkQueue (maxsize q) (tail (items q)))) /\
       if bool_decide (p ∈ human_players g)
       then ja' !! i = match items q with [] => ja !! i | a :: _ => Some a end
       else exists a r, items q = a :: r /\ ja' !! i = Some a).
Proof.
  induction idxs as [|i idxs IH]; intros Hnd ja ja' g g'; simpl.
  - intros [= <- <-]. repeat split; try done.
    intros i Hi. by apply elem_of_nil in Hi.
  - apply NoDup_cons in Hnd as [Hi Hnd].
    intros (ja1 & g1 & Hone & Hrest)%bind_val.
    destruct (take_action_val _ _ _ _ _ Hone) as (p & q & Hp & Hq & -> & Hja1).
    destruct (IH Hnd _ _ _ _ Hrest) as (Hps & Hhs & Hlen & Hout & Hin).
    simpl in Hps, Hhs.
    assert (Hlen1 : length ja1 = length ja).
    { destruct (bool_decide (p ∈ human_players g)).
      - subst ja1. destruct (items q); [done|apply length_insert].
      - destruct Hja1 as (a & r & _ & ->). apply length_insert. }
    assert (Hother : forall j, j ≠ i -> ja1 !! j = ja !! j).
    { intros j Hj. destruct (bool_decide (p ∈ human_players g)).
      - subst ja1. destruct (items q); [done|by apply list_lookup_insert_ne].
      - destruct Hja1 as (a & r & _ & ->). by apply list_lookup_insert_ne. }
    split; [done|]. split; [done|]. split; [congruence|]. split.
    + intros j Hj. apply not_elem_of_cons in Hj as [Hji Hj].
      destruct (Hout j Hj) as [-> ->]. simpl.
      split; [by apply Hother|by apply list_lookup_insert_ne].
    + intros j [->|Hj]%elem_of_cons Hlt.
      * exists p, q. split; [done|]. split; [done|].
        destruct (Hout i Hi) as [-> ->]. simpl.
        split.
        { apply list_lookup_insert_eq. by eapply lookup_lt_Some. }
        destruct (bool_decide (p ∈ human_players g)).
        -- subst ja1. destruct (items q); [done|].
           by apply list_lookup_insert_eq.
        -- destruct Hja1 as (a & r & Hits & ->). exists a, r.
           split; [done|]. by apply list_lookup_insert_eq.
      * assert (Hji : j ≠ i) by (intros ->; done).
        destruct (Hin j Hj) as (p' & q' & Hp' & Hq' & Hq'' & Hres);
          [congruence|].
        simpl in Hp', Hq', Hres.
        rewrite list_lookup_insert_ne in Hq' by done.
        exists p', q'. split; [done|]. split; [done|]. split; [done|].
        destruct (bool_decide (p' ∈ human_players g)); [|done].
        by rewrite Hother in Hres.
Qed.

(** With a queue in every slot and an action waiting in every slot that
    is not a human's, the loop returns. *)
Lemma take_actions_returns (idxs : list nat) :
  forall (ja : list Action) (g : Game),
  NoDup idxs ->
  (forall i, i ∈ idxs ->
     exists p q, players g !! i = Some p /\
                 pending_actions g !! i = Some (Some q) /\
                 (p ∈ human_players g \/ items q ≠ [])) ->
  exists g' ja', take_actions idxs ja g = (g', Val ja').
Proof.
  induction idxs as [|i idxs IH]; intros ja g Hnd Hslots; simpl; [by eauto|].
  apply NoDup_cons in Hnd as [Hi Hnd].
  destruct (Hslots i) as (p & q & Hp & Hq & Hok); [apply list_elem_of_here|].
  assert (exists ja1,
    take_action i ja g =
    (set_pending_actions
       (<[i := Some (mkQueue (maxsize q) (tail (items q)))]>
          (pending_actions g)) g, Val ja1)) as [ja1 Hone].
  { unfold take_action, bind, gets, lookup_or. rewrite Hp. simpl.
    destruct q as [ms its]. simpl in *.
    case_bool_decide as Hh;
      unfold try_except, bind, on_queue, get_nowait, get; cbv beta;
      rewrite Hq; simpl.
    - destruct its; simpl; eauto.
    - destruct Hok as [|Hne]; [done|]. destruct its; [done|]. simpl. eauto. }
  unfold bind. rewrite Hone.
  apply IH; [done|].
  intros j Hj. assert (j ≠ i) by (intros ->; done).
  destruct (Hslots j) as (p' & q' & Hp' & Hq' & Hok');
    [by apply list_elem_of_further|].
  exists p', q'. simpl. by rewrite list_lookup_insert_ne.
Qed.

(** C5: when [apply_actions] has assembled a joint action, it has one
    entry per slot; a human's entry is the first action waiting in the
    slot's queue, taken from it, or [STAY] with the queue untouched when
    none is waiting; the entry of any other slot, an automated player's,
    is the first action of its queue, taken by a blocking read, so with
    an empty queue there the assembly does not return and no default is
    used.  Whenever every slot has a queue and every automated slot an
    action waiting, the assembly returns. *)
Theorem joint_action_assembly (g : Game) :
  (forall g' ja,
     assemble_joint_action g = (g', Val ja) ->
     length ja = length (players g) /\
     forall i p, players g !! i = Some p ->
       exists q,
         pending_actions g !! i = Some (Some q) /\
         pending_actions g' !! i =
           Some (Some (mkQueue (maxsize q) (tail (items q)))) /\
         if bool_decide (p ∈ human_players g)
         then ja !! i = Some (hd STAY (items q))
         else exists a r, items q = a :: r /\ ja !! i = Some a) /\
  (forall i p q,
     players g !! i = Some p -> p ∉ human_players g ->
     pending_actions g !! i = Some (Some q) -> items q = [] ->
     forall g' ja, assemble_joint_action g ≠ (g', Val ja)) /\
  ((forall i p, players g !! i = Some p ->
      exists q, pending_actions g !! i = Some (Some q) /\
                (p ∈ human_players g \/ items q ≠ [])) ->
   exists g' ja, assemble_joint_action g = (g', Val ja)).
Proof.
  assert (Hval : forall g' ja,
     assemble_joint_action g = (g', Val ja) ->
     length ja = length (players g) /\
     forall i p, players g !! i = Some p ->
       exists q,
         pending_actions g !! i = Some (Some q) /\
         pending_actions g' !! i =
           Some (Some (mkQueue (maxsize q) (tail (items q)))) /\
         if bool_decide (p ∈ human_players g)
         then ja !! i = Some (hd STAY (items q))
         else exists a r, items q = a :: r /\ ja !! i = Some a).
  { intros g' ja Hrun. unfold assemble_joint_action, bind, gets in Hrun.
    destruct (take_actions_val _ (NoDup_seq 0 _) _ _ _ _ Hrun)
      as (_ & _ & Hlen & _ & Hin).
    rewrite length_replicate in Hlen, Hin.
    split; [done|].
    intros i p Hp. pose proof (lookup_lt_Some _ _ _ Hp) as Hlt.
    destruct (Hin i) as (p' & q & Hp' & Hq & Hq' & Hres); [|done|].
    { apply elem_of_seq. lia. }
    assert (p' = p) as -> by congruence.
    exists q. split; [done|]. split; [done|].
    destruct (bool_decide (p ∈ human_players g)); [|done].
    rewrite Hres. destruct (items q); [|done].
    by apply lookup_replicate_2. }
  split; [exact Hval|]. split.
  - intros i p q Hp Hh Hq Hits g' ja Hrun.
    destruct (Hval g' ja Hrun) as [_ Hslots].
    destruct (Hslots i p Hp) as (q' & Hq' & _ & Hres).
    rewrite bool_decide_eq_false_2 in Hres by done.
    destruct Hres as (a & r & Hits' & _). congruence.
  - intros Hslots. unfold assemble_joint_action, bind, gets.
    apply take_actions_returns; [apply NoDup_seq|].
    intros i [_ Hi]%elem_of_seq. simpl in Hi.
    destruct (lookup_lt_is_Some_2 (players g) i Hi) as [p Hp].
    destruct (Hslots i p Hp) as (q & Hq & Hok). eauto.
Qed.

(** *** Reading a normal return backwards *)

Lemma bind_run {S A B : Type} (m : Py S A) (f : A -> Py S B) (s s1 : S) (a : A) :
  m s = (s1, Val a) -> bind m f s = f a s1.
Proof. intros Hm. unfold bind. by rewrite Hm. Qed.

Lemma lookup_or_val {S A : Type} (e : exn) (o : option A) (s s' : S) (a : A) :
  lookup_or e o s = (s', Val a) -> o = Some a /\ s' = s.
Proof. destruct o; simpl; [|discriminate]. by intros [= <- <-]. Qed.

Lemma attr_val {A : Type} (f : Game -> option A) (g g' : Game) (a : A) :
  attr f g = (g', Val a) -> f g = Some a /\ g' = g.
Proof. apply lookup_or_val. Qed.

(** *** What the parts of [apply_actions] leave alone *)

(** [preserve], with the primitive steps on a session. *)
Ltac preserve_game :=
  repeat first
    [ preserve_step
    | preserve_by @preserves_time
    | preserve_by @preserves_attr
    | preserve_by @preserves_on_queue
    | preserve_by @preserves_push_state
    | preserve_by @preserves_pop_state ];
  try done.

Lemma take_action_keeps {B : Type} (f : Game -> B) (i : nat) (ja : list Action) :
  (forall v g, f (set_pending_actions v g) = f g) ->
  preserves (keeps f) (take_action i ja).
Proof. intros Hf. unfold take_action. preserve_game. Qed.

Lemma take_actions_keeps {B : Type} (f : Game -> B) (idxs : list nat)
    (ja : list Action) :
  (forall v g, f (set_pending_actions v g) = f g) ->
  preserves (keeps f) (take_actions idxs ja).
Proof.
  intros Hf. revert ja. induction idxs as [|i idxs IH]; intros ja; simpl.
  - preserve.
  - preserve_by @preserves_bind; [by apply take_action_keeps|done].
Qed.

Lemma assemble_joint_action_keeps {B : Type} (f : Game -> B) :
  (forall v g, f (set_pending_actions v g) = f g) ->
  preserves (keeps f) assemble_joint_action.
Proof.
  intros Hf. unfold assemble_joint_action. preserve.
  by apply take_actions_keeps.
Qed.

Lemma send_state_keeps {B : Type} (f : Game -> B) (s : State) :
  (forall v g, f (set_npc_state_queues v g) = f g) ->
  preserves (keeps f) (send_state s).
Proof. intros Hf. unfold send_state. preserve_game. Qed.

Lemma record_transition_keeps {B : Type} (f : Game -> B) (prev : State)
    (ja : list Action) (reward : Z) :
  (forall v g, f (set_clock v g) = f g) ->
  (forall v g, f (set_trajectory v g) = f g) ->
  preserves (keeps f) (record_transition prev ja reward).
Proof. intros Hc Ht. unfold record_transition. preserve_game. apply Ht. Qed.

Lemma keeps_val {S A B : Type} (f : S -> B) (m : Py S A) (s s' : S) (r : res A) :
  preserves (keeps f) m -> m s = (s', r) -> f s' = f s.
Proof. intros Hm Hrun. specialize (Hm s). by rewrite Hrun in Hm. Qed.

Lemma time_val (g g' : Game) (t : Z) :
  time g = (g', Val t) -> g' = set_clock (S (clock g)) g /\ t = wall_clock (clock g).
Proof. unfold time. by intros [= <- <-]. Qed.

Lemma assemble_joint_action_length (g g' : Game) (ja : list Action) :
  assemble_joint_action g = (g', Val ja) -> length ja = length (players g).
Proof.
  intros Hrun. unfold assemble_joint_action, bind, gets in Hrun.
  destruct (take_actions_val _ (NoDup_seq 0 _) _ _ _ _ Hrun)
    as (_ & _ & Hlen & _).
  by rewrite length_replicate in Hlen.
Qed.

(** The record appended by [record_transition]. *)
Lemma record_transition_val (prev : State) (ja : list Action) (reward : Z)
    (g g' : Game) :
  record_transition prev ja reward g = (g', Val tt) ->
  exists t, trajectory g' = (trajectory g ++ [t])%list /\
    t_state t = prev /\ t_joint_action t = ja /\ t_reward t = reward /\
    t_score t = score g /\ t_cur_gameloop t = curr_tick g /\
    curr_layout g = Some (t_layout_name t).
Proof.
  unfold record_transition. intros Hrun.
  repeat (apply bind_val in Hrun as (? & ? & Hstep & Hrun);
          first [apply time_val in Hstep as [-> ->]
                |apply attr_val in Hstep as [? ->]
                |apply lookup_or_val in Hstep as [? ->]
                |injection Hstep as <- <-]).
  injection Hrun as <-. simpl in *. eexists. split; [done|]. by simpl.
Qed.

(** One step of the engine, as [OvercookedGame.apply_actions] takes it:
    the engine is asked once, about the state and the layout of the
    session and the assembled joint action; its new state replaces the
    old one, the sum of its rewards is added to the score, and one record
    is appended to the trajectory.  Slots, tick counter and activity are
    as before. *)
Lemma OvercookedGame_apply_actions_val (g g' : Game) (prev : State)
    (ja : list Action) (info : list Z) :
  OvercookedGame_apply_actions g = (g', Val (prev, ja, info)) ->
  exists layout t ga,
    assemble_joint_action g = (ga, Val ja) /\
    state g = Some prev /\ curr_layout g = Some layout /\
    length ja = length (players g) /\
    info = snd (get_state_transition layout prev ja) /\
    state g' = Some (fst (get_state_transition layout prev ja)) /\
    score g' = num_add (score g) (sum_list info) /\
    trajectory g' = (trajectory g ++ [t])%list /\
    t_state t = prev /\ t_joint_action t = ja /\
    t_reward t = sum_list info /\ t_score t = score g' /\
    t_cur_gameloop t = curr_tick g /\
    players g' = players g /\ curr_tick g' = curr_tick g /\
    _is_active g' = _is_active g /\ layouts g' = layouts g /\
    kind g' = kind g /\ curr_phase g' = curr_phase g /\
    phase_two_score g' = phase_two_score g /\
    phase_two_finished g' = phase_two_finished g.
Proof.
  unfold OvercookedGame_apply_actions. intros Hrun.
  apply bind_val in Hrun as (ja' & g1 & Hja & Hrun).
  apply bind_val in Hrun as (prev' & ? & [Hprev ->]%attr_val & Hrun).
  apply bind_val in Hrun as (layout & ? & [Hlayout ->]%attr_val & Hrun).
  cbv zeta in Hrun.
  apply bind_val in Hrun as ([] & g2 & [= <-] & Hrun).
  apply bind_val in Hrun as ([] & g3 & Hsend & Hrun).
  apply bind_val in Hrun as ([] & g4 & [= <-] & Hrun).
  apply bind_val in Hrun as ([] & g5 & Hrec & Hrun).
  injection Hrun as <- <- <- <-.
  apply record_transition_val in Hrec as Ht.
  destruct Ht as (t & Htraj & Hts & Htj & Htr & Htsc & Htick & _).
  pose proof (fun B (f : Game -> B) H =>
    keeps_val f _ _ _ _ (assemble_joint_action_keeps f H) Hja) as K1.
  pose proof (fun B (f : Game -> B) H =>
    keeps_val f _ _ _ _ (send_state_keeps f _ H) Hsend) as K3.
  pose proof (fun B (f : Game -> B) H1 H2 =>
    keeps_val f _ _ _ _ (record_transition_keeps f _ _ _ H1 H2) Hrec) as K5.
  rewrite (K1 _ state) in Hprev by done.
  rewrite (K1 _ curr_layout) in Hlayout by done.
  assert (Hsame : forall B (f : Game -> B),
    (forall v g, f (set_clock v g) = f g) ->
    (forall v g, f (set_trajectory v g) = f g) ->
    (forall v g, f (set_npc_state_queues v g) = f g) ->
    (forall v g, f (set_score v g) = f g) ->
    (forall v g, f (set_state v g) = f g) ->
    (forall v g, f (set_pending_actions v g) = f g) ->
    f g5 = f g).
  { intros B f H1 H2 H3 H4 H5 H6.
    by rewrite (K5 _ f), H4, (K3 _ f), H5, (K1 _ f). }
  assert (Hscore : score g5 = num_add (score g) (sum_list
            (get_state_transition layout prev' ja').2)).
  { rewrite (K5 _ score) by done. simpl. rewrite (K3 _ score) by done.
    simpl. by rewrite (K1 _ score). }
  exists layout, t, g1.
  split; [done|]. split; [done|]. split; [done|].
  split; [by eapply assemble_joint_action_length|].
  split; [done|].
  split; [rewrite (K5 _ state) by done; simpl; by rewrite (K3 _ state)|].
  split; [done|].
  split; [rewrite Htraj; simpl; rewrite (K3 _ trajectory) by done; simpl;
          by rewrite (K1 _ trajectory)|].
  split; [done|]. split; [done|]. split; [done|].
  split; [rewrite Htsc; simpl; by rewrite (K5 _ score)|].
  split; [rewrite Htick; simpl; rewrite (K3 _ curr_tick) by done; simpl;
          by rewrite (K1 _ curr_tick)|].
  repeat split; by apply Hsame.
Qed.

(** *** One tick *)

Lemma _curr_game_over_keeps {B : Type} (f : Game -> B) :
  (forall v g, f (set_clock v g) = f g) ->
  preserves (keeps f) _curr_game_over.
Proof. intros Hf. unfold _curr_game_over. preserve_game. Qed.

Lemma is_finished_keeps {B : Type} (f : Game -> B) :
  (forall v g, f (set_clock v g) = f g) ->
  preserves (keeps f) is_finished.
Proof.
  intros Hf.
  assert (H1 : preserves (keeps f) OvercookedGame_is_finished).
  { unfold OvercookedGame_is_finished. preserve_game.
    by apply _curr_game_over_keeps. }
  assert (H2 : preserves (keeps f) OvercookedTutorial_is_finished).
  { unfold OvercookedTutorial_is_finished. preserve_game. }
  intros g. unfold is_finished. destruct (kind g); [apply H1|apply H2].
Qed.

Lemma needs_reset_keeps {B : Type} (f : Game -> B) :
  (forall v g, f (set_clock v g) = f g) ->
  preserves (keeps f) needs_reset.
Proof.
  intros Hf.
  assert (H1 : preserves (keeps f) OvercookedGame_needs_reset).
  { unfold OvercookedGame_needs_reset. preserve_game.
    - by apply _curr_game_over_keeps.
    - by apply is_finished_keeps. }
  assert (H2 : preserves (keeps f) OvercookedTutorial_needs_reset).
  { unfold OvercookedTutorial_needs_reset. preserve_game. }
  intros g. unfold needs_reset. destruct (kind g); [apply H1|apply H2].
Qed.

Lemma OvercookedGame_apply_actions_keeps {B : Type} (f : Game -> B) :
  (forall v g, f (set_pending_actions v g) = f g) ->
  (forall v g, f (set_state v g) = f g) ->
  (forall v g, f (set_npc_state_queues v g) = f g) ->
  (forall v g, f (set_score v g) = f g) ->
  (forall v g, f (set_clock v g) = f g) ->
  (forall v g, f (set_trajectory v g) = f g) ->
  preserves (keeps f) OvercookedGame_apply_actions.
Proof.
  intros H1 H2 H3 H4 H5 H6. unfold OvercookedGame_apply_actions.
  preserve_game.
  - by apply assemble_joint_action_keeps.
  - apply H2.
  - by apply send_state_keeps.
  - apply H4.
  - by apply record_transition_keeps.
Qed.

Lemma apply_actions_keeps {B : Type} (f : Game -> B) :
  (forall v g, f (set_pending_actions v g) = f g) ->
  (forall v g, f (set_state v g) = f g) ->
  (forall v g, f (set_npc_state_queues v g) = f g) ->
  (forall v g, f (set_score v g) = f g) ->
  (forall v g, f (set_clock v g) = f g) ->
  (forall v g, f (set_trajectory v g) = f g) ->
  (forall v g, f (set_phase_two_finished v g) = f g) ->
  preserves (keeps f) apply_actions.
Proof.
  intros H1 H2 H3 H4 H5 H6 H7.
  pose proof (OvercookedGame_apply_actions_keeps f H1 H2 H3 H4 H5 H6) as Hs.
  assert (Ha : preserves (keeps f) (OvercookedGame_apply_actions ;;; ret tt)).
  { preserve_game. }
  assert (Hb : preserves (keeps f) OvercookedTutorial_apply_actions).
  { unfold OvercookedTutorial_apply_actions. preserve_game;
      first [apply H4|apply H7]. }
  intros g. unfold apply_actions. destruct (kind g); [apply Ha|apply Hb].
Qed.

(** [tick] on a session that is not active: the tick counter has been
    incremented before activity is looked at, and nothing else happens. *)
Lemma tick_not_active (g : Game) :
  _is_active g = false ->
  tick g = (set_curr_tick (curr_tick g + 1) g, Val INACTIVE).
Proof.
  intros Hact. unfold tick, Game_tick, bind, modify, gets. simpl.
  by rewrite Hact.
Qed.

(** The outcomes of [tick] on an active session. *)
Lemma tick_active_val (g g' : Game) (st : Status) :
  _is_active g = true ->
  tick g = (g', Val st) ->
  let g0 := set_curr_tick (curr_tick g + 1) g in
  exists g1 nr, needs_reset g0 = (g1, Val nr) /\
    if nr then reset g1 = (g', Val tt) /\ st = RESET
    else exists g2 fin, apply_actions g1 = (g2, Val tt) /\
           is_finished g2 = (g', Val fin) /\
           st = (if fin then DONE else ACTIVE).
Proof.
  intros Hact Hrun g0. unfold tick in Hrun.
  apply bind_val in Hrun as ([] & ? & [= <-] & Hrun). fold g0 in Hrun.
  unfold Game_tick in Hrun.
  apply bind_val in Hrun as (? & ? & [= <- <-] & Hrun).
  simpl in Hrun. rewrite Hact in Hrun. simpl in Hrun.
  apply bind_val in Hrun as (nr & g1 & Hnr & Hrun).
  exists g1, nr. split; [done|]. destruct nr.
  - apply bind_val in Hrun as ([] & ? & Hreset & [= <- <-]). done.
  - apply bind_val in Hrun as ([] & g2 & Happly & Hrun).
    apply bind_val in Hrun as (fin & ? & Hfin & [= <- <-]).
    by exists g2, fin.
Qed.

(** X1: A tick of an [OvercookedGame] that returns [ACTIVE] or [DONE] has
    taken exactly one step of the engine: from the state and layout the
    session had, with a joint action of one entry per slot; the score has
    grown by the rewards of that step, the trajectory by one record
    stamped with the new tick number, and the tick counter by one.
    [DONE] is returned only when no layout is left to play. *)
Theorem tick_step (g g' : Game) (st : Status) :
  kind g = OvercookedGame ->
  tick g = (g', Val st) ->
  st = ACTIVE \/ st = DONE ->
  exists layout prev ja t,
    state g = Some prev /\ curr_layout g = Some layout /\
    length ja = length (players g) /\
    state g' = Some (fst (get_state_transition layout prev ja)) /\
    score g' =
      num_add (score g) (sum_list (snd (get_state_transition layout prev ja))) /\
    trajectory g' = (trajectory g ++ [t])%list /\
    t_state t = prev /\ t_joint_action t = ja /\
    t_cur_gameloop t = curr_tick g + 1 /\
    curr_tick g' = curr_tick g + 1 /\
    players g' = players g /\
    (st = DONE -> layouts g = []).
Proof.
  intros Hkind Hrun Hst.
  assert (Hact : _is_active g = true).
  { destruct (_is_active g) eqn:Hact; [done|].
    rewrite tick_not_active in Hrun by done. injection Hrun as <- <-.
    by destruct Hst. }
  destruct (tick_active_val g g' st Hact Hrun) as (g1 & nr & Hnr & Hrest).
  destruct nr; [destruct Hrest as [_ ->]; by destruct Hst|].
  destruct Hrest as (g2 & fin & Happly & Hfin & Hstatus).
  pose proof (fun B (f : Game -> B) H =>
    keeps_val f _ _ _ _ (needs_reset_keeps f H) Hnr) as K1.
  pose proof (fun B (f : Game -> B) H =>
    keeps_val f _ _ _ _ (is_finished_keeps f H) Hfin) as K2.
  unfold apply_actions in Happly. rewrite (K1 _ kind) in Happly by done.
  simpl in Happly. rewrite Hkind in Happly.
  apply bind_val in Happly as ([[prev ja] info] & g2' & Happly & [= <-]).
  destruct (OvercookedGame_apply_actions_val _ _ _ _ _ Happly)
    as (layout & t & ga & _ & Hprev & Hlayout & Hlen & -> & Hstate & Hscore & Htraj
        & Hts & Htj & _ & _ & Htick & Hps & Hct & _ & Hls & Hk & _).
  rewrite (K1 _ state) in Hprev by done.
  rewrite (K1 _ curr_layout) in Hlayout by done.
  rewrite (K1 _ players) in Hlen, Hps by done.
  rewrite (K1 _ score) in Hscore by done.
  rewrite (K1 _ trajectory) in Htraj by done.
  rewrite (K1 _ curr_tick) in Htick, Hct by done.
  rewrite (K1 _ layouts) in Hls by done.
  rewrite (K1 _ kind) in Hk by done.
  simpl in *.
  exists layout, prev, ja, t.
  split; [done|]. split; [done|]. split; [done|].
  split; [by rewrite (K2 _ state)|].
  split; [by rewrite (K2 _ score)|].
  split; [by rewrite (K2 _ trajectory)|].
  split; [done|]. split; [done|]. split; [done|].
  split; [by rewrite (K2 _ curr_tick)|].
  split; [by rewrite (K2 _ players)|].
  intros ->. destruct fin; [|done].
  unfold is_finished in Hfin. rewrite Hk, Hkind in Hfin.
  unfold OvercookedGame_is_finished, bind, gets in Hfin.
  rewrite Hls in Hfin. by destruct (layouts g).
Qed.

(** *** Activation, deactivation, reset *)

#[local] Instance respects_preorder {S B : Type} (P : B -> Prop) (f : S -> B) :
  PreOrder (respects P f).
Proof.
  split; [intros x Hx; exact Hx|].
  intros x y z Hxy Hyz Hx. apply Hyz, Hxy, Hx.
Qed.


Lemma clear_pending_actions_keeps {B : Type} (f : Game -> B) :
  (forall v g, f (set_pending_actions v g) = f g) ->
  preserves (keeps f) clear_pending_actions.
Proof. intros Hf. unfold clear_pending_actions, clear_slot. preserve_game. Qed.

Lemma deactivate_keeps {B : Type} (f : Game -> B) :
  (forall v g, f (set_is_active v g) = f g) ->
  (forall v g, f (set_npc_state_queues v g) = f g) ->
  (forall v g, f (set_pending_actions v g) = f g) ->
  preserves (keeps f) deactivate.
Proof.
  intros H1 H2 H3. unfold deactivate. preserve_game.
  - apply H1.
  - by apply clear_pending_actions_keeps.
Qed.

(** The loop of [activate] over the automated players. *)
Lemma activate_loop_keeps {B : Type} (f : Game -> B) (ids : list string) :
  (forall v g, f (set_npc_policies v g) = f g) ->
  (forall v g, f (set_npc_state_queues v g) = f g) ->
  (forall v g, f (set_threads v g) = f g) ->
  preserves (keeps f) (for_each ids (fun npc_policy =>
      pols <- gets npc_policies ;;
      pol <- lookup_or KeyError (alist_get npc_policy pols) ;;
      modify (set_npc_policies (alist_set npc_policy (policy_reset pol) pols)) ;;;
      qs <- gets npc_state_queues ;;
      _ <- lookup_or KeyError (qs !! npc_policy) ;;
      s <- attr state ;;
      push_state npc_policy s ;;;
      modify (fun g => set_threads (threads g ++ [npc_policy]) g))).
Proof. intros H1 H2 H3. preserve_game; [apply H1|apply H3]. Qed.

(** A normal return of [activate]. *)
Lemma activate_val (g g' : Game) :
  activate g = (g', Val tt) ->
  exists layout,
    last (layouts g) = Some layout /\
    npc_players g ∪ human_players g = list_to_set (players g) /\
    layouts g' = removelast (layouts g) /\
    curr_layout g' = Some layout /\
    state g' = Some (get_standard_start_state layout) /\
    start_time g' = Some (wall_clock (clock g)) /\
    clock g' = S (clock g) /\
    curr_tick g' = 0 /\ score g' = Fin 0 /\ _is_active g' = true /\
    forall B (f : Game -> B),
      (forall v g, f (set_is_active v g) = f g) ->
      (forall v g, f (set_layouts v g) = f g) ->
      (forall v g, f (set_curr_layout v g) = f g) ->
      (forall v g, f (set_state v g) = f g) ->
      (forall v g, f (set_clock v g) = f g) ->
      (forall v g, f (set_start_time v g) = f g) ->
      (forall v g, f (set_curr_tick v g) = f g) ->
      (forall v g, f (set_score v g) = f g) ->
      (forall v g, f (set_threads v g) = f g) ->
      (forall v g, f (set_npc_policies v g) = f g) ->
      (forall v g, f (set_npc_state_queues v g) = f g) ->
      f g' = f g.
Proof.
  unfold activate. intros Hrun.
  apply bind_val in Hrun as ([] & ? & [= <-] & Hrun).
  apply bind_val in Hrun as (ok & ? & [= <- <-] & Hrun).
  simpl in Hrun. case_bool_decide as Hok; simpl in Hrun; [|discriminate].
  apply bind_val in Hrun as (ls & ? & [= <- <-] & Hrun). simpl in Hrun.
  apply bind_val in Hrun as (layout & ? & [Hlast ->]%lookup_or_val & Hrun).
  apply bind_val in Hrun as ([] & ? & [= <-] & Hrun).
  apply bind_val in Hrun as ([] & ? & [= <-] & Hrun).
  apply bind_val in Hrun as ([] & ? & [= <-] & Hrun).
  apply bind_val in Hrun as (now & ? & [-> ->]%time_val & Hrun).
  apply bind_val in Hrun as ([] & ? & [= <-] & Hrun).
  apply bind_val in Hrun as ([] & ? & [= <-] & Hrun).
  apply bind_val in Hrun as ([] & ? & [= <-] & Hrun).
  apply bind_val in Hrun as ([] & ? & [= <-] & Hrun).
  apply bind_val in Hrun as (ids & ? & [= <- <-] & Hrun).
  pose proof (fun B (f : Game -> B) H1 H2 H3 =>
    keeps_val f _ _ _ _ (activate_loop_keeps f _ H1 H2 H3) Hrun) as K.
  exists layout. split; [done|]. split; [done|].
  split; [by rewrite (K _ layouts)|].
  split; [by rewrite (K _ curr_layout)|].
  split; [by rewrite (K _ state)|].
  split; [by rewrite (K _ start_time)|].
  split; [by rewrite (K _ clock)|].
  split; [by rewrite (K _ curr_tick)|].
  split; [by rewrite (K _ score)|].
  split; [by rewrite (K _ _is_active)|].
  intros B f H1 H2 H3 H4 H5 H6 H7 H8 H9 H10 H11.
  by rewrite (K _ f), H9, H8, H7, H6, H5, H4, H3, H2, H1.
Qed.

Lemma _curr_game_over_val (g g' : Game) (over : bool) :
  _curr_game_over g = (g', Val over) ->
  exists start, start_time g = Some start /\
    g' = set_clock (S (clock g)) g /\
    over = (1000 * max_time g <=? wall_clock (clock g) - start).
Proof.
  unfold _curr_game_over. intros Hrun.
  apply bind_val in Hrun as (now & ? & [-> ->]%time_val & Hrun).
  apply bind_val in Hrun as (start & ? & [Hstart ->]%attr_val & Hrun).
  apply bind_val in Hrun as (limit & ? & [= <- <-] & Hrun).
  injection Hrun as <- <-. by exists start.
Qed.

(** [Game.reset] on an active session with a layout left. *)
Lemma Game_reset_val (g g' : Game) (st : Status) :
  Game_reset g = (g', Val st) ->
  layouts g ≠ [] ->
  st = RESET /\ exists g1, deactivate g = (g1, Val tt) /\ activate g1 = (g', Val tt).
Proof.
  unfold Game_reset. intros Hrun Hls.
  apply bind_val in Hrun as (act & ? & [= <- <-] & Hrun).
  destruct (_is_active g); simpl in Hrun; [|discriminate].
  apply bind_val in Hrun as (fin & g0 & Hfin & Hrun).
  assert (fin = false /\ g0 = g) as [-> ->].
  { unfold is_finished, OvercookedGame_is_finished,
      OvercookedTutorial_is_finished, bind, gets in Hfin.
    destruct (layouts g); [done|]. by destruct (kind g); injection Hfin as <- <-. }
  apply bind_val in Hrun as ([] & g1 & Hde & Hrun).
  apply bind_val in Hrun as ([] & g2 & Hact & [= <- <-]).
  split; [done|]. by exists g1.
Qed.

(** X2: A tick of an [OvercookedGame] that returns [RESET], the clock not
    running backwards between its first two readings: the time of the
    current layout was up and another layout was left; that layout, the
    last of the list, is now being played from its start state, with
    score and tick counter at zero, and the timer of the new round starts
    [reset_timeout] (3000 ms) after the reset. *)
Theorem tick_reset_effect (g g' : Game) :
  kind g = OvercookedGame ->
  tick g = (g', Val RESET) ->
  wall_clock (clock g) <= wall_clock (S (clock g)) ->
  exists layout start,
    start_time g = Some start /\
    1000 * max_time g <= wall_clock (clock g) - start /\
    last (layouts g) = Some layout /\
    layouts g' = removelast (layouts g) /\
    curr_layout g' = Some layout /\
    state g' = Some (get_standard_start_state layout) /\
    score g' = Fin 0 /\ curr_tick g' = 0 /\ _is_active g' = true /\
    start_time g' = Some (wall_clock (S (clock g)) + 3000) /\
    players g' = players g /\ trajectory g' = trajectory g.
Proof.
  intros Hkind Hrun Hmono.
  assert (Hact : _is_active g = true).
  { destruct (_is_active g) eqn:Hact; [done|].
    by rewrite tick_not_active in Hrun. }
  destruct (tick_active_val g g' RESET Hact Hrun) as (g1 & nr & Hnr & Hrest).
  destruct nr; [|by destruct Hrest as (? & [] & _ & _ & ?)].
  destruct Hrest as [Hreset _].
  (* why a reset was needed *)
  unfold needs_reset in Hnr. simpl in Hnr. rewrite Hkind in Hnr.
  unfold OvercookedGame_needs_reset in Hnr.
  apply bind_val in Hnr as (over & ga & Hover & Hnr).
  apply _curr_game_over_val in Hover as (start & Hstart & -> & ->).
  simpl in Hstart, Hnr.
  destruct (1000 * max_time g <=? wall_clock (clock g) - start) eqn:Hup;
    [|discriminate].
  apply Z.leb_le in Hup.
  apply bind_val in Hnr as (fin & ? & Hfin & [= <- Hfin']).
  apply negb_true_iff in Hfin'. subst fin.
  unfold is_finished in Hfin. simpl in Hfin. rewrite Hkind in Hfin.
  unfold OvercookedGame_is_finished in Hfin.
  apply bind_val in Hfin as (ls & ? & [= <- <-] & Hfin). simpl in Hfin.
  destruct (layouts g) as [|l ls] eqn:Hls.
  { apply _curr_game_over_val in Hfin as (start' & Hstart' & _ & Hover).
    simpl in Hstart', Hover. symmetry in Hover. apply Z.leb_gt in Hover.
    assert (start' = start) by congruence. lia. }
  injection Hfin as <-.
  (* the reset *)
  set (g0 := set_clock _ _) in Hreset.
  unfold reset in Hreset.
  replace (kind g0) with OvercookedGame in Hreset by done.
  unfold OvercookedGame_reset in Hreset.
  apply bind_val in Hreset as (st & g3 & Hgr & Hreset).
  apply Game_reset_val in Hgr as [-> (g2 & Hde & Hactv)];
    [|by (simpl; rewrite Hls)].
  apply bind_val in Hreset as (start3 & ? & [Hstart3 ->]%attr_val & Hreset).
  apply bind_val in Hreset as (timeout & ? & [= <- <-] & Hreset).
  injection Hreset as <-.
  pose proof (fun B (f : Game -> B) H1 H2 H3 =>
    keeps_val f _ _ _ _ (deactivate_keeps f H1 H2 H3) Hde) as K.
  destruct (activate_val _ _ Hactv)
    as (layout & Hlast & _ & Hlayouts & Hcurr & Hstate & Hst & _ & Htick
        & Hscore & Hactive & Hsame).
  rewrite (K _ layouts) in Hlast, Hlayouts by done.
  rewrite (K _ clock) in Hst by done.
  simpl in Hlast, Hlayouts, Hst. rewrite Hls in Hlast, Hlayouts.
  assert (Hkind3 : kind g3 = OvercookedGame).
  { rewrite (Hsame _ kind) by done. by rewrite (K _ kind). }
  exists layout, start.
  split; [done|]. split; [done|]. split; [done|]. split; [done|].
  split; [done|]. split; [done|]. split; [done|]. split; [done|].
  split; [done|].
  split.
  { simpl. unfold reset_timeout. rewrite Hkind3.
    rewrite Hst in Hstart3. by injection Hstart3 as <-. }
  split; simpl.
  - rewrite (Hsame _ players) by done. by rewrite (K _ players).
  - rewrite (Hsame _ trajectory) by done. by rewrite (K _ trajectory).
Qed.

(** *** What a tick leaves alone, whatever its outcome *)

Section TickFrame.
Context {B : Type} (f : Game -> B).
Hypothesis f_is_active : forall v g, f (set_is_active v g) = f g.
Hypothesis f_layouts : forall v g, f (set_layouts v g) = f g.
Hypothesis f_curr_layout : forall v g, f (set_curr_layout v g) = f g.
Hypothesis f_state : forall v g, f (set_state v g) = f g.
Hypothesis f_clock : forall v g, f (set_clock v g) = f g.
Hypothesis f_start_time : forall v g, f (set_start_time v g) = f g.
Hypothesis f_curr_tick : forall v g, f (set_curr_tick v g) = f g.
Hypothesis f_score : forall v g, f (set_score v g) = f g.
Hypothesis f_threads : forall v g, f (set_threads v g) = f g.
Hypothesis f_npc_policies : forall v g, f (set_npc_policies v g) = f g.
Hypothesis f_npc_state_queues : forall v g, f (set_npc_state_queues v g) = f g.
Hypothesis f_pending_actions : forall v g, f (set_pending_actions v g) = f g.
Hypothesis f_trajectory : forall v g, f (set_trajectory v g) = f g.
Hypothesis f_curr_phase : forall v g, f (set_curr_phase v g) = f g.
Hypothesis f_phase_two_finished :
  forall v g, f (set_phase_two_finished v g) = f g.

Lemma activate_keeps : preserves (keeps f) activate.
Proof using f_is_active f_layouts f_curr_layout f_state f_clock f_start_time
  f_curr_tick f_score f_threads f_npc_policies f_npc_state_queues.
  unfold activate. preserve_game; unfold keeps; auto.
Qed.

Lemma Game_reset_keeps : preserves (keeps f) Game_reset.
Proof using f_is_active f_layouts f_curr_layout f_state f_clock f_start_time
  f_curr_tick f_score f_threads f_npc_policies f_npc_state_queues
  f_pending_actions.
  unfold Game_reset. preserve_game.
  - by apply is_finished_keeps.
  - by apply deactivate_keeps.
  - apply activate_keeps.
Qed.

Lemma reset_keeps : preserves (keeps f) reset.
Proof using f_is_active f_layouts f_curr_layout f_state f_clock f_start_time
  f_curr_tick f_score f_threads f_npc_policies f_npc_state_queues
  f_pending_actions f_curr_phase.
  assert (H1 : preserves (keeps f) OvercookedGame_reset).
  { unfold OvercookedGame_reset. preserve_game;
      first [apply Game_reset_keeps|apply f_start_time]. }
  assert (H2 : preserves (keeps f) OvercookedTutorial_reset).
  { unfold OvercookedTutorial_reset. preserve_game. apply f_curr_phase. }
  intros g. unfold reset. destruct (kind g); [apply H1|apply H2].
Qed.

Lemma tick_keeps : preserves (keeps f) tick.
Proof using All.
  unfold tick, Game_tick. preserve_game.
  - apply f_curr_tick.
  - by apply needs_reset_keeps.
  - apply reset_keeps.
  - by apply apply_actions_keeps.
  - by apply is_finished_keeps.
Qed.

End TickFrame.

(** X3: Whatever a tick does and however it ends, the session is the same
    object of the same class with the same participants: its id, its
    slots, its spectators, the sets of human and automated players and
    the limits set at construction are as before. *)
Theorem tick_leaves_membership (g : Game) :
  let g' := fst (tick g) in
  id g' = id g /\ kind g' = kind g /\ players g' = players g /\
  spectators g' = spectators g /\ human_players g' = human_players g /\
  npc_players g' = npc_players g /\ max_players g' = max_players g /\
  max_time g' = max_time g /\
  ticks_per_ai_action g' = ticks_per_ai_action g.
Proof.
  intros g'.
  pose proof (fun B (f : Game -> B) H1 H2 H3 H4 H5 H6 H7 H8 H9 H10 H11 H12 H13
                  H14 H15 =>
    tick_keeps f H1 H2 H3 H4 H5 H6 H7 H8 H9 H10 H11 H12 H13 H14 H15 g) as K.
  repeat split; by apply K.
Qed.

(** *** The tutorial *)






(** *** The claims about [tick] *)






(** *** Slots *)

Lemma index_None (x : string) (l : list string) :
  index x l = None <-> x ∉ l.
Proof.
  induction l as [|y l IH]; simpl.
  - split; [intros _; apply not_elem_of_nil|done].
  - case_decide as Hy.
    + split; [done|]. intros Hout. exfalso. apply Hout. subst.
      apply list_elem_of_here.
    + rewrite not_elem_of_cons. destruct (index x l); simpl.
      * split; [done|]. intros [_ Hout]. by apply IH in Hout.
      * split; [|done]. intros _. split; [congruence|]. by apply IH.
Qed.

(** [l.index(x)] is the first position of [x]. *)
Lemma index_first (x : string) (l : list string) (i : nat) :
  index x l = Some i ->
  l !! i = Some x /\ forall j, (j < i)%nat -> l !! j ≠ Some x.
Proof.
  revert i. induction l as [|y l IH]; intros i; simpl; [done|].
  case_decide as Hy.
  - intros [= <-]. subst. split; [done|]. intros j Hj. lia.
  - destruct (index x l) as [k|]; simpl; [|done].
    intros [= <-]. destruct (IH k eq_refl) as [Hk Hfirst].
    split; [done|]. intros [|j] Hj; simpl; [congruence|].
    apply Hfirst. lia.
Qed.

Lemma list_assign_Some {A : Type} (i : nat) (v : A) (l : list A) :
  (i < length l)%nat -> list_assign i v l = Some (<[i := v]> l).
Proof. intros Hi. unfold list_assign. by rewrite decide_True. Qed.

(** The guards of [Game.add_player]: a full session and an active one
    refuse the player and stay as they are. *)
Lemma Game_add_player_refused (g : Game) (p : string) (idx : option nat)
    (b : Z) :
  is_full g = true \/ _is_active g = true ->
  exists msg, Game_add_player p idx b g = (g, Exc (ValueError msg)).
Proof.
  intros Hno. unfold Game_add_player, bind, gets.
  destruct (is_full g); simpl; [by eexists|].
  destruct Hno as [?|Hact]; [done|]. rewrite Hact. by eexists.
Qed.

(** Where [Game.add_player] puts the player. *)
Lemma Game_add_player_val (g : Game) (p : string) (idx : option nat) (b : Z) :
  is_full g = false -> _is_active g = false ->
  length (pending_actions g) = length (players g) ->
  let i := match idx with
           | Some (S k) => S k
           | _ => default (length (players g)) (index EMPTY (players g))
           end in
  let n := (i + 1 - length (players g))%nat in
  Game_add_player p idx b g =
  (set_pending_actions
     (<[i := Some (mkQueue b [])]> (pending_actions g ++ replicate n None)%list)
     (set_players (<[i := p]> (players g ++ replicate n EMPTY)%list) g), Val tt).
Proof.
  intros Hfull Hact Hlen i n.
  assert (Hi : (i < length (players g ++ replicate n EMPTY)%list)%nat).
  { rewrite length_app, length_replicate. unfold n. lia. }
  assert (Hi' : (i < length (pending_actions g ++ replicate n None)%list)%nat).
  { rewrite length_app, length_replicate, Hlen. unfold n. lia. }
  unfold Game_add_player, bind, gets. rewrite Hfull. simpl. rewrite Hact.
  simpl.
  assert (Hidx : (if match idx with None | Some 0%nat => true | _ => false end
                  then match index EMPTY (players g) with
                       | Some i0 => i0 | None => length (players g) end
                  else default 0%nat idx) = i).
  { unfold i. destruct idx as [[|k]|]; simpl; try done;
      by destruct (index EMPTY (players g)). }
  rewrite Hidx. fold n. unfold modify. simpl.
  rewrite list_assign_Some by done. simpl.
  by rewrite list_assign_Some by done.
Qed.

Lemma slots_ok_length (g : Game) :
  slots_ok g -> length (pending_actions g) = length (players g).
Proof. intros Hok. symmetry. by eapply Forall2_length. Qed.

Lemma set_human_players_slots_ok (v : gset string) (g : Game) :
  slots_ok (set_human_players v g) <-> slots_ok g.
Proof. done. Qed.

(** X4: [OvercookedGame.add_player] on a session that is neither full nor
    active: the player gets slot [idx] when an index from 1 on is given,
    else ([idx] left out, or 0) the first vacant slot or, without one, a
    new slot at the end; the slot gets a fresh queue of capacity
    [buff_size]; slots in between are padded with [EMPTY], the other
    slots are untouched; the player is recorded as human or automated. *)
Theorem add_player_placement (g : Game) (p : string) (idx : option nat)
    (b : Z) (h : bool) :
  is_full g = false -> _is_active g = false -> slots_ok g -> p ≠ EMPTY ->
  exists i g',
    add_player p idx b h g = (g', Val tt) /\
    match idx with
    | Some (S k) => i = S k
    | _ => (forall j, (j < i)%nat -> players g !! j ≠ Some EMPTY) /\
           (players g !! i = Some EMPTY \/
            (i = length (players g) /\ EMPTY ∉ players g))
    end /\
    players g' !! i = Some p /\
    pending_actions g' !! i = Some (Some (mkQueue b [])) /\
    (forall j, j ≠ i -> (j < length (players g))%nat ->
       players g' !! j = players g !! j /\
       pending_actions g' !! j = pending_actions g !! j) /\
    (forall j, (length (players g) <= j < i)%nat ->
       players g' !! j = Some EMPTY) /\
    length (players g') = (length (players g) `max` S i)%nat /\
    slots_ok g' /\
    human_players g' = (if h then human_players g ∪ {[p]} else human_players g) /\
    npc_players g' = (if h then npc_players g else npc_players g ∪ {[p]}).
Proof.
  intros Hfull Hact Hok Hp.
  pose proof (slots_ok_length g Hok) as Hlen.
  pose proof (Game_add_player_val g p idx b Hfull Hact Hlen) as Hrun.
  cbv zeta in Hrun.
  set (i := match idx with
            | Some (S k) => S k
            | _ => default (length (players g)) (index EMPTY (players g))
            end) in *.
  set (n := (i + 1 - length (players g))%nat) in *.
  set (ps := (players g ++ replicate n EMPTY)%list) in *.
  set (pa := (pending_actions g ++ replicate n None)%list) in *.
  assert (Hi : (i < length ps)%nat).
  { unfold ps. rewrite length_app, length_replicate. unfold n. lia. }
  assert (Hi' : (i < length pa)%nat).
  { unfold pa. rewrite length_app, length_replicate, Hlen. unfold n. lia. }
  assert (Hwhere : match idx with
    | Some (S k) => i = S k
    | _ => (forall j, (j < i)%nat -> players g !! j ≠ Some EMPTY) /\
           (players g !! i = Some EMPTY \/
            (i = length (players g) /\ EMPTY ∉ players g))
    end).
  { assert (Hdef : i = default (length (players g)) (index EMPTY (players g)) ->
      (forall j, (j < i)%nat -> players g !! j ≠ Some EMPTY) /\
      (players g !! i = Some EMPTY \/
       (i = length (players g) /\ EMPTY ∉ players g))).
    { intros Hi0. destruct (index EMPTY (players g)) as [k|] eqn:Hk;
        simpl in Hi0.
      - destruct (index_first _ _ _ Hk) as [Hat Hbefore]. rewrite Hi0.
        split; [done|by left].
      - apply index_None in Hk. rewrite Hi0. split; [|by right].
        intros j Hj Hat. apply Hk. by eapply list_elem_of_lookup_2. }
    destruct idx as [[|k]|]; [by apply Hdef|done|by apply Hdef]. }
  set (g1 := set_pending_actions (<[i := Some (mkQueue b [])]> pa)
               (set_players (<[i := p]> ps) g)) in *.
  assert (Hok1 : slots_ok g1).
  { unfold slots_ok, g1. simpl. apply Forall2_insert.
    - unfold ps, pa. apply Forall2_app; [done|].
      apply Forall2_replicate. done.
    - split; [done|discriminate]. }
  exists i, (fst ((if h
     then modify (fun g => set_human_players (human_players g ∪ {[p]}) g)
     else modify (fun g => set_npc_players (npc_players g ∪ {[p]}) g)) g1)).
  split.
  { unfold add_player, bind. rewrite Hrun. by destruct h. }
  split; [done|].
  assert (Hps : forall g2 : Game, players g2 = <[i := p]> ps ->
    players g2 !! i = Some p /\
    (forall j, j ≠ i -> (j < length (players g))%nat ->
       players g2 !! j = players g !! j) /\
    (forall j, (length (players g) <= j < i)%nat ->
       players g2 !! j = Some EMPTY) /\
    length (players g2) = (length (players g) `max` S i)%nat).
  { intros g2 ->. split; [by apply list_lookup_insert_eq|]. split; [|split].
    - intros j Hj Hlt. rewrite list_lookup_insert_ne by done.
      unfold ps. by rewrite lookup_app_l.
    - intros j Hj. rewrite list_lookup_insert_ne by lia.
      unfold ps. rewrite lookup_app_r by lia.
      apply lookup_replicate_2. unfold n. lia.
    - rewrite length_insert. unfold ps.
      rewrite length_app, length_replicate. unfold n. lia. }
  assert (Hpa : forall g2 : Game,
    pending_actions g2 = <[i := Some (mkQueue b [])]> pa ->
    pending_actions g2 !! i = Some (Some (mkQueue b [])) /\
    (forall j, j ≠ i -> (j < length (players g))%nat ->
       pending_actions g2 !! j = pending_actions g !! j)).
  { intros g2 ->. split; [by apply list_lookup_insert_eq|].
    intros j Hj Hlt. rewrite list_lookup_insert_ne by done.
    unfold pa. rewrite lookup_app_l by lia. done. }
  destruct h; simpl;
    destruct (Hps g1 eq_refl) as (H1 & H2 & H3 & H4);
    destruct (Hpa g1 eq_refl) as (H5 & H6);
    repeat split; auto.
Qed.

Lemma Game_remove_player_absent (g : Game) (p : string) :
  p ∉ players g -> Game_remove_player p g = (g, Val false).
Proof.
  intros Hout. apply index_None in Hout.
  unfold Game_remove_player, bind, gets. by rewrite Hout.
Qed.

Lemma Game_remove_player_val (g : Game) (p : string) (i : nat) :
  index p (players g) = Some i ->
  length (pending_actions g) = length (players g) ->
  Game_remove_player p g =
  (set_pending_actions (<[i := None]> (pending_actions g))
     (set_players (<[i := EMPTY]> (players g)) g), Val true).
Proof.
  intros Hi Hlen. destruct (index_first _ _ _ Hi) as [Hat _].
  apply lookup_lt_Some in Hat.
  unfold Game_remove_player, bind, gets. rewrite Hi. unfold modify. simpl.
  rewrite list_assign_Some by lia. done.
Qed.

(** X5: [OvercookedGame.remove_player]: an id that holds no slot changes
    nothing; otherwise the first slot holding it becomes [EMPTY], queue
    and all, the list keeps its length, and the id leaves the set of
    humans, or else the set of automated players.  An id in a slot but in
    neither set raises [ValueError] after the slot has been vacated. *)
Theorem remove_player_effect (g : Game) (p : string) :
  (p ∉ players g -> remove_player p g = (g, Val tt)) /\
  (p ∈ players g -> slots_ok g ->
   exists i g' r,
     remove_player p g = (g', r) /\
     players g !! i = Some p /\
     (forall j, (j < i)%nat -> players g !! j ≠ Some p) /\
     players g' = <[i := EMPTY]> (players g) /\
     pending_actions g' = <[i := None]> (pending_actions g) /\
     slots_ok g' /\
     if bool_decide (p ∈ human_players g) then
       r = Val tt /\ human_players g' = human_players g ∖ {[p]} /\
       npc_players g' = npc_players g
     else if bool_decide (p ∈ npc_players g) then
       r = Val tt /\ human_players g' = human_players g /\
       npc_players g' = npc_players g ∖ {[p]}
     else
       r = Exc (ValueError "Inconsistent state") /\
       human_players g' = human_players g /\ npc_players g' = npc_players g).
Proof.
  split.
  - intros Hout. unfold remove_player, bind.
    by rewrite Game_remove_player_absent.
  - intros Hin Hok.
    destruct (index p (players g)) as [i|] eqn:Hi;
      [|by apply index_None in Hi].
    destruct (index_first _ _ _ Hi) as [Hat Hfirst].
    pose proof (Game_remove_player_val g p i Hi (slots_ok_length g Hok)) as Hrun.
    set (g1 := set_pending_actions _ _) in Hrun.
    assert (Hok1 : slots_ok g1).
    { unfold slots_ok, g1. simpl. by apply Forall2_insert. }
    exists i.
    unfold remove_player, bind. rewrite Hrun. unfold gets. simpl.
    change (human_players g1) with (human_players g).
    change (npc_players g1) with (npc_players g).
    destruct (bool_decide (p ∈ human_players g)); simpl;
      [|change (npc_players g1) with (npc_players g);
        destruct (bool_decide (p ∈ npc_players g)); simpl];
      eexists _, _; (split; [reflexivity|]); by repeat split.
Qed.

Lemma union_singleton_difference (X : gset string) (p : string) :
  p ∉ X -> (X ∪ {[p]}) ∖ {[p]} = X.
Proof.
  intros Hp. apply set_eq. intros x.
  rewrite elem_of_difference, elem_of_union, elem_of_singleton.
  split; [by intros [[?|?] ?]|]. intros Hx. split; [by left|]. by intros ->.
Qed.

(** X6: A player who joins a waiting session and leaves it again leaves a
    vacant slot behind: the list of slots is as before when it had a
    vacant slot to give, and longer by one [EMPTY] slot when it had none.
    The sets of human and automated players are back as they were. *)
Theorem join_then_leave (g : Game) (p : string) (b : Z) (h : bool) :
  is_full g = false -> _is_active g = false -> slots_ok g -> p ≠ EMPTY ->
  p ∉ players g -> p ∉ human_players g -> p ∉ npc_players g ->
  exists g',
    (add_player p None b h ;;; remove_player p) g = (g', Val tt) /\
    players g' = (if bool_decide (EMPTY ∈ players g) then players g
                  else players g ++ [EMPTY])%list /\
    pending_actions g' = (if bool_decide (EMPTY ∈ players g)
                          then pending_actions g
                          else pending_actions g ++ [None])%list /\
    human_players g' = human_players g /\ npc_players g' = npc_players g.
Proof.
  intros Hfull Hact Hok Hp Hout Hh Hn.
  pose proof (slots_ok_length g Hok) as Hlen.
  pose proof (Game_add_player_val g p None b Hfull Hact Hlen) as Hadd.
  cbv zeta in Hadd.
  set (i := default (length (players g)) (index EMPTY (players g))) in *.
  set (n := (i + 1 - length (players g))%nat) in *.
  set (ps := (players g ++ replicate n EMPTY)%list) in *.
  set (pa := (pending_actions g ++ replicate n None)%list) in *.
  assert (Hshape : ps !! i = Some EMPTY /\ pa !! i = Some None /\
    ps = (if bool_decide (EMPTY ∈ players g) then players g
          else players g ++ [EMPTY])%list /\
    pa = (if bool_decide (EMPTY ∈ players g) then pending_actions g
          else pending_actions g ++ [None])%list).
  { unfold ps, pa, n, i.
    destruct (index EMPTY (players g)) as [k|] eqn:Hk; simpl.
    - destruct (index_Some _ _ _ Hk) as [Hat Hin].
      rewrite bool_decide_eq_true_2 by done.
      pose proof (lookup_lt_Some _ _ _ Hat) as Hlt.
      replace (k + 1 - length (players g))%nat with 0%nat by lia. simpl.
      rewrite !app_nil_r. split; [done|]. split; [|done].
      destruct (Forall2_lookup_l _ _ _ _ _ Hok Hat) as (q & Hq & Hiff).
      rewrite Hq. f_equal. by apply Hiff.
    - apply index_None in Hk. rewrite bool_decide_eq_false_2 by done.
      replace (length (players g) + 1 - length (players g))%nat
        with 1%nat by lia. simpl.
      split; [by rewrite lookup_app_r, Nat.sub_diag by lia|].
      split; [|done].
      by rewrite <- Hlen, lookup_app_r, Nat.sub_diag by lia. }
  destruct Hshape as (Hpsi & Hpai & Hps & Hpa).
  assert (Hi : (i < length ps)%nat) by by eapply lookup_lt_Some.
  assert (Hout' : p ∉ ps).
  { rewrite Hps. case_bool_decide; [done|].
    rewrite elem_of_app, list_elem_of_singleton. by intros [?|?]. }
  set (g1 := set_pending_actions (<[i := Some (mkQueue b [])]> pa)
               (set_players (<[i := p]> ps) g)) in *.
  set (g2 := fst ((if h
     then modify (fun g => set_human_players (human_players g ∪ {[p]}) g)
     else modify (fun g => set_npc_players (npc_players g ∪ {[p]}) g)) g1)).
  assert (Hadd2 : add_player p None b h g = (g2, Val tt)).
  { unfold add_player, bind. rewrite Hadd. unfold g2. by destruct h. }
  assert (Hidx : index p (players g2) = Some i).
  { assert (Hgen : forall (l : list string) (k : nat),
      p ∉ l -> (k < length l)%nat -> index p (<[k := p]> l) = Some k).
    { induction l as [|y l IH]; intros k Hl Hk; simpl in *; [lia|].
      apply not_elem_of_cons in Hl as [Hy Hl].
      destruct k as [|k]; simpl.
      - by rewrite decide_True.
      - rewrite decide_False by done. rewrite IH by (done || lia). done. }
    replace (players g2) with (<[i := p]> ps) by (unfold g2; by destruct h).
    by apply Hgen. }
  assert (Hlen2 : length (pending_actions g2) = length (players g2)).
  { replace (players g2) with (<[i := p]> ps) by (unfold g2; by destruct h).
    replace (pending_actions g2) with (<[i := Some (mkQueue b [])]> pa)
      by (unfold g2; by destruct h).
    rewrite !length_insert. unfold ps, pa.
    by rewrite !length_app, !length_replicate, Hlen. }
  pose proof (Game_remove_player_val g2 p i Hidx Hlen2) as Hrem.
  set (g3 := set_pending_actions _ _) in Hrem.
  assert (Hps3 : players g3 = ps).
  { unfold g3. simpl.
    replace (players g2) with (<[i := p]> ps) by (unfold g2; by destruct h).
    rewrite list_insert_insert_eq. by apply list_insert_id. }
  assert (Hpa3 : pending_actions g3 = pa).
  { unfold g3. simpl.
    replace (pending_actions g2) with (<[i := Some (mkQueue b [])]> pa)
      by (unfold g2; by destruct h).
    rewrite list_insert_insert_eq. by apply list_insert_id. }
  unfold bind. rewrite Hadd2. unfold remove_player, bind. rewrite Hrem.
  unfold gets.
  destruct h.
  - change (human_players g3) with (human_players g ∪ {[p]}).
    rewrite bool_decide_eq_true_2 by set_solver.
    eexists. split; [reflexivity|].
    split; [rewrite <- Hps; exact Hps3|].
    split; [rewrite <- Hpa; exact Hpa3|].
    split; [|done]. simpl. by apply union_singleton_difference.
  - change (human_players g3) with (human_players g).
    rewrite bool_decide_eq_false_2 by done.
    change (npc_players g3) with (npc_players g ∪ {[p]}).
    rewrite bool_decide_eq_true_2 by set_solver.
    eexists. split; [reflexivity|].
    split; [rewrite <- Hps; exact Hps3|].
    split; [rewrite <- Hpa; exact Hpa3|].
    split; [done|]. simpl. by apply union_singleton_difference.
Qed.

(** *** Spectators *)

(** X7: [Game.add_spectator] refuses an id that holds a slot;
    [Game.remove_spectator] of an id that is not a spectator raises
    [KeyError] (which its [except ValueError] does not catch); both leave
    the session as it is.  A spectator added and removed again leaves no
    trace. *)
Theorem spectators_add_remove (g : Game) (s : string) :
  (s ∈ players g ->
     add_spectator s g =
     (g, Exc (ValueError "Cannot spectate and play at same time"))) /\
  (s ∉ spectators g -> remove_spectator s g = (g, Exc KeyError)) /\
  (s ∉ players g ->
     exists g1, add_spectator s g = (g1, Val tt) /\
       spectators g1 = spectators g ∪ {[s]} /\
       (s ∉ spectators g -> remove_spectator s g1 = (g, Val true))).
Proof.
  split; [|split].
  - intros Hin. unfold add_spectator, bind, gets.
    by rewrite bool_decide_eq_true_2.
  - intros Hout. unfold remove_spectator, bind, gets.
    by rewrite bool_decide_eq_false_2.
  - intros Hout. unfold add_spectator, bind, gets.
    rewrite bool_decide_eq_false_2 by done.
    eexists. split; [reflexivity|]. split; [done|].
    intros Hs. unfold remove_spectator, bind, gets, modify. simpl.
    rewrite bool_decide_eq_true_2
      by (apply elem_of_union; right; by apply elem_of_singleton).
    rewrite union_singleton_difference by done.
    by destruct g.
Qed.

(** *** Key names *)

Lemma action_to_overcooked_action_None (key : string) :
  action_to_overcooked_action key = None <->
  key ∉ ["STAY"; "UP"; "DOWN"; "LEFT"; "RIGHT"; "SPACE"].
Proof.
  unfold action_to_overcooked_action.
  rewrite !not_elem_of_cons.
  repeat (case_decide; [split; [done|]; intros ?; tauto|]).
  split; [|done]. intros _. repeat (split; [done|]). apply not_elem_of_nil.
Qed.

(** X8: [OvercookedGame.enqueue_action] translates the client's key name
    before anything else: a name other than the six known ones raises
    [KeyError], whoever sends it and whatever the state of the session.
    A known key from someone without a slot, or for a session that is not
    active, is dropped; with room in the sender's queue the translated
    action is appended to it. *)
Theorem enqueue_action_effect (g : Game) (p key : string) :
  (key ∉ ["STAY"; "UP"; "DOWN"; "LEFT"; "RIGHT"; "SPACE"] ->
     enqueue_action p key g = (g, Exc KeyError)) /\
  (key ∈ ["STAY"; "UP"; "DOWN"; "LEFT"; "RIGHT"; "SPACE"] ->
     exists a, action_to_overcooked_action key = Some a /\
       (_is_active g = false \/ p ∉ players g ->
          enqueue_action p key g = (g, Val tt)) /\
       (forall idx q,
          _is_active g = true -> index p (players g) = Some idx ->
          pending_actions g !! idx = Some (Some q) -> qfull q = false ->
          enqueue_action p key g =
          (set_pending_actions
             (<[idx := Some (mkQueue (maxsize q) (items q ++ [a]))]>
                (pending_actions g)) g, Val tt))).
Proof.
  split.
  - intros Hkey%action_to_overcooked_action_None.
    unfold enqueue_action, bind. by rewrite Hkey.
  - intros Hkey.
    destruct (action_to_overcooked_action key) as [a|] eqn:Ha;
      [|by apply action_to_overcooked_action_None in Ha].
    exists a. split; [done|]. split.
    + intros Hrej. unfold enqueue_action, bind. rewrite Ha. simpl.
      by apply Game_enqueue_action_rejects.
    + intros idx q Hact Hidx Hq Hroom.
      unfold enqueue_action, bind. rewrite Ha. simpl.
      by apply Game_enqueue_action_appends.
Qed.

(** *** Handing over the trajectory *)

(** X9: [OvercookedGame.get_data] returns the transitions recorded since the
    last call and empties the record, so each transition is handed over
    once: a second call returns nothing.  Nothing else but the clock
    changes. *)
Theorem get_data_hands_over (g : Game) :
  write_data g = false \/ is_Some (curr_layout g) ->
  exists g1 g2,
    get_data g = (g1, Val (trajectory g)) /\ trajectory g1 = [] /\
    get_data g1 = (g2, Val []) /\
    g1 = set_trajectory [] (set_clock (S (clock g)) g).
Proof.
  intros Hcan.
  assert (Hrun : forall g0, write_data g0 = false \/ is_Some (curr_layout g0) ->
    get_data g0 =
    (set_trajectory [] (set_clock (S (clock g0)) g0), Val (trajectory g0))).
  { intros g0 Hcan0. unfold get_data, bind, time, gets, modify. simpl.
    destruct (write_data g0); simpl; [|done].
    destruct Hcan0 as [|[l Hl]]; [done|].
    case_bool_decide; simpl; [done|].
    unfold attr. simpl. rewrite Hl. done. }
  eexists _, _. split; [by apply Hrun|]. split; [done|].
  split; [|done]. by rewrite Hrun.
Qed.

(** *** The loops of [deactivate] and [activate] *)

Lemma on_queue_some {A : Type} (i : nat) (op : Queue Action -> Queue Action * res A)
    (g : Game) (q : Queue Action) :
  pending_actions g !! i = Some (Some q) ->
  on_queue i op g =
  (set_pending_actions (<[i := Some (fst (op q))]> (pending_actions g)) g,
   snd (op q)).
Proof. intros Hq. unfold on_queue. rewrite Hq. by destruct (op q). Qed.

(** The loop of [Game.clear_pending_actions] over the slots [idxs]. *)
Lemma clear_slots_val (idxs : list nat) :
  forall g : Game,
  slots_ok g ->
  (forall i, i ∈ idxs -> (i < length (players g))%nat) ->
  exists g',
    for_each idxs clear_slot g = (g', Val tt) /\
    forall i, pending_actions g' !! i =
      if bool_decide (i ∈ idxs)
      then fmap (fun q => mkQueue (maxsize q) []) <$> pending_actions g !! i
      else pending_actions g !! i.
Proof.
  induction idxs as [|i idxs IH]; intros g Hok Hin.
  - eexists. split; [done|]. intros i.
    by rewrite bool_decide_eq_false_2 by apply not_elem_of_nil.
  - destruct (lookup_lt_is_Some_2 (players g) i) as [p Hp];
      [apply Hin, list_elem_of_here|].
    destruct (Forall2_lookup_l _ _ _ _ _ Hok Hp) as (q & Hq & Hiff).
    assert (exists g1, clear_slot i g = (g1, Val tt) /\
      players g1 = players g /\
      pending_actions g1 =
        <[i := fmap (fun q => mkQueue (maxsize q) []) q]> (pending_actions g))
      as (g1 & Hone & Hps1 & Hpa1).
    { unfold clear_slot, bind, gets. rewrite Hp. simpl.
      case_bool_decide as Hne.
      - destruct q as [q|]; [|exfalso; by apply Hne, Hiff].
        rewrite (on_queue_some _ _ _ q) by done. simpl. by eexists.
      - apply Hiff in Hne as ->.
        exists g. split; [done|]. split; [done|].
        by rewrite list_insert_id. }
    assert (Hok1 : slots_ok g1).
    { unfold slots_ok. rewrite Hps1, Hpa1.
      rewrite <- (list_insert_id (players g) i p) by done.
      apply Forall2_insert; [done|].
      rewrite Hiff. by destruct q. }
    destruct (IH g1 Hok1) as (g' & Hrest & Hpa').
    { intros j Hj. rewrite Hps1. by apply Hin, list_elem_of_further. }
    exists g'. simpl. unfold bind. rewrite Hone. split; [done|].
    intros j. rewrite Hpa', Hpa1.
    destruct (decide (j = i)) as [->|Hji].
    + rewrite (bool_decide_eq_true_2 (i ∈ i :: idxs))
        by apply list_elem_of_here.
      rewrite list_lookup_insert_eq by (by eapply lookup_lt_Some).
      rewrite Hq. simpl. case_bool_decide; [|done]. by destruct q.
    + rewrite list_lookup_insert_ne by done.
      rewrite (bool_decide_ext (j ∈ idxs) (j ∈ i :: idxs)); [done|].
      rewrite elem_of_cons. split; [by right|]. by intros [?|?].
Qed.

(** X10: [Game.clear_pending_actions] on well-formed slots returns normally:
    every queue is emptied and keeps its capacity, vacant slots stay
    vacant, and no attribute other than [pending_actions] changes. *)
Theorem clear_pending_actions_empties (g : Game) :
  slots_ok g ->
  exists g',
    clear_pending_actions g = (g', Val tt) /\
    pending_actions g' =
      (fmap (M:=option) (fun q : Queue Action => mkQueue (maxsize q) [])
         <$> pending_actions g) /\
    (forall B (f : Game -> B),
       (forall v g, f (set_pending_actions v g) = f g) -> f g' = f g) /\
    slots_ok g'.
Proof.
  intros Hok. unfold clear_pending_actions.
  rewrite (bind_run _ _ g g (length (players g))) by done.
  destruct (clear_slots_val (seq 0 (length (players g))) g Hok)
    as (g' & Hrun & Hpa).
  { intros i [_ Hi]%elem_of_seq. lia. }
  assert (Hpa' : pending_actions g' =
    (fmap (M:=option) (fun q : Queue Action => mkQueue (maxsize q) [])
       <$> pending_actions g)).
  { apply list_eq. intros i. rewrite Hpa, list_lookup_fmap.
    case_bool_decide as Hi; [done|].
    rewrite elem_of_seq in Hi.
    rewrite lookup_ge_None_2; [done|].
    rewrite (slots_ok_length g Hok). lia. }
  assert (Hrest : forall B (f : Game -> B),
    (forall v g, f (set_pending_actions v g) = f g) -> f g' = f g).
  { intros B f Hf. refine (keeps_val f _ _ _ _ _ Hrun).
    unfold clear_slot. preserve_game. }
  exists g'. split; [done|]. split; [done|]. split.
  - intros B f Hf. by apply Hrest.
  - unfold slots_ok. rewrite Hpa', (Hrest _ players) by done.
    apply Forall2_fmap_r. eapply Forall2_impl; [exact Hok|].
    intros p q Hiff. destruct q as [q|]; simpl; [|exact Hiff].
    split; [intros Hp; by apply Hiff in Hp|discriminate].
Qed.

Lemma alist_get_set_ne {V : Type} (k k' : string) (v : V) (d : list (string * V)) :
  k ≠ k' -> alist_get k (alist_set k' v d) = alist_get k d.
Proof.
  intros Hne. induction d as [|[k0 v0] d IH]; simpl.
  - by rewrite decide_False.
  - destruct (decide (k0 = k')) as [->|Hk0]; simpl.
    + by rewrite !decide_False.
    + by rewrite IH.
Qed.

Lemma alist_get_is_Some {V : Type} (k : string) (d : list (string * V)) :
  is_Some (alist_get k d) <-> k ∈ d.*1.
Proof.
  induction d as [|[k0 v0] d IH]; simpl.
  - split; [by intros [? ?]|]. by intros ?%elem_of_nil.
  - rewrite elem_of_cons. case_decide as Hk; simpl.
    + split; [by left|by eexists].
    + rewrite IH. split; [by right|]. by intros [?|?].
Qed.

Lemma alist_set_keys {V : Type} (k : string) (v : V) (d : list (string * V)) :
  k ∈ d.*1 -> (alist_set k v d).*1 = d.*1.
Proof.
  induction d as [|[k0 v0] d IH]; simpl.
  - by intros ?%elem_of_nil.
  - intros Hin. case_decide as Hk; simpl; [by subst|].
    f_equal. apply IH. apply elem_of_cons in Hin as [?|?]; [by subst|done].
Qed.

(** The loop of [activate]: every automated player's policy is reset, the
    start state is put on its channel, and a worker is started for it. *)
Lemma activate_loop_val (ids : list string) (s : State) :
  forall g : Game,
  state g = Some s -> NoDup ids ->
  (forall x, x ∈ ids -> x ∈ npc_ids g /\ is_Some (npc_state_queues g !! x)) ->
  exists g',
    for_each ids (fun npc_policy =>
      pols <- gets npc_policies ;;
      pol <- lookup_or KeyError (alist_get npc_policy pols) ;;
      modify (set_npc_policies (alist_set npc_policy (policy_reset pol) pols)) ;;;
      qs <- gets npc_state_queues ;;
      _ <- lookup_or KeyError (qs !! npc_policy) ;;
      s <- attr state ;;
      push_state npc_policy s ;;;
      modify (fun g => set_threads (threads g ++ [npc_policy]) g)) g
    = (g', Val tt) /\
    threads g' = (threads g ++ ids)%list /\
    npc_ids g' = npc_ids g /\
    (forall x q, npc_state_queues g !! x = Some q ->
       npc_state_queues g' !! x =
       Some (if bool_decide (x ∈ ids) then s :: q else q)) /\
    (forall x pol, alist_get x (npc_policies g) = Some pol ->
       alist_get x (npc_policies g') =
       Some (if bool_decide (x ∈ ids) then policy_reset pol else pol)).
Proof.
  induction ids as [|x ids IH]; intros g Hs Hnd Hin.
  - exists g. split; [done|]. split; [by rewrite app_nil_r|]. split; [done|].
    split; intros y ? ?; by rewrite bool_decide_eq_false_2
      by apply not_elem_of_nil.
  - apply NoDup_cons in Hnd as [Hx Hnd].
    destruct (Hin x) as [Hkey [q Hq]]; [apply list_elem_of_here|].
    pose proof Hkey as Hpol. apply alist_get_is_Some in Hpol as [pol Hpol].
    set (g1 := set_threads (threads g ++ [x])
      (set_npc_state_queues (<[x := s :: q]> (npc_state_queues g))
         (set_npc_policies (alist_set x (policy_reset pol) (npc_policies g)) g))).
    assert (Hkeys1 : npc_ids g1 = npc_ids g).
    { unfold npc_ids, g1. simpl. by apply alist_set_keys. }
    destruct (IH g1) as (g' & Hrest & Hth & Hids & Hqs & Hpols); [done|done| |].
    { intros y Hy. destruct (Hin y) as [Hy1 Hy2];
        [by apply list_elem_of_further|].
      rewrite Hkeys1. split; [done|]. unfold g1. simpl.
      assert (y ≠ x) by (intros ->; done).
      by rewrite lookup_insert_ne. }
    exists g'. split.
    { simpl. rewrite (bind_run _ _ g g1 tt); [done|].
      rewrite (bind_run _ _ g g (npc_policies g)) by done. cbv beta.
      rewrite (bind_run _ _ g g pol) by (by rewrite Hpol). cbv beta.
      rewrite (bind_run _ _ g _ tt) by done. cbv beta.
      rewrite (bind_run _ _ _ _ (npc_state_queues g)) by done. cbv beta.
      rewrite (bind_run _ _ _ _ q) by (by rewrite Hq). cbv beta.
      rewrite (bind_run _ _ _ _ s) by (unfold attr; simpl; by rewrite Hs).
      cbv beta.
      erewrite bind_run; [|by apply push_state_some]. done. }
    split; [rewrite Hth; unfold g1; simpl; by rewrite <- app_assoc|].
    split; [congruence|].
    split.
    + intros y qy Hy. destruct (decide (y = x)) as [->|Hne].
      * assert (qy = q) as -> by congruence.
        rewrite (Hqs x (s :: q)) by (unfold g1; simpl; apply lookup_insert_eq).
        rewrite bool_decide_eq_false_2 by done.
        by rewrite bool_decide_eq_true_2 by apply list_elem_of_here.
      * rewrite (Hqs y qy) by (unfold g1; simpl; by rewrite lookup_insert_ne).
        rewrite (bool_decide_ext (y ∈ ids) (y ∈ x :: ids)); [done|].
        rewrite elem_of_cons. split; [by right|]. by intros [?|?].
    + intros y py Hy. destruct (decide (y = x)) as [->|Hne].
      * assert (py = pol) as -> by congruence.
        rewrite (Hpols x (policy_reset pol))
          by (unfold g1; simpl; apply alist_get_set).
        rewrite bool_decide_eq_false_2 by done.
        by rewrite bool_decide_eq_true_2 by apply list_elem_of_here.
      * rewrite (Hpols y py)
          by (unfold g1; simpl; by rewrite alist_get_set_ne).
        rewrite (bool_decide_ext (y ∈ ids) (y ∈ x :: ids)); [done|].
        rewrite elem_of_cons. split; [by right|]. by intros [?|?].
Qed.

(** The part of [activate] before its loop. *)
Lemma activate_run (g : Game) (layout : string) :
  npc_players g ∪ human_players g = list_to_set (players g) ->
  last (layouts g) = Some layout ->
  activate g =
  for_each (npc_ids g) (fun npc_policy =>
      pols <- gets npc_policies ;;
      pol <- lookup_or KeyError (alist_get npc_policy pols) ;;
      modify (set_npc_policies (alist_set npc_policy (policy_reset pol) pols)) ;;;
      qs <- gets npc_state_queues ;;
      _ <- lookup_or KeyError (qs !! npc_policy) ;;
      s <- attr state ;;
      push_state npc_policy s ;;;
      modify (fun g => set_threads (threads g ++ [npc_policy]) g))
    (set_threads [] (set_score (Fin 0) (set_curr_tick 0
      (set_start_time (Some (wall_clock (clock g)))
      (set_clock (S (clock g))
      (set_state (Some (get_standard_start_state layout))
      (set_curr_layout (Some layout)
      (set_layouts (removelast (layouts g)) (set_is_active true g))))))))).
Proof.
  intros Hsets Hlast. unfold activate.
  rewrite (bind_run _ _ g (set_is_active true g) tt) by done.
  rewrite (bind_run _ _ _ (set_is_active true g) true)
    by (unfold gets; simpl; by rewrite bool_decide_eq_true_2).
  simpl.
  rewrite (bind_run _ _ _ (set_is_active true g) (layouts g)) by done.
  rewrite (bind_run _ _ _ (set_is_active true g) layout)
    by (simpl; by rewrite Hlast).
  reflexivity.
Qed.

(** X11: [OvercookedGame.activate] when the sets of players agree with the
    slots and a layout is left: the last layout of the list is taken off
    and becomes the current one, the session starts from its start state
    at the time of the call with score and tick counter at zero, and
    every automated player has its policy reset, the start state on top
    of its channel and a worker started. *)
Theorem activate_effect (g : Game) (layout : string) :
  npc_players g ∪ human_players g = list_to_set (players g) ->
  last (layouts g) = Some layout ->
  NoDup (npc_ids g) ->
  (forall x, x ∈ npc_ids g -> is_Some (npc_state_queues g !! x)) ->
  exists g',
    activate g = (g', Val tt) /\
    _is_active g' = true /\
    layouts g' = removelast (layouts g) /\
    curr_layout g' = Some layout /\
    state g' = Some (get_standard_start_state layout) /\
    start_time g' = Some (wall_clock (clock g)) /\
    curr_tick g' = 0 /\ score g' = Fin 0 /\
    threads g' = npc_ids g /\
    (forall x q, npc_state_queues g !! x = Some q ->
       npc_state_queues g' !! x =
       Some (if bool_decide (x ∈ npc_ids g)
             then get_standard_start_state layout :: q else q)) /\
    (forall x pol, alist_get x (npc_policies g) = Some pol ->
       alist_get x (npc_policies g') = Some (policy_reset pol)) /\
    players g' = players g /\ pending_actions g' = pending_actions g.
Proof.
  intros Hsets Hlast Hnd Hch.
  pose proof (activate_run g layout Hsets Hlast) as Hrun.
  set (s := get_standard_start_state layout) in *.
  set (g0 := set_threads [] _) in Hrun.
  assert (Hs0 : state g0 = Some s) by reflexivity.
  assert (Hids0 : npc_ids g0 = npc_ids g) by reflexivity.
  assert (Hqs0 : npc_state_queues g0 = npc_state_queues g) by reflexivity.
  assert (Hpols0 : npc_policies g0 = npc_policies g) by reflexivity.
  assert (Hth0 : threads g0 = []) by reflexivity.
  clearbody g0.
  destruct (activate_loop_val (npc_ids g) s g0 Hs0 Hnd)
    as (g' & Hloop & Hth & _ & Hqs & Hpols).
  { intros x Hx. rewrite Hids0, Hqs0. split; [done|by apply Hch]. }
  rewrite Hloop in Hrun.
  destruct (activate_val _ _ Hrun) as (layout' & Hlast' & _ & H1 & H2 & H3 & H4
    & _ & H5 & H6 & H7 & Hsame).
  assert (layout' = layout) as -> by congruence.
  rewrite Hth0 in Hth. rewrite Hqs0 in Hqs. rewrite Hpols0 in Hpols.
  exists g'.
  split; [exact Hrun|]. split; [exact H7|]. split; [exact H1|].
  split; [exact H2|]. split; [exact H3|]. split; [exact H4|].
  split; [exact H5|]. split; [exact H6|]. split; [exact Hth|].
  split; [exact Hqs|].
  split.
  { intros x pol Hpol. rewrite (Hpols x pol Hpol).
    rewrite bool_decide_eq_true_2; [done|].
    apply alist_get_is_Some. by eexists. }
  split; [by rewrite (Hsame _ players)|by rewrite (Hsame _ pending_actions)].
Qed.

(** X12: When [activate] fails, the session has been marked active already:
    with sets of players that disagree with the slots it raises
    [ValueError], with no layout left [IndexError], and in both cases
    nothing has changed except that [_is_active] is now true. *)
Theorem activate_failure_leaves_active (g : Game) :
  (npc_players g ∪ human_players g ≠ list_to_set (players g) ->
     activate g = (set_is_active true g, Exc (ValueError "Inconsistent State"))) /\
  (npc_players g ∪ human_players g = list_to_set (players g) ->
     layouts g = [] ->
     activate g = (set_is_active true g, Exc IndexError)).
Proof.
  split.
  - intros Hsets. unfold activate.
    rewrite (bind_run _ _ g _ tt) by done.
    rewrite (bind_run _ _ _ _ false)
      by (unfold gets; simpl; by rewrite bool_decide_eq_false_2).
    done.
  - intros Hsets Hls. unfold activate.
    rewrite (bind_run _ _ g _ tt) by done.
    rewrite (bind_run _ _ _ _ true)
      by (unfold gets; simpl; by rewrite bool_decide_eq_true_2).
    simpl. rewrite (bind_run _ _ _ _ (layouts g)) by done.
    simpl. rewrite Hls. done.
Qed.

(** *** The waiting list and the id allocator *)

Lemma next_waiting_skips (stale rest : list nat) (i : nat) (fm : gmap nat bool) :
  (forall j, j ∈ stale -> fm !! j = Some true) ->
  fm !! i = Some false ->
  next_waiting (stale ++ i :: rest) fm = (rest, Val (Some i)).
Proof.
  intros Hstale Hi. induction stale as [|j stale IH]; simpl.
  - by rewrite Hi.
  - rewrite (Hstale j) by apply list_elem_of_here.
    apply IH. intros k Hk. by apply Hstale, list_elem_of_further.
Qed.

Lemma next_waiting_all_stale (stale : list nat) (fm : gmap nat bool) :
  (forall j, j ∈ stale -> fm !! j = Some true) ->
  next_waiting stale fm = ([], Val None).
Proof.
  intros Hstale. induction stale as [|j stale IH]; simpl; [done|].
  rewrite (Hstale j) by apply list_elem_of_here.
  apply IH. intros k Hk. by apply Hstale, list_elem_of_further.
Qed.

(** X15: [get_waiting_game] takes ids off [WAITING_GAMES] until it finds one
    that is not marked free, and returns the session registered under it;
    the ids before it, whose sessions are gone, are dropped from the list.
    When every id in the list is marked free (or the list is empty) the
    list ends up empty and the answer is "none". *)
Theorem get_waiting_game_skips_freed (w : World) (stale : list nat) :
  (forall j, j ∈ stale -> FREE_MAP w !! j = Some true) ->
  (forall i rest,
     items (WAITING_GAMES w) = (stale ++ i :: rest)%list ->
     FREE_MAP w !! i = Some false ->
     get_waiting_game w =
     (set_WAITING_GAMES (mkQueue (maxsize (WAITING_GAMES w)) rest) w,
      Val (GAMES w !! i))) /\
  (items (WAITING_GAMES w) = stale ->
     get_waiting_game w =
     (set_WAITING_GAMES (mkQueue (maxsize (WAITING_GAMES w)) []) w, Val None)).
Proof.
  intros Hstale. split.
  - intros i rest Hitems Hi. unfold get_waiting_game.
    rewrite Hitems, (next_waiting_skips stale rest i) by done. done.
  - intros Hitems. unfold get_waiting_game.
    rewrite Hitems, next_waiting_all_stale by done. done.
Qed.

Lemma Game_add_player_keeps {B : Type} (f : Game -> B) (p : string)
    (idx : option nat) (b : Z) :
  (forall v g, f (set_players v g) = f g) ->
  (forall v g, f (set_pending_actions v g) = f g) ->
  preserves (keeps f) (Game_add_player p idx b).
Proof.
  intros H1 H2. unfold Game_add_player. preserve_game;
    first [apply H1|apply H2].
Qed.

Lemma get_policy_keeps {B : Type} (f : Game -> B) (npc_id : string) :
  preserves (keeps f) (get_policy npc_id).
Proof.
  intros g. unfold get_policy, keeps.
  destruct (kind g); [|done]. by destruct (pickle_load npc_id).
Qed.

(** The constructors leave [self.id] as [Game.__init__] set it. *)
Lemma new_game_id (cls : GameKind) (i : nat) (p : Params) (g : Game) :
  new_game cls i p = Val g -> id g = i.
Proof.
  assert (Hnpc : forall player suffix idx,
            preserves (keeps id) (init_npc player suffix idx)).
  { intros player suffix idx. unfold init_npc, add_player.
    repeat first
      [ preserve_by @Game_add_player_keeps
      | preserve_by @get_policy_keeps
      | preserve_step ]; done. }
  assert (H1 : preserves (keeps id) (OvercookedGame_init p)).
  { unfold OvercookedGame_init.
    repeat first [apply Hnpc | preserve_step]; done. }
  assert (H2 : preserves (keeps id) (OvercookedTutorial_init p)).
  { unfold OvercookedTutorial_init.
    repeat first [apply H1 | preserve_step]; done. }
  unfold new_game. intros Hnew.
  destruct cls.
  - specialize (H1 (Game_init OvercookedGame i)). unfold keeps in H1.
    destruct (OvercookedGame_init p _) as [g' [[]| |]]; [|done..].
    by injection Hnew as <-.
  - specialize (H2 (Game_init OvercookedTutorial i)). unfold keeps in H2.
    destruct (OvercookedTutorial_init p _) as [g' [[]| |]]; [|done..].
    by injection Hnew as <-.
Qed.

(** The outcomes of the [try] block of [try_create_game]. *)
Lemma try_create_game_body_cases (name : string) (p : Params) (w : World) :
  match items (FREE_IDS w) with
  | [] => try_create_game_body name p w = (w, Exc Empty)
  | i :: rest =>
      let w1 := set_FREE_IDS (mkQueue (maxsize (FREE_IDS w)) rest) w in
      match FREE_MAP w !! i with
      | None => try_create_game_body name p w = (w1, Exc KeyError)
      | Some false =>
          try_create_game_body name p w =
          (w1, Exc (AssertionError "Current id is already in use"))
      | Some true =>
          try_create_game_body name p w =
          (w1, match new_game (game_cls_of name) i p with
               | Val g => Val g
               | Exc e => Exc e
               | Blocks => Blocks
               end)
      end
  end.
Proof.
  unfold try_create_game_body, bind, on_FREE_IDS, get_nowait.
  destruct (items (FREE_IDS w)) as [|i rest] eqn:Hids; simpl.
  - by rewrite set_FREE_IDS_id.
  - unfold gets, lookup_or. simpl.
    destruct (FREE_MAP w !! i) as [[|]|]; simpl; try done.
    by destruct (new_game _ _ _).
Qed.

(** X16: [try_create_game] with a consistent allocator: the id handed out is
    the head of [FREE_IDS]; the new session carries it, is registered
    under it in [GAMES], and the id is marked used.  A failed creation
    registers nothing.  Whatever the outcome, the allocator stays
    consistent. *)
Theorem try_create_game_allocates (name : string) (p : Params) (w : World) :
  alloc_ok w ->
  alloc_ok (fst (try_create_game name p w)) /\
  (forall w' game,
     try_create_game name p w = (w', Val (inl game)) ->
     exists rest,
       items (FREE_IDS w) = id game :: rest /\
       items (FREE_IDS w') = rest /\
       FREE_MAP w' = <[id game := false]> (FREE_MAP w) /\
       GAMES w' = <[id game := game]> (GAMES w) /\
       (id game ∉ items (FREE_IDS w'))) /\
  (forall w' e,
     try_create_game name p w = (w', Val (inr e)) ->
     FREE_MAP w' = FREE_MAP w /\ GAMES w' = GAMES w).
Proof.
  intros Hok. pose proof Hok as [Hnd Hfree].
  pose proof (try_create_game_body_cases name p w) as Hbody.
  unfold try_create_game.
  destruct (items (FREE_IDS w)) as [|i rest] eqn:Hids.
  - rewrite Hbody. simpl. split; [exact Hok|]. split; [done|].
    by intros w' e [= <- _].
  - cbv zeta in Hbody.
    rewrite (Hfree i) in Hbody by apply list_elem_of_here.
    rewrite Hbody. clear Hbody.
    apply NoDup_cons in Hnd as [Hi Hnd].
    assert (Hrest : forall j, j ∈ rest -> FREE_MAP w !! j = Some true).
    { intros j Hj. by apply Hfree, list_elem_of_further. }
    assert (Hw : alloc_ok (set_FREE_IDS (mkQueue (maxsize (FREE_IDS w)) rest) w))
      by by split.
    destruct (new_game (game_cls_of name) i p) as [g|e|] eqn:Hnew.
    + apply new_game_id in Hnew as Hid. simpl. rewrite Hid.
      split; [|split; [|done]].
      * split; [done|]. simpl. intros j Hj.
        rewrite lookup_insert_ne by (intros ->; done). by apply Hrest.
      * intros w' game [= <- <-]. rewrite Hid. by exists rest.
    + destruct e; (split; [exact Hw|]); (split; [done|]);
        by intros w' e' [= <- _].
    + split; [exact Hw|]. split; done.
Qed.

Lemma foldl_delete_absent (us : list string) (m : gmap string nat) :
  (forall u, u ∈ us -> m !! u = None) ->
  foldl (fun m u => delete u m) m us = m.
Proof.
  revert m. induction us as [|u us IH]; intros m Habs; simpl; [done|].
  rewrite delete_id by apply Habs, list_elem_of_here.
  apply IH. intros v Hv. by apply Habs, list_elem_of_further.
Qed.

(** [cleanup_game] keeps the allocator consistent, however it ends. *)
Lemma cleanup_game_alloc_ok (game : Game) (w : World) :
  alloc_ok w -> alloc_ok (fst (cleanup_game game w)).
Proof.
  intros [Hnd Hfree].
  destruct (FREE_MAP w !! id game) as [[|]|] eqn:Hid.
  - by rewrite cleanup_game_free.
  - destruct (qfull (FREE_IDS w)) eqn:Hfull.
    + unfold cleanup_game, bind, gets, lookup_or. rewrite Hid. simpl.
      rewrite for_each_leave_curr_room.
      unfold io, modify, on_FREE_IDS, put. simpl. rewrite Hfull. simpl.
      split; [done|]. simpl. intros i Hi.
      destruct (decide (i = id game)) as [->|Hne].
      * apply lookup_insert_eq.
      * rewrite lookup_insert_ne by done. by apply Hfree.
    + rewrite cleanup_game_not_free by done. unfold cleaned. split; simpl.
      * apply NoDup_app. split; [done|]. split; [|apply NoDup_singleton].
        intros i Hi ->%list_elem_of_singleton.
        apply Hfree in Hi. congruence.
      * intros i [Hi|Hi]%elem_of_app; [|apply list_elem_of_singleton in Hi as ->].
        -- destruct (decide (i = id game)) as [->|Hne];
             [apply lookup_insert_eq|].
           rewrite lookup_insert_ne by done. by apply Hfree.
        -- apply lookup_insert_eq.
  - unfold cleanup_game, bind, gets, lookup_or. by rewrite Hid.
Qed.

(** X17: [cleanup_game] keeps the allocator consistent, however it ends; and
    a session that is created and released before anyone is in it leaves
    the registries as they were, except that its id has moved from the
    head of [FREE_IDS] to its end (and the room was closed). *)
Theorem create_then_cleanup (name : string) (p : Params) (w : World) :
  alloc_ok w ->
  (forall game, alloc_ok (fst (cleanup_game game w))) /\
  (forall w1 game,
     try_create_game name p w = (w1, Val (inl game)) ->
     GAMES w !! id game = None ->
     (forall u, u ∈ players game -> USER_ROOMS w !! u = None) ->
     (maxsize (FREE_IDS w) <= 0 \/
      Z.of_nat (length (items (FREE_IDS w))) <= maxsize (FREE_IDS w)) ->
     exists w2 rest,
       cleanup_game game w1 = (w2, Val tt) /\
       items (FREE_IDS w) = id game :: rest /\
       items (FREE_IDS w2) = (rest ++ [id game])%list /\
       FREE_MAP w2 = FREE_MAP w /\
       GAMES w2 = GAMES w /\
       ACTIVE_GAMES w2 = ACTIVE_GAMES w ∖ {[id game]} /\
       USER_ROOMS w2 = USER_ROOMS w /\
       WAITING_GAMES w2 = WAITING_GAMES w /\
       socketio w2 = (socketio w ++ [close_room (id game)])%list).
Proof.
  intros Hok. split; [intros game; by apply cleanup_game_alloc_ok|].
  intros w1 game Hcreate Hfresh Hrooms Hcap.
  pose proof (try_create_game_body_cases name p w) as Hbody.
  unfold try_create_game in Hcreate.
  destruct Hok as [Hnd Hfree].
  destruct (items (FREE_IDS w)) as [|i rest] eqn:Hids.
  { by rewrite Hbody in Hcreate. }
  cbv zeta in Hbody.
  rewrite (Hfree i) in Hbody by apply list_elem_of_here.
  rewrite Hbody in Hcreate. clear Hbody.
  destruct (new_game (game_cls_of name) i p) as [g|e|] eqn:Hnew;
    [|by destruct e|done].
  apply new_game_id in Hnew as Hid.
  injection Hcreate as <- <-. rewrite Hid in *.
  set (w1 := set_FREE_MAP _ _).
  assert (Hfm : FREE_MAP w1 !! i = Some false) by apply lookup_insert_eq.
  assert (Hroom : qfull (FREE_IDS w1) = false).
  { unfold qfull. simpl. simpl in Hcap.
    destruct (0 <? maxsize (FREE_IDS w)) eqn:Hpos; [|done]. simpl.
    apply Z.ltb_lt in Hpos. apply Z.leb_gt. lia. }
  exists (cleaned g w1), rest.
  split; [apply cleanup_game_not_free; [by rewrite Hid|done]|].
  split; [done|]. unfold cleaned. rewrite Hid. simpl.
  split; [done|].
  split.
  { rewrite insert_insert_eq. apply insert_id, Hfree, list_elem_of_here. }
  split; [by apply delete_insert_id|].
  split; [done|].
  split; [by apply foldl_delete_absent|]. done.
Qed.

End Properties.

(** C3, as first stated, fails: a session left with a spectator and no
    occupied player slot counts as empty. *)
Lemma is_empty_with_spectator :
  ~ (forall g : Game (E:=demo), spectators g ≠ ∅ -> is_empty g = false).
Proof.
  intros H.
  specialize (H (set_spectators {["u"]} (Game_init OvercookedGame 0))).
  assert (Hne : ({["u"]} : gset string) ≠ ∅) by set_solver.
  specialize (H Hne). vm_compute in H. discriminate.
Qed.

Lemma is_empty_spec_witness :
  let g := game_at (fst (_create_game "u" "overcooked" params_agents world1)) 0 in
  spectators g ≠ ∅ /\ num_players g ≠ 0%nat /\ is_empty g = false.
Proof.
  set (g := game_at _ _).
  assert (Hs : spectators g ≠ ∅).
  { intros Hs. assert (Hu : "u" ∈ spectators g) by (vm_compute; done).
    rewrite Hs in Hu. exact (not_elem_of_empty (C:=gset string) "u" Hu). }
  assert (Hn : num_players g ≠ 0%nat) by (vm_compute; lia).
  split; [done|]. split; [done|].
  exact (proj2 (proj2 (is_empty_spec g)) Hs Hn).
Defined.

Lemma is_ready_spec_witness :
  let g := game_at (fst (_create_game "u" "overcooked" params_agents world1)) 0 in
  let g0 : Game := Game_init OvercookedGame 0 in
  (is_ready g = true /\
   (max_players g <= Z.of_nat (num_players g))%Z /\
   (human_players g ≠ ∅ \/ spectators g ≠ ∅)) /\
  (human_players g0 = ∅ /\ spectators g0 = ∅ /\ is_ready g0 = false).
Proof.
  intros g g0. split.
  - assert (Hr : is_ready g = true) by (vm_compute; reflexivity).
    split; [done|]. exact (proj1 (is_ready_spec g) Hr).
  - assert (Hh : human_players g0 = ∅) by reflexivity.
    assert (Hs : spectators g0 = ∅) by reflexivity.
    split; [done|]. split; [done|].
    exact (proj1 (proj2 (is_ready_spec g0) Hh Hs)).
Defined.

Lemma cleanup_game_double_free_witness :
  let g : Game := Game_init OvercookedGame 0 in
  let w := fst (_create_game "u" "overcooked" params_humans world1) in
  (FREE_MAP world1 !! id g = Some true /\
   cleanup_game g world1 = (world1, Exc (ValueError "Double free on a game"))) /\
  (FREE_MAP w !! id g = Some false /\ qfull (FREE_IDS w) = false /\
   exists w', cleanup_game g w = (w', Val tt)).
Proof.
  intros g w. split.
  - assert (H : FREE_MAP world1 !! id g = Some true) by (vm_compute; reflexivity).
    split; [done|]. exact (proj1 (cleanup_game_double_free g world1) H).
  - assert (H : FREE_MAP w !! id g = Some false) by (vm_compute; reflexivity).
    assert (Hq : qfull (FREE_IDS w) = false) by (vm_compute; reflexivity).
    split; [done|]. split; [done|].
    exact (proj2 (proj2 (cleanup_game_double_free g w)) H Hq).
Defined.

(** C2 on the code: when the agent of a create request cannot be loaded,
    the requester gets [creation_failed] and [FREE_MAP], [GAMES] and
    [USER_ROOMS] stay as they were, but the id taken from [FREE_IDS] is
    gone; the next request finds the server at capacity. *)
Theorem create_with_missing_agent_loses_id :
  let r := _create_game "u" "overcooked" params_missing_agent world1 in
  let r' := _create_game "v" "overcooked" params_humans (fst r) in
  snd r = Val tt /\
  socketio (fst r) = [emit_creation_failed (IOError "Error loading agent")] /\
  FREE_MAP (fst r) = FREE_MAP world1 /\
  GAMES (fst r) = GAMES world1 /\
  USER_ROOMS (fst r) = USER_ROOMS world1 /\
  items (FREE_IDS world1) = [0%nat] /\
  items (FREE_IDS (fst r)) = [] /\
  socketio (fst r') =
    [emit_creation_failed (IOError "Error loading agent");
     emit_creation_failed (RuntimeError "Server at max capacity")] /\
  GAMES (fst r') = ∅.
Proof. vm_compute. repeat split. Qed.

(** C8 on the code: an agents-only session watched by ["u"] ends; after
    the closing block of [play_game] the id is free and the session is out
    of [GAMES] and [ACTIVE_GAMES], but ["u"], a spectator, still maps to
    the freed id in [USER_ROOMS]. *)
Theorem cleanup_game_leaves_spectator :
  let w := fst (_create_game "u" "overcooked" params_agents world1) in
  let g := game_at w 0 in
  let r := play_game_exit DONE g w in
  players g = ["StayAI_0"; "StayAI_1"] /\
  elements (spectators g) = ["u"] /\
  USER_ROOMS w !! "u" = Some 0%nat /\
  snd r = Val tt /\
  FREE_MAP (fst r) !! 0%nat = Some true /\
  items (FREE_IDS (fst r)) = [0%nat] /\
  GAMES (fst r) !! 0%nat = None /\
  elements (ACTIVE_GAMES (fst r)) = [] /\
  USER_ROOMS (fst r) !! "u" = Some 0%nat.
Proof. vm_compute. repeat split. Qed.

(** The session used below: two ["StayAI"] agents watched by ["u"], taken
    after its first [tick], which finds the time of the first layout up
    and resets the session; and the same with one action waiting in the
    queue of slot 0. *)
Lemma enqueue_action_full_queue_blocks_witness :
  let g1 := game_at (fst (_create_game "u" "overcooked" params_agents world1)) 0 in
  let g2 := fst (tick g1) in
  let g3 := fst (Game_enqueue_action "StayAI_0" STAY g2) in
  pending_actions g3 !! 0%nat = Some (Some (mkQueue 1 [STAY])) /\
  Game_enqueue_action "StayAI_0" NORTH g3 = (g3, Blocks) /\
  enqueue_action "StayAI_0" "UP" g3 = (g3, Blocks).
Proof.
  intros g1 g2 g3.
  assert (Hact : _is_active g3 = true) by (vm_compute; reflexivity).
  assert (Hidx : index "StayAI_0" (players g3) = Some 0%nat)
    by (vm_compute; reflexivity).
  assert (Hq : pending_actions g3 !! 0%nat = Some (Some (mkQueue 1 [STAY])))
    by (vm_compute; reflexivity).
  assert (Hfull : qfull (mkQueue 1 [STAY]) = true) by reflexivity.
  destruct (enqueue_action_full_queue_blocks g3 "StayAI_0" NORTH 0
              (mkQueue 1 [STAY]) Hact Hidx Hq Hfull) as [Hb Hk].
  split; [done|]. split; [done|].
  apply Hk. reflexivity.
Defined.

(** C1, as first stated, fails.  After the reset the three pushes made by
    the tick loop ([activate], [deactivate], [activate]) are all in the
    channel of ["StayAI_0"], the start state [1] of the new layout on top
    of two copies of the state [2] of the finished one.  The worker asks
    its policy about [1] and then about the superseded [2]. *)
Lemma worker_reads_superseded_state :
  let g1 := game_at (fst (_create_game "u" "overcooked" params_agents world1)) 0 in
  let g2 := fst (tick g1) in
  snd (tick g1) = Val RESET /\
  npc_state_queues g2 !! "StayAI_0" = Some [1%nat; 2%nat; 2%nat] /\
  alist_get "StayAI_0" (npc_policies g2) = Some (Pickled []) /\
  exists g3,
    npc_policy_consumer 3 "StayAI_0" g2 = Some (g3, Blocks) /\
    alist_get "StayAI_0" (npc_policies g3) = Some (Pickled [2%nat; 1%nat]) /\
    npc_state_queues g3 !! "StayAI_0" = Some [2%nat].
Proof.
  vm_compute. repeat split. eexists. repeat split.
Qed.

Lemma state_channel_is_lifo_witness :
  let g0 := game_at (fst (_create_game "u" "overcooked" params_agents world1)) 0 in
  let g := fst (pop_state "StayAI_0" g0) in
  let g2 := fst ((push_state "StayAI_0" 7%nat ;;; push_state "StayAI_0" 8%nat) g) in
  let g3 := fst (npc_policy_consumer_body "StayAI_0" g2) in
  let g5 := fst (npc_policy_consumer_body "StayAI_0" g3) in
  let g6 := fst (deactivate g3) in
  npc_state_queues g !! "StayAI_0" = Some [] /\
  npc_state_queues g2 !! "StayAI_0" = Some [8%nat; 7%nat] /\
  alist_get "StayAI_0" (npc_policies g3) = Some (Pickled [8%nat]) /\
  npc_state_queues g3 !! "StayAI_0" = Some [7%nat] /\
  (exists g4, pop_state "StayAI_0" g3 = (g4, Val 7%nat) /\
              npc_state_queues g4 !! "StayAI_0" = Some []) /\
  alist_get "StayAI_0" (npc_policies g5) = Some (Pickled [7%nat; 8%nat]) /\
  npc_state_queues g5 !! "StayAI_0" = Some [] /\
  _is_active g = true /\
  npc_policy_consumer_body "StayAI_0" g2 = (g3, Val tt) /\
  consumer_loop 3 "StayAI_0" g2 = Some (g5, Blocks) /\
  _is_active g6 = false /\
  npc_state_queues g6 !! "StayAI_0" = Some [2%nat; 7%nat] /\
  consumer_loop 1 "StayAI_0" g6 = Some (g6, Val tt).
Proof.
  intros g0 g g2 g3 g5 g6.
  assert (Hq : npc_state_queues g !! "StayAI_0" = Some [])
    by (vm_compute; reflexivity).
  assert (Hpol : alist_get "StayAI_0" (npc_policies g) = Some (Pickled []))
    by (vm_compute; reflexivity).
  assert (Hact : _is_active g = true) by (vm_compute; reflexivity).
  assert (Hval : npc_policy_consumer_body "StayAI_0" g2 = (g3, Val tt))
    by (vm_compute; reflexivity).
  assert (Hblk : npc_policy_consumer_body "StayAI_0" g3 = (g5, Blocks))
    by (vm_compute; reflexivity).
  assert (Hact6 : _is_active g6 = false) by (vm_compute; reflexivity).
  assert (Hq6 : npc_state_queues g6 !! "StayAI_0" = Some [2%nat; 7%nat])
    by (vm_compute; reflexivity).
  destruct (state_channel_is_lifo g "StayAI_0" _ _ 7%nat 8%nat Hq Hpol) as (H1 & H2 & H3 & H4 & H5 & H6 & Hloop & Hexit).
  split; [exact Hq|]. split; [exact H1|]. split; [exact H2|].
  split; [exact H3|]. split; [exact H4|]. split; [exact H5|].
  split; [exact H6|]. split; [exact Hact|]. split; [exact Hval|].
  split.
  { fold g2 g3 in Hloop.
    rewrite (Hloop Hact (f_equal snd Hval) 1%nat). by rewrite Hblk. }
  split; [exact Hact6|]. split; [exact Hq6|].
  exact (Hexit g6 Hact6 0%nat).
Defined.

(** A started session with ["StayAI_0"] in slot 0 and the human ["u"] in
    slot 1: before the worker has answered, the assembly waits; once the
    worker has queued its action and ["u"] has pressed UP, it returns
    both. *)
Lemma joint_action_assembly_witness :
  let g0 := game_at (fst (_create_game "u" "overcooked" params_mixed world1)) 0 in
  let g1 := fst (npc_policy_consumer_body "StayAI_0" g0) in
  let g := fst (enqueue_action "u" "UP" g1) in
  (exists g', assemble_joint_action g = (g', Val [STAY; NORTH]) /\
     pending_actions g !! 0%nat = Some (Some (mkQueue 1 [STAY])) /\
     pending_actions g' !! 0%nat = Some (Some (mkQueue 1 [])) /\
     pending_actions g !! 1%nat = Some (Some (mkQueue (-1) [NORTH])) /\
     pending_actions g' !! 1%nat = Some (Some (mkQueue (-1) []))) /\
  (forall g' ja, assemble_joint_action g0 ≠ (g', Val ja)) /\
  (exists g' ja, assemble_joint_action g1 = (g', Val ja)).
Proof.
  intros g0 g1 g.
  assert (Hp0 : players g !! 0%nat = Some "StayAI_0") by (vm_compute; reflexivity).
  assert (Hp1 : players g !! 1%nat = Some "u") by (vm_compute; reflexivity).
  assert (H0 : pending_actions g !! 0%nat = Some (Some (mkQueue 1 [STAY])))
    by (vm_compute; reflexivity).
  assert (H1 : pending_actions g !! 1%nat = Some (Some (mkQueue (-1) [NORTH])))
    by (vm_compute; reflexivity).
  assert (Hr : snd (assemble_joint_action g) = Val [STAY; NORTH])
    by (vm_compute; reflexivity).
  assert (Hp : players g0 !! 0%nat = Some "StayAI_0")
    by (vm_compute; reflexivity).
  assert (Hq : pending_actions g0 !! 0%nat = Some (Some (mkQueue 1 [])))
    by (vm_compute; reflexivity).
  assert (Hh : "StayAI_0" ∉ human_players g0).
  { assert (Hb : bool_decide ("StayAI_0" ∈ human_players g0) = false)
      by (vm_compute; reflexivity).
    exact (bool_decide_eq_false_1 _ Hb). }
  assert (Hps : players g1 = ["StayAI_0"; "u"]) by (vm_compute; reflexivity).
  assert (Hq0 : pending_actions g1 !! 0%nat = Some (Some (mkQueue 1 [STAY])))
    by (vm_compute; reflexivity).
  assert (Hq1 : pending_actions g1 !! 1%nat = Some (Some (mkQueue (-1) [])))
    by (vm_compute; reflexivity).
  assert (Hu : "u" ∈ human_players g1).
  { assert (Hb : bool_decide ("u" ∈ human_players g1) = true)
      by (vm_compute; reflexivity).
    exact (bool_decide_eq_true_1 _ Hb). }
  clearbody g. clearbody g1. clearbody g0.
  split; [|split].
  - destruct (assemble_joint_action g) as [g' r] eqn:Hrun.
    simpl in Hr. subst r. exists g'. split; [reflexivity|].
    destruct (proj1 (joint_action_assembly g) g' _ Hrun) as [_ Hslots].
    destruct (Hslots 0%nat "StayAI_0" Hp0) as (q0 & Hq0a & Hq0b & _).
    destruct (Hslots 1%nat "u" Hp1) as (q1 & Hq1a & Hq1b & _).
    rewrite H0 in Hq0a. rewrite H1 in Hq1a.
    injection Hq0a as <-. injection Hq1a as <-.
    repeat split; assumption.
  - exact (proj1 (proj2 (joint_action_assembly g0)) 0%nat "StayAI_0"
             (mkQueue 1 []) Hp Hh Hq eq_refl).
  - apply (proj2 (proj2 (joint_action_assembly g1))).
    rewrite Hps. intros [|[|i]] p Hpi; simpl in Hpi.
    + exists (mkQueue 1 [STAY]). split; [exact Hq0|].
      right. simpl. discriminate.
    + exists (mkQueue (-1) []). split; [exact Hq1|].
      left. injection Hpi as <-. exact Hu.
    + discriminate.
Defined.





(** ** The properties above on the sample sessions *)

Lemma tick_step_witness :
  let g0 := game_at (fst (_create_game "u" "overcooked" params_mixed world1)) 0 in
  let g := fst (enqueue_action "u" "UP"
                  (fst (npc_policy_consumer_body "StayAI_0" g0))) in
  let g' := fst (tick g) in
  kind g = OvercookedGame /\ tick g = (g', Val ACTIVE) /\
  state g = Some 1%nat /\ state g' = Some 2%nat /\
  exists layout prev ja t,
    state g = Some prev /\ curr_layout g = Some layout /\
    length ja = length (players g) /\
    state g' = Some (fst (get_state_transition layout prev ja)) /\
    score g' =
      num_add (score g) (sum_list (snd (get_state_transition layout prev ja))) /\
    trajectory g' = (trajectory g ++ [t])%list /\
    t_state t = prev /\ t_joint_action t = ja /\
    t_cur_gameloop t = curr_tick g + 1 /\
    curr_tick g' = curr_tick g + 1 /\
    players g' = players g /\
    (ACTIVE = DONE -> layouts g = []).
Proof.
  intros g0 g g'.
  assert (Hk : kind g = OvercookedGame) by (vm_compute; reflexivity).
  assert (Hrun : tick g = (g', Val ACTIVE)) by (vm_compute; reflexivity).
  assert (Hs : state g = Some 1%nat) by (vm_compute; reflexivity).
  assert (Hs' : state g' = Some 2%nat) by (vm_compute; reflexivity).
  clearbody g'. clearbody g. clearbody g0.
  split; [exact Hk|]. split; [exact Hrun|]. split; [exact Hs|].
  split; [exact Hs'|].
  exact (tick_step g g' ACTIVE Hk Hrun (or_introl eq_refl)).
Defined.

Lemma tick_reset_effect_witness :
  let g := game_at (fst (_create_game "u" "overcooked" params_agents world1)) 0 in
  let g' := fst (tick g) in
  kind g = OvercookedGame /\ tick g = (g', Val RESET) /\
  wall_clock (clock g) <= wall_clock (S (clock g)) /\
  layouts g = ["a"] /\ clock g = 2%nat /\
  exists layout start,
    start_time g = Some start /\
    1000 * max_time g <= wall_clock (clock g) - start /\
    last (layouts g) = Some layout /\
    layouts g' = removelast (layouts g) /\
    curr_layout g' = Some layout /\
    state g' = Some (get_standard_start_state layout) /\
    score g' = Fin 0 /\ curr_tick g' = 0 /\ _is_active g' = true /\
    start_time g' = Some (wall_clock (S (clock g)) + 3000) /\
    players g' = players g /\ trajectory g' = trajectory g.
Proof.
  intros g g'.
  assert (Hk : kind g = OvercookedGame) by (vm_compute; reflexivity).
  assert (Hrun : tick g = (g', Val RESET)) by (vm_compute; reflexivity).
  assert (Hc : clock g = 2%nat) by (vm_compute; reflexivity).
  assert (Hl : layouts g = ["a"]) by (vm_compute; reflexivity).
  clearbody g'. clearbody g.
  assert (Hm : wall_clock (clock g) <= wall_clock (S (clock g))).
  { rewrite Hc. vm_compute. discriminate. }
  split; [exact Hk|]. split; [exact Hrun|]. split; [exact Hm|].
  split; [exact Hl|]. split; [exact Hc|].
  exact (tick_reset_effect g g' Hk Hrun Hm).
Defined.

Lemma slots_ok_fresh_session : slots_ok fresh_session.
Proof.
  unfold slots_ok.
  replace (players fresh_session) with ["EMPTY"; "StayAI_1"]
    by (vm_compute; reflexivity).
  replace (pending_actions fresh_session)
    with [None; Some (mkQueue 1 ([] : list Action))]
    by (vm_compute; reflexivity).
  repeat constructor; intros H; discriminate H.
Qed.

Lemma add_player_placement_witness :
  is_full fresh_session = false /\ _is_active fresh_session = false /\
  players fresh_session = ["EMPTY"; "StayAI_1"] /\
  exists i g',
    add_player "u" None (-1) true fresh_session = (g', Val tt) /\
    ((forall j, (j < i)%nat -> players fresh_session !! j ≠ Some EMPTY) /\
     (players fresh_session !! i = Some EMPTY \/
      (i = length (players fresh_session) /\ EMPTY ∉ players fresh_session))) /\
    players g' !! i = Some "u" /\
    pending_actions g' !! i = Some (Some (mkQueue (-1) [])) /\
    (forall j, j ≠ i -> (j < length (players fresh_session))%nat ->
       players g' !! j = players fresh_session !! j /\
       pending_actions g' !! j = pending_actions fresh_session !! j) /\
    (forall j, (length (players fresh_session) <= j < i)%nat ->
       players g' !! j = Some EMPTY) /\
    length (players g') = (length (players fresh_session) `max` S i)%nat /\
    slots_ok g' /\
    human_players g' = human_players fresh_session ∪ {["u"]} /\
    npc_players g' = npc_players fresh_session.
Proof.
  assert (Hf : is_full fresh_session = false) by (vm_compute; reflexivity).
  assert (Ha : _is_active fresh_session = false) by (vm_compute; reflexivity).
  assert (Hp : players fresh_session = ["EMPTY"; "StayAI_1"])
    by (vm_compute; reflexivity).
  assert (Hu : "u" ≠ EMPTY) by discriminate.
  split; [exact Hf|]. split; [exact Ha|]. split; [exact Hp|].
  exact (add_player_placement fresh_session "u" None (-1) true Hf Ha
           slots_ok_fresh_session Hu).
Defined.

Lemma slots_ok_mixed_session :
  slots_ok (game_at (fst (_create_game "u" "overcooked" params_mixed world1)) 0).
Proof.
  unfold slots_ok.
  replace (players (game_at _ 0)) with ["StayAI_0"; "u"]
    by (vm_compute; reflexivity).
  replace (pending_actions (game_at _ 0))
    with [Some (mkQueue 1 ([] : list Action)); Some (mkQueue (-1) [])]
    by (vm_compute; reflexivity).
  repeat constructor; intros H; discriminate H.
Qed.

Lemma remove_player_effect_witness :
  let g := game_at (fst (_create_game "u" "overcooked" params_mixed world1)) 0 in
  players g = ["StayAI_0"; "u"] /\
  remove_player "v" g = (g, Val tt) /\
  exists i g' r,
    remove_player "u" g = (g', r) /\
    players g !! i = Some "u" /\
    (forall j, (j < i)%nat -> players g !! j ≠ Some "u") /\
    players g' = <[i := EMPTY]> (players g) /\
    pending_actions g' = <[i := None]> (pending_actions g) /\
    slots_ok g' /\
    r = Val tt /\ human_players g' = human_players g ∖ {["u"]} /\
    npc_players g' = npc_players g.
Proof.
  intros g.
  assert (Hp : players g = ["StayAI_0"; "u"]) by (vm_compute; reflexivity).
  assert (Hh : bool_decide ("u" ∈ human_players g) = true)
    by (vm_compute; reflexivity).
  pose proof slots_ok_mixed_session as Hok. fold g in Hok.
  clearbody g.
  assert (Hv : "v" ∉ players g).
  { rewrite Hp. intros Hv. repeat (apply elem_of_cons in Hv as [Hv|Hv];
      [discriminate Hv|]). by apply elem_of_nil in Hv. }
  assert (Hu : "u" ∈ players g).
  { rewrite Hp. apply list_elem_of_further, list_elem_of_here. }
  split; [exact Hp|].
  split; [exact (proj1 (remove_player_effect g "v") Hv)|].
  destruct (proj2 (remove_player_effect g "u") Hu Hok)
    as (i & g' & r & H1 & H2 & H3 & H4 & H5 & H6 & H7).
  rewrite Hh in H7.
  exists i, g', r. repeat (split; [assumption|]). exact H7.
Defined.

Lemma join_then_leave_witness :
  is_full fresh_session = false /\ _is_active fresh_session = false /\
  players fresh_session = ["EMPTY"; "StayAI_1"] /\
  exists g',
    (add_player "u" None (-1) true ;;; remove_player "u") fresh_session
      = (g', Val tt) /\
    players g' = players fresh_session /\
    pending_actions g' = pending_actions fresh_session /\
    human_players g' = human_players fresh_session /\
    npc_players g' = npc_players fresh_session.
Proof.
  assert (Hf : is_full fresh_session = false) by (vm_compute; reflexivity).
  assert (Ha : _is_active fresh_session = false) by (vm_compute; reflexivity).
  assert (Hp : players fresh_session = ["EMPTY"; "StayAI_1"])
    by (vm_compute; reflexivity).
  assert (Hu : "u" ≠ EMPTY) by discriminate.
  assert (Hout : "u" ∉ players fresh_session).
  { rewrite Hp. intros Hv. repeat (apply elem_of_cons in Hv as [Hv|Hv];
      [discriminate Hv|]). by apply elem_of_nil in Hv. }
  assert (Hh : "u" ∉ human_players fresh_session).
  { apply (bool_decide_eq_false_1 ("u" ∈ human_players fresh_session)).
    vm_compute. reflexivity. }
  assert (Hn : "u" ∉ npc_players fresh_session).
  { apply (bool_decide_eq_false_1 ("u" ∈ npc_players fresh_session)).
    vm_compute. reflexivity. }
  assert (He : bool_decide (EMPTY ∈ players fresh_session) = true)
    by (vm_compute; reflexivity).
  split; [exact Hf|]. split; [exact Ha|]. split; [exact Hp|].
  destruct (join_then_leave fresh_session "u" (-1) true Hf Ha
              slots_ok_fresh_session Hu Hout Hh Hn)
    as (g' & H1 & H2 & H3 & H4 & H5).
  rewrite He in H2, H3.
  exists g'. repeat (split; [assumption|]). exact H5.
Defined.

Lemma spectators_add_remove_witness :
  let g := game_at (fst (_create_game "u" "overcooked" params_mixed world1)) 0 in
  add_spectator "u" g =
    (g, Exc (ValueError "Cannot spectate and play at same time")) /\
  remove_spectator "v" g = (g, Exc KeyError) /\
  exists g1, add_spectator "v" g = (g1, Val tt) /\
    spectators g1 = spectators g ∪ {["v"]} /\
    remove_spectator "v" g1 = (g, Val true).
Proof.
  intros g.
  assert (Hp : players g = ["StayAI_0"; "u"]) by (vm_compute; reflexivity).
  assert (Hs : "v" ∉ spectators g).
  { apply (bool_decide_eq_false_1 ("v" ∈ spectators g)).
    vm_compute. reflexivity. }
  clearbody g.
  assert (Hv : "v" ∉ players g).
  { rewrite Hp. intros Hv. repeat (apply elem_of_cons in Hv as [Hv|Hv];
      [discriminate Hv|]). by apply elem_of_nil in Hv. }
  assert (Hu : "u" ∈ players g).
  { rewrite Hp. apply list_elem_of_further, list_elem_of_here. }
  destruct (spectators_add_remove g "u") as (H1 & _ & _).
  destruct (spectators_add_remove g "v") as (_ & H2 & H3).
  split; [exact (H1 Hu)|]. split; [exact (H2 Hs)|].
  destruct (H3 Hv) as (g1 & Ha & Hb & Hc).
  exists g1. split; [exact Ha|]. split; [exact Hb|]. exact (Hc Hs).
Defined.

Lemma enqueue_action_effect_witness :
  let g := game_at (fst (_create_game "u" "overcooked" params_mixed world1)) 0 in
  let gi := game_at (fst (_leave_game "u"
              (fst (_create_game "u" "overcooked" params_mixed world1)))) 0 in
  enqueue_action "u" "JUMP" g = (g, Exc KeyError) /\
  enqueue_action "nobody" "JUMP" gi = (gi, Exc KeyError) /\
  _is_active gi = false /\ enqueue_action "StayAI_0" "UP" gi = (gi, Val tt) /\
  enqueue_action "v" "UP" g = (g, Val tt) /\
  enqueue_action "u" "UP" g =
    (set_pending_actions
       (<[1%nat := Some (mkQueue (-1) [NORTH])]> (pending_actions g)) g, Val tt).
Proof.
  intros g gi.
  assert (Hp : players g = ["StayAI_0"; "u"]) by (vm_compute; reflexivity).
  assert (Hact : _is_active g = true) by (vm_compute; reflexivity).
  assert (Hidx : index "u" (players g) = Some 1%nat) by (vm_compute; reflexivity).
  assert (Hq : pending_actions g !! 1%nat = Some (Some (mkQueue (-1) [])))
    by (vm_compute; reflexivity).
  assert (Hi : _is_active gi = false) by (vm_compute; reflexivity).
  clearbody g. clearbody gi.
  assert (Hv : "v" ∉ players g).
  { rewrite Hp. intros Hv. repeat (apply elem_of_cons in Hv as [Hv|Hv];
      [discriminate Hv|]). by apply elem_of_nil in Hv. }
  assert (Hjump : "JUMP" ∉ ["STAY"; "UP"; "DOWN"; "LEFT"; "RIGHT"; "SPACE"]).
  { intros Hj. repeat (apply elem_of_cons in Hj as [Hj|Hj];
      [discriminate Hj|]). by apply elem_of_nil in Hj. }
  assert (Hup : "UP" ∈ ["STAY"; "UP"; "DOWN"; "LEFT"; "RIGHT"; "SPACE"]).
  { apply list_elem_of_further, list_elem_of_here. }
  split; [exact (proj1 (enqueue_action_effect g "u" "JUMP") Hjump)|].
  split; [exact (proj1 (enqueue_action_effect gi "nobody" "JUMP") Hjump)|].
  split; [exact Hi|].
  destruct (proj2 (enqueue_action_effect gi "StayAI_0" "UP") Hup)
    as (a1 & Ha1 & Hrej1 & _).
  split; [exact (Hrej1 (or_introl Hi))|].
  destruct (proj2 (enqueue_action_effect g "v" "UP") Hup)
    as (a2 & Ha2 & Hrej2 & _).
  split; [exact (Hrej2 (or_intror Hv))|].
  destruct (proj2 (enqueue_action_effect g "u" "UP") Hup)
    as (a3 & Ha3 & _ & Happ).
  assert (a3 = NORTH) as -> by (vm_compute in Ha3; congruence).
  exact (Happ 1%nat (mkQueue (-1) []) Hact Hidx Hq eq_refl).
Defined.

Lemma get_data_hands_over_witness :
  let g0 := game_at (fst (_create_game "u" "overcooked" params_mixed world1)) 0 in
  let g := fst (tick (fst (enqueue_action "u" "UP"
                  (fst (npc_policy_consumer_body "StayAI_0" g0))))) in
  write_data g = false /\ length (trajectory g) = 1%nat /\
  exists g1 g2,
    get_data g = (g1, Val (trajectory g)) /\ trajectory g1 = [] /\
    get_data g1 = (g2, Val []) /\
    g1 = set_trajectory [] (set_clock (S (clock g)) g).
Proof.
  intros g0 g.
  assert (Hw : write_data g = false) by (vm_compute; reflexivity).
  assert (Ht : length (trajectory g) = 1%nat) by (vm_compute; reflexivity).
  clearbody g. clearbody g0.
  split; [exact Hw|]. split; [exact Ht|].
  exact (get_data_hands_over g (or_introl Hw)).
Defined.

Lemma clear_pending_actions_empties_witness :
  let g0 := game_at (fst (_create_game "u" "overcooked" params_mixed world1)) 0 in
  let g := fst (enqueue_action "u" "UP"
                  (fst (npc_policy_consumer_body "StayAI_0" g0))) in
  pending_actions g =
    [Some (mkQueue 1 [STAY]); Some (mkQueue (-1) [NORTH])] /\
  exists g',
    clear_pending_actions g = (g', Val tt) /\
    pending_actions g' = [Some (mkQueue 1 []); Some (mkQueue (-1) [])] /\
    players g' = players g /\ slots_ok g'.
Proof.
  intros g0 g.
  assert (Hp : players g = ["StayAI_0"; "u"]) by (vm_compute; reflexivity).
  assert (Hq : pending_actions g =
            [Some (mkQueue 1 [STAY]); Some (mkQueue (-1) [NORTH])])
    by (vm_compute; reflexivity).
  clearbody g. clearbody g0.
  assert (Hok : slots_ok g).
  { unfold slots_ok. rewrite Hp, Hq.
    repeat constructor; intros H; discriminate H. }
  split; [exact Hq|].
  destruct (clear_pending_actions_empties g Hok) as (g' & H1 & H2 & H3 & H4).
  exists g'. split; [exact H1|]. split; [by rewrite H2, Hq|].
  split; [by apply H3|exact H4].
Defined.

Lemma activate_effect_witness :
  let g := fst (add_player "u" None (-1) true fresh_session) in
  players g = ["u"; "StayAI_1"] /\ layouts g = ["a"] /\
  npc_ids g = ["StayAI_1"] /\
  npc_state_queues g !! "StayAI_1" = Some [] /\
  exists g',
    activate g = (g', Val tt) /\
    _is_active g' = true /\
    layouts g' = [] /\
    curr_layout g' = Some "a" /\
    state g' = Some 1%nat /\
    start_time g' = Some (wall_clock (clock g)) /\
    curr_tick g' = 0 /\ score g' = Fin 0 /\
    threads g' = ["StayAI_1"] /\
    npc_state_queues g' !! "StayAI_1" = Some [1%nat] /\
    players g' = players g /\ pending_actions g' = pending_actions g.
Proof.
  intros g.
  assert (Hp : players g = ["u"; "StayAI_1"]) by (vm_compute; reflexivity).
  assert (Hl : layouts g = ["a"]) by (vm_compute; reflexivity).
  assert (Hids : npc_ids g = ["StayAI_1"]) by (vm_compute; reflexivity).
  assert (Hq : npc_state_queues g !! "StayAI_1" = Some [])
    by (vm_compute; reflexivity).
  assert (Hsets : npc_players g ∪ human_players g = list_to_set (players g)).
  { apply (bool_decide_eq_true_1
             (npc_players g ∪ human_players g = list_to_set (players g))).
    vm_compute. reflexivity. }
  clearbody g.
  assert (Hlast : last (layouts g) = Some "a") by by rewrite Hl.
  assert (Hnd : NoDup (npc_ids g)) by (rewrite Hids; apply NoDup_singleton).
  assert (Hch : forall x, x ∈ npc_ids g -> is_Some (npc_state_queues g !! x)).
  { intros x. rewrite Hids. intros ->%list_elem_of_singleton.
    rewrite Hq. by eexists. }
  split; [exact Hp|]. split; [exact Hl|]. split; [exact Hids|].
  split; [exact Hq|].
  destruct (activate_effect g "a" Hsets Hlast Hnd Hch)
    as (g' & H1 & H2 & H3 & H4 & H5 & H6 & H7 & H8 & H9 & H10 & _ & H12 & H13).
  exists g'. split; [exact H1|]. split; [exact H2|].
  split; [by rewrite H3, Hl|]. split; [exact H4|]. split; [exact H5|].
  split; [exact H6|]. split; [exact H7|]. split; [exact H8|].
  split; [by rewrite H9|].
  split.
  { pose proof (H10 "StayAI_1" [] Hq) as Hx. rewrite Hids in Hx.
    rewrite bool_decide_eq_true_2 in Hx by apply list_elem_of_here.
    exact Hx. }
  split; [exact H12|exact H13].
Defined.

Lemma activate_failure_leaves_active_witness :
  let gr := fst (tick (game_at
              (fst (_create_game "u" "overcooked" params_agents world1)) 0)) in
  _is_active fresh_session = false /\
  activate fresh_session =
    (set_is_active true fresh_session, Exc (ValueError "Inconsistent State")) /\
  layouts gr = [] /\
  activate gr = (set_is_active true gr, Exc IndexError).
Proof.
  intros gr.
  assert (Ha : _is_active fresh_session = false) by (vm_compute; reflexivity).
  assert (Hne : npc_players fresh_session ∪ human_players fresh_session
                ≠ list_to_set (players fresh_session)).
  { apply (bool_decide_eq_false_1
             (npc_players fresh_session ∪ human_players fresh_session
              = list_to_set (players fresh_session))).
    vm_compute. reflexivity. }
  assert (Hl : layouts gr = []) by (vm_compute; reflexivity).
  assert (Hsets : npc_players gr ∪ human_players gr = list_to_set (players gr)).
  { apply (bool_decide_eq_true_1
             (npc_players gr ∪ human_players gr = list_to_set (players gr))).
    vm_compute. reflexivity. }
  clearbody gr.
  split; [exact Ha|].
  split; [exact (proj1 (activate_failure_leaves_active fresh_session) Hne)|].
  split; [exact Hl|].
  exact (proj2 (activate_failure_leaves_active gr) Hsets Hl).
Defined.

Lemma cleanup_game_registries_witness :
  let w := fst (_create_game "u" "overcooked" params_humans world1) in
  let g := game_at w 0 in
  let w' := fst (cleanup_game g w) in
  players g = ["u"] /\ USER_ROOMS w !! "u" = Some 0%nat /\
  cleanup_game g w = (w', Val tt) /\
  FREE_MAP w' !! id g = Some true /\
  id g ∈ items (FREE_IDS w') /\
  GAMES w' !! id g = None /\
  (id g ∉ ACTIVE_GAMES w') /\
  USER_ROOMS w' !! "u" = None.
Proof.
  intros w g w'.
  assert (Hp : players g = ["u"]) by (vm_compute; reflexivity).
  assert (Hu : USER_ROOMS w !! "u" = Some 0%nat) by (vm_compute; reflexivity).
  assert (Hrun : cleanup_game g w = (w', Val tt)) by (vm_compute; reflexivity).
  assert (Hroom : qfull (FREE_IDS w) = false) by (vm_compute; reflexivity).
  clearbody w'. clearbody g. clearbody w.
  split; [exact Hp|]. split; [exact Hu|]. split; [exact Hrun|].
  destruct (cleanup_game_registries g w w' Hrun Hroom)
    as (H1 & H2 & H3 & H4 & H5).
  split; [exact H1|]. split; [exact H2|]. split; [exact H3|].
  split; [exact H4|].
  rewrite H5, Hp.
  by rewrite bool_decide_eq_true_2 by apply list_elem_of_here.
Defined.

Lemma create_at_capacity_witness :
  let w := fst (_create_game "u" "overcooked" params_humans world1) in
  items (FREE_IDS w) = [] /\
  _create_game "v" "overcooked" params_humans w =
  (set_socketio
     (socketio w ++ [emit_creation_failed (RuntimeError "Server at max capacity")])
     w, Val tt).
Proof.
  intros w.
  assert (Hnone : items (FREE_IDS w) = []) by (vm_compute; reflexivity).
  clearbody w.
  split; [exact Hnone|].
  exact (create_at_capacity "v" "overcooked" params_humans w Hnone).
Defined.

Lemma get_waiting_game_skips_freed_witness :
  let w := fst (_create_game "v" "overcooked" params_humans
             (fst (_leave_game "u"
                (fst (_create_game "u" "overcooked" params_humans world2))))) in
  let w1 := fst (_leave_game "u"
              (fst (_create_game "u" "overcooked" params_humans world1))) in
  items (WAITING_GAMES w) = [0%nat; 1%nat] /\
  FREE_MAP w !! 0%nat = Some true /\ FREE_MAP w !! 1%nat = Some false /\
  get_waiting_game w =
    (set_WAITING_GAMES (mkQueue (maxsize (WAITING_GAMES w)) []) w,
     Val (GAMES w !! 1%nat)) /\
  items (WAITING_GAMES w1) = [0%nat] /\ FREE_MAP w1 !! 0%nat = Some true /\
  get_waiting_game w1 =
    (set_WAITING_GAMES (mkQueue (maxsize (WAITING_GAMES w1)) []) w1, Val None).
Proof.
  intros w w1.
  assert (Hi : items (WAITING_GAMES w) = [0%nat; 1%nat])
    by (vm_compute; reflexivity).
  assert (H0 : FREE_MAP w !! 0%nat = Some true) by (vm_compute; reflexivity).
  assert (H1 : FREE_MAP w !! 1%nat = Some false) by (vm_compute; reflexivity).
  assert (Hi1 : items (WAITING_GAMES w1) = [0%nat]) by (vm_compute; reflexivity).
  assert (H01 : FREE_MAP w1 !! 0%nat = Some true) by (vm_compute; reflexivity).
  clearbody w1. clearbody w.
  assert (Hs : forall j, j ∈ [0%nat] -> FREE_MAP w !! j = Some true).
  { by intros j ->%list_elem_of_singleton. }
  assert (Hs1 : forall j, j ∈ [0%nat] -> FREE_MAP w1 !! j = Some true).
  { by intros j ->%list_elem_of_singleton. }
  split; [exact Hi|]. split; [exact H0|]. split; [exact H1|].
  split; [exact (proj1 (get_waiting_game_skips_freed w [0%nat] Hs)
                   1%nat [] Hi H1)|].
  split; [exact Hi1|]. split; [exact H01|].
  exact (proj2 (get_waiting_game_skips_freed w1 [0%nat] Hs1) Hi1).
Defined.

Lemma alloc_ok_world1 : alloc_ok world1.
Proof.
  split; simpl.
  - apply NoDup_singleton.
  - by intros i ->%list_elem_of_singleton.
Qed.

Lemma try_create_game_allocates_witness :
  let r := try_create_game "overcooked" params_humans world1 in
  let r' := try_create_game "overcooked" params_missing_agent world1 in
  alloc_ok (fst r) /\ alloc_ok (fst r') /\
  (exists game, r = (fst r, Val (inl game)) /\
     id game = 0%nat /\
     items (FREE_IDS (fst r)) = [] /\
     FREE_MAP (fst r) = <[0%nat := false]> (FREE_MAP world1) /\
     GAMES (fst r) = <[0%nat := game]> (GAMES world1)) /\
  (exists e, r' = (fst r', Val (inr e)) /\
     FREE_MAP (fst r') = FREE_MAP world1 /\ GAMES (fst r') = GAMES world1).
Proof.
  intros r r'.
  destruct (try_create_game_allocates "overcooked" params_humans world1
              alloc_ok_world1) as (H1 & H2 & _).
  destruct (try_create_game_allocates "overcooked" params_missing_agent world1
              alloc_ok_world1) as (H1' & _ & H3').
  fold r in H1, H2. fold r' in H1', H3'.
  assert (Hr : exists game, r = (fst r, Val (inl game)) /\ id game = 0%nat).
  { vm_compute. eexists. split; reflexivity. }
  assert (Hr' : exists e, r' = (fst r', Val (inr e))).
  { vm_compute. eexists. reflexivity. }
  split; [exact H1|]. split; [exact H1'|]. split.
  - destruct Hr as (game & Hr & Hid). exists game. split; [exact Hr|].
    split; [exact Hid|].
    destruct (H2 (fst r) game Hr) as (rest & Ha & Hb & Hc & Hd & _).
    rewrite Hid in *. simpl in Ha. injection Ha as <-.
    split; [exact Hb|]. split; [exact Hc|exact Hd].
  - destruct Hr' as (e & Hr'). exists e. split; [exact Hr'|].
    exact (H3' (fst r') e Hr').
Defined.

Lemma create_then_cleanup_witness :
  let r := try_create_game "overcooked" params_humans world1 in
  exists game w2,
    r = (fst r, Val (inl game)) /\
    cleanup_game game (fst r) = (w2, Val tt) /\
    items (FREE_IDS world1) = [0%nat] /\
    items (FREE_IDS w2) = [0%nat] /\
    FREE_MAP w2 = FREE_MAP world1 /\
    GAMES w2 = GAMES world1 /\
    USER_ROOMS w2 = USER_ROOMS world1 /\
    WAITING_GAMES w2 = WAITING_GAMES world1 /\
    socketio w2 = [close_room 0%nat].
Proof.
  intros r.
  assert (Hr : exists game, r = (fst r, Val (inl game)) /\ id game = 0%nat /\
                            players game = []).
  { vm_compute. eexists. repeat split; reflexivity. }
  destruct Hr as (game & Hr & Hid & Hps).
  destruct (proj2 (create_then_cleanup "overcooked" params_humans world1
                     alloc_ok_world1) (fst r) game Hr)
    as (w2 & rest & H1 & H2 & H3 & H4 & H5 & _ & H7 & H8 & H9).
  - by rewrite Hid.
  - rewrite Hps. by intros u ?%elem_of_nil.
  - right. simpl. lia.
  - rewrite Hid in *. simpl in H2. injection H2 as <-.
    exists game, w2. split; [exact Hr|]. split; [exact H1|].
    split; [reflexivity|]. split; [exact H3|]. split; [exact H4|].
    split; [exact H5|]. split; [exact H7|]. split; [exact H8|exact H9].
Defined.
